(** * SP108E LED-controller client: a shallow embedding of
      [src/lib/sp108e.ts] and of the part of [src/platformAccessory.ts]
      that touches the decoded status object.

    Layout of the development:
    - [JS]        : the JavaScript string / number / Buffer primitives the
                    client uses ([padEnd], [padStart], [substring],
                    [parseInt], [toString(16)], [Buffer.from(_, 'hex')],
                    [Buffer.toString('hex')]);
    - [SendQueue] : the promise chain [_sendQueue] of [send];
    - [Client]    : the class [sp108e] as a state-and-exception monad over
                    a world holding the socket flags, the I/O oracle, the
                    object heap and an event log;
    - the accessory method [setPresetModeOn];
    - the theorems. *)

From Stdlib Require Import ZArith String Ascii List Bool Lia.
Import ListNotations.

Local Open Scope string_scope.
Local Open Scope list_scope.
Local Open Scope Z_scope.

(* ===================================================================== *)
(** ** JavaScript primitives                                              *)
(* ===================================================================== *)

Module JS.

(** A JavaScript [number] as far as this program computes with it: an
    integer, or [NaN] (what [parseInt] yields when no digit is found). *)
Inductive number : Type :=
| Num (z : Z)
| NaN.

(** [x > k], [x < k], [x === k]: every comparison with [NaN] is false. *)
Definition gt (x : number) (k : Z) : bool :=
  match x with Num z => k <? z | NaN => false end.

Definition lt (x : number) (k : Z) : bool :=
  match x with Num z => z <? k | NaN => false end.

Definition strict_eq (x y : number) : bool :=
  match x, y with Num a, Num b => a =? b | _, _ => false end.

(** [Math.max] / [Math.min]: [NaN] is contagious. *)
Definition Math_max (x y : number) : number :=
  match x, y with Num a, Num b => Num (Z.max a b) | _, _ => NaN end.

Definition Math_min (x y : number) : number :=
  match x, y with Num a, Num b => Num (Z.min a b) | _, _ => NaN end.

Fixpoint repeat_char (c : ascii) (n : nat) : string :=
  match n with
  | O => EmptyString
  | S n' => String c (repeat_char c n')
  end.

(** [s.padEnd(n, c)] and [s.padStart(n, c)] for a one-character filler. *)
Definition padEnd (n : nat) (c : ascii) (s : string) : string :=
  s ++ repeat_char c (n - String.length s).

Definition padStart (n : nat) (c : ascii) (s : string) : string :=
  repeat_char c (n - String.length s) ++ s.

(** [s.substring(a, b)]: indices are clamped to the length of [s] and
    swapped when [a > b]. *)
Definition substring (a b : nat) (s : string) : string :=
  String.substring (Nat.min a b) (Nat.max a b - Nat.min a b) s.

(** Value of a hexadecimal digit, either case. *)
Definition unhex (c : ascii) : option Z :=
  let n := Z.of_nat (nat_of_ascii c) in
  if (48 <=? n) && (n <=? 57) then Some (n - 48)
  else if (97 <=? n) && (n <=? 102) then Some (n - 87)
  else if (65 <=? n) && (n <=? 70) then Some (n - 55)
  else None.

(** The lower-case digit of a value below 16. *)
Definition hexDigit (d : Z) : ascii :=
  if d <? 10 then ascii_of_nat (Z.to_nat (48 + d))
  else ascii_of_nat (Z.to_nat (87 + d)).

(** [Buffer.from(s, 'hex')]: two characters per byte; decoding stops at
    the first pair that is not two hex digits, and a trailing single
    character is dropped. *)
Fixpoint Buffer_from_hex (s : string) : list Z :=
  match s with
  | String a (String b rest) =>
      match unhex a, unhex b with
      | Some x, Some y => (16 * x + y) :: Buffer_from_hex rest
      | _, _ => []
      end
  | _ => []
  end.

(** [buf.toString('hex')]: two lower-case digits per byte. *)
Fixpoint Buffer_toString_hex (buf : list Z) : string :=
  match buf with
  | [] => EmptyString
  | b :: rest =>
      String (hexDigit (b / 16))
        (String (hexDigit (b mod 16)) (Buffer_toString_hex rest))
  end.

(** White space skipped by [parseInt] (the ASCII part of it). *)
Definition isWhiteSpace (c : ascii) : bool :=
  let n := nat_of_ascii c in
  (Nat.eqb n 32 || ((9 <=? n)%nat && (n <=? 13)%nat))%bool.

Fixpoint trimStart (s : string) : string :=
  match s with
  | String c rest => if isWhiteSpace c then trimStart rest else s
  | EmptyString => s
  end.

Definition digitValue (radix : Z) (c : ascii) : option Z :=
  match unhex c with
  | Some d => if d <? radix then Some d else None
  | None => None
  end.

(** Longest prefix of digits; [None] when there is no digit at all. *)
Fixpoint parseDigits (radix : Z) (s : string) (acc : option Z) : option Z :=
  match s with
  | String c rest =>
      match digitValue radix c with
      | Some d =>
          parseDigits radix rest
            (Some (match acc with Some a => a * radix + d | None => d end))
      | None => acc
      end
  | EmptyString => acc
  end.

(** [parseInt(s, radix)] for a radix of at most 16: leading white space,
    an optional sign, an optional [0x] when the radix is 16, then the
    longest prefix of digits; [NaN] when that prefix is empty. *)
Definition parseInt (s : string) (radix : Z) : number :=
  let s1 := trimStart s in
  let '(neg, s2) :=
    match s1 with
    | String "-" r => (true, r)
    | String "+" r => (false, r)
    | _ => (false, s1)
    end in
  let s3 :=
    match s2 with
    | String "0" (String x r) =>
        if (radix =? 16) && (Ascii.eqb x "x" || Ascii.eqb x "X")
        then r else s2
    | _ => s2
    end in
  match parseDigits radix s3 None with
  | Some v => Num (if neg then - v else v)
  | None => NaN
  end.

(** Digits of a non-negative integer in base 16, most significant first.
    The fuel is an upper bound of the number of digits. *)
Fixpoint toHexDigits (fuel : nat) (n : Z) (acc : string) : string :=
  match fuel with
  | O => acc
  | S f =>
      let acc' := String (hexDigit (n mod 16)) acc in
      if n <? 16 then acc' else toHexDigits f (n / 16) acc'
  end.

(** [x.toString(16)] for an integer or [NaN]. *)
Definition toString16 (x : number) : string :=
  match x with
  | NaN => "NaN"
  | Num z =>
      if z <? 0
      then String "-" (toHexDigits (S (Z.to_nat (Z.log2 (- z)))) (- z) "")
      else toHexDigits (S (Z.to_nat (Z.log2 z))) z ""
  end.

End JS.

(* ===================================================================== *)
(** ** The send queue: [_sendQueue] and the last three statements of [send]

    [[
      const queued = this._sendQueue.then(() => executeWithRetries());
      this._sendQueue = queued.catch((err) => { ...log... });
      return queued;
    ]]

    Every call of [send] creates two promises: [queued], chained with
    [then] on the value [_sendQueue] had at the call, and the new
    [_sendQueue], chained with [catch] on [queued].  The k-th call is the
    k-th [link] of the chain; its parent promise is the [tail] of link
    k-1, and [Promise.resolve()] for the first link.  The scheduler and
    the network are the non-determinism of the step relation. *)
(* ===================================================================== *)

Module SendQueue.

Inductive pstate : Type := Pending | Fulfilled | Rejected.

(** The unit of work [executeWithRetries] of one call. *)
Inductive ustatus : Type :=
| Waiting
| Running
| Finished (ok : bool).

Record link : Type := mkLink {
  queued : pstate;   (* _sendQueue.then(() => executeWithRetries()) *)
  tail : pstate;     (* queued.catch(...), the next _sendQueue       *)
  unit : ustatus
}.

(** The chain, oldest call first. *)
Definition chain : Type := list link.

(** [private _sendQueue: Promise<any> = Promise.resolve()] *)
Definition root : pstate := Fulfilled.
Definition init : chain := [].

(** The synchronous part of a call of [send]. *)
Definition send (c : chain) : chain :=
  c ++ [mkLink Pending Pending Waiting].

Inductive label : Type :=
| LSend
| LStart (k : nat)
| LSkip (k : nat)
| LFinish (k : nat) (ok : bool)
| LCatch (k : nat).

Definition settle (ok : bool) : pstate := if ok then Fulfilled else Rejected.

(** Reactions of the two promises of link [k], given the state of the
    promise [queued] was chained on.
    - [then] with a fulfilment handler only: the handler (the unit of
      work) runs when the parent is fulfilled; a rejected parent rejects
      [queued] without running the handler.
    - the unit of work settles [queued] with its own outcome.
    - [catch] with a handler that returns normally: the result is
      fulfilled once [queued] is settled, either way. *)
Inductive link_step (parent : pstate) (k : nat) : link -> label -> link -> Prop :=
| ls_start t :
    parent = Fulfilled ->
    link_step parent k (mkLink Pending t Waiting) (LStart k) (mkLink Pending t Running)
| ls_skip t :
    parent = Rejected ->
    link_step parent k (mkLink Pending t Waiting) (LSkip k) (mkLink Rejected t Waiting)
| ls_finish t ok :
    link_step parent k (mkLink Pending t Running) (LFinish k ok)
              (mkLink (settle ok) t (Finished ok))
| ls_catch q u :
    q <> Pending ->
    link_step parent k (mkLink q Pending u) (LCatch k) (mkLink q Fulfilled u).

(** A reaction somewhere in the chain; [k] is the index of the head. *)
Inductive react (parent : pstate) (k : nat) : chain -> label -> chain -> Prop :=
| react_here l l' rest lab :
    link_step parent k l lab l' ->
    react parent k (l :: rest) lab (l' :: rest)
| react_later l rest rest' lab :
    react (tail l) (S k) rest lab rest' ->
    react parent k (l :: rest) lab (l :: rest').

Inductive step : chain -> label -> chain -> Prop :=
| step_send c : step c LSend (send c)
| step_react c lab c' : react root 0 c lab c' -> step c lab c'.

(** Executions, with the labels in the order they happened. *)
Inductive exec : chain -> list label -> chain -> Prop :=
| exec_nil c : exec c [] c
| exec_snoc c tr c' lab c'' :
    exec c tr c' -> step c' lab c'' -> exec c (tr ++ [lab]) c''.

(** Executions in which no new call of [send] arrives. *)
Inductive drain : chain -> nat -> chain -> Prop :=
| drain_nil c : drain c 0 c
| drain_cons c lab c' n c'' :
    react root 0 c lab c' -> drain c' n c'' -> drain c (S n) c''.

Definition is_running (l : link) : bool :=
  match unit l with Running => true | _ => false end.

Definition is_finished (l : link) : bool :=
  match unit l with Finished _ => true | _ => false end.

(** Number of units of work in flight. *)
Definition in_flight (c : chain) : nat :=
  List.length (filter is_running c).

(** The units started, in the order they were started. *)
Fixpoint started (tr : list label) : list nat :=
  match tr with
  | [] => []
  | LStart k :: tr' => k :: started tr'
  | _ :: tr' => started tr'
  end.

(** The units finished, in the order they finished. *)
Fixpoint finished (tr : list label) : list nat :=
  match tr with
  | [] => []
  | LFinish k _ :: tr' => k :: finished tr'
  | _ :: tr' => finished tr'
  end.

(** The calls of [send] made. *)
Fixpoint sends (tr : list label) : nat :=
  match tr with
  | [] => O
  | LSend :: tr' => S (sends tr')
  | _ :: tr' => sends tr'
  end.

Definition is_skip (lab : label) : bool :=
  match lab with LSkip _ => true | _ => false end.

(** Reactions still to come for one link, and for the chain. *)
Definition link_measure (l : link) : nat :=
  (match tail l with Pending => 1 | _ => 0 end) +
  (match unit l, queued l with
   | Waiting, Pending => 2
   | Running, _ => 1
   | _, _ => 0
   end).

Definition measure (c : chain) : nat :=
  list_sum (map link_measure c).

(** Shape of every reachable chain: a unit has run only under a fulfilled
    parent, and no [tail] is ever rejected. *)
Definition link_ok (parent : pstate) (l : link) : Prop :=
  match unit l with
  | Waiting => queued l = Pending /\ tail l = Pending
  | Running => parent = Fulfilled /\ queued l = Pending /\ tail l = Pending
  | Finished ok =>
      parent = Fulfilled /\ queued l = settle ok /\ tail l <> Rejected
  end.

Fixpoint chain_ok (parent : pstate) (c : chain) : Prop :=
  match c with
  | [] => True
  | l :: rest => link_ok parent l /\ chain_ok (tail l) rest
  end.

Definition is_waiting (l : link) : bool :=
  match unit l with Waiting => true | _ => false end.

(** Units that have been started, and units that have finished. *)
Definition nstarted (c : chain) : nat :=
  List.length (filter (fun l => negb (is_waiting l)) c).

Definition nfinished (c : chain) : nat :=
  List.length (filter is_finished c).

(** No reaction is possible. *)
Definition quiescent (c : chain) : Prop :=
  forall lab c', ~ react root 0 c lab c'.

End SendQueue.

(* ===================================================================== *)
(** ** The device client, [class sp108e]                                  *)
(* ===================================================================== *)

(** [interface sp108eStatus].  The fields computed in floating point (the
    three percentages) and by the external colour library ([hsv]) are
    left out: they are functions of the fields kept here. *)
Module sp108eStatus.
Record t : Type := mk {
  rawResponse : string;
  on : bool;
  animationMode : JS.number;
  presetEffectMode : JS.number;
  animationSpeed : JS.number;
  brightness : JS.number;
  colorOrder : JS.number;
  ledsPerSegment : JS.number;
  numberOfSegments : JS.number;
  color : string;
  icType : JS.number;
  recordedPatterns : JS.number;
  whiteBrightness : JS.number
}.

(** [status.presetEffectMode = v], on a copy. *)
Definition set_presetEffectMode (v : JS.number) (s : t) : t :=
  mk (rawResponse s) (on s) (animationMode s) v (animationSpeed s)
     (brightness s) (colorOrder s) (ledsPerSegment s) (numberOfSegments s)
     (color s) (icType s) (recordedPatterns s) (whiteBrightness s).
End sp108eStatus.

Definition CMD_SET_SEGMENTS : string := "2e".
Definition CMD_SET_LEDS_PER_SEGMENT : string := "2d".
Definition CMD_GET_STATUS : string := "10".
Definition CMD_PREFIX : string := "38".
Definition CMD_SUFFIX : string := "83".
Definition CMD_TOGGLE : string := "aa".
Definition CMD_SET_ANIMATION_MODE : string := "2c".
Definition CMD_SET_BRIGHTNESS : string := "2a".
Definition CMD_SET_WHITE_BRIGHTNESS : string := "08".
Definition CMD_SET_SPEED : string := "03".
Definition CMD_SET_COLOR : string := "22".
Definition CMD_SET_DREAM_MODE : string := "2C".
Definition NO_PARAMETER : string := "000000".

Definition SEND_MAX_RETRIES : Z := 3.
Definition SEND_BASE_DELAY_MS : Z := 200.
Definition SEND_TIMEOUT_MS : Z := 5000.

(** What can be thrown. *)
Inductive error : Type :=
| Error (message : string)   (* new Error(message)                      *)
| SocketError (code : nat)   (* an error raised by the socket           *)
| ThrownNull                 (* [throw lastErr] while lastErr is null   *)
| TypeError                  (* a property read on undefined            *)
| HapStatusError.            (* SERVICE_COMMUNICATION_FAILURE           *)

Inductive outcome (A : Type) : Type :=
| Ok (a : A)
| Throw (e : error).
Arguments Ok {A} a.
Arguments Throw {A} e.

(** What the network does during one attempt. *)
Inductive connect_io : Type :=
| ConnectOk
| ConnectError (e : error)
| ConnectTimeout.            (* no 'connect' within SEND_TIMEOUT_MS *)

Inductive read_io : Type :=
| ReadBuffer (buf : list Z)
| ReadUndefined              (* the read resolves with no data      *)
| ReadError (e : error)
| ReadTimeout.               (* nothing within SEND_TIMEOUT_MS      *)

Record attempt_io : Type := mkIO {
  peer_closed : bool;        (* a 'close' event since the last attempt *)
  io_connect : connect_io;
  io_write : option error;
  io_read : read_io
}.

Inductive event : Type :=
| EvSubmit (cmd parameter : string) (responseLength : Z)  (* send() called *)
| EvConnect
| EvDisconnect
| EvWrite (rawHex : list Z)
| EvRead (size : Z)
| EvSleep (ms : Z)
| EvDelay (ms : Z).

(** The state of a client instance and of its surroundings: the I/O
    oracle [env] (indexed by the attempts made so far), the two socket
    flags, the objects allocated so far, and the log. *)
Record World : Type := mkWorld {
  env : nat -> attempt_io;
  attempts : nat;
  _connected : bool;
  _client : bool;            (* this._client is defined *)
  heap : nat -> sp108eStatus.t;
  next : nat;                (* references below [next] are allocated *)
  events : list event
}.

Definition M (A : Type) : Type := World -> outcome A * World.

Definition ret {A} (a : A) : M A := fun w => (Ok a, w).

Definition throw {A} (e : error) : M A := fun w => (Throw e, w).

Definition bind {A B} (m : M A) (k : A -> M B) : M B :=
  fun w =>
    match m w with
    | (Ok a, w') => k a w'
    | (Throw e, w') => (Throw e, w')
    end.

Definition try_catch {A} (m : M A) (handler : error -> M A) : M A :=
  fun w =>
    match m w with
    | (Ok a, w') => (Ok a, w')
    | (Throw e, w') => handler e w'
    end.

(** A call whose promise is dropped: it runs, nobody sees its outcome. *)
Definition detach {A} (m : M A) : M unit :=
  fun w => (Ok tt, snd (m w)).

Declare Scope client_scope.
Delimit Scope client_scope with client.
Notation "x <- m ;; k" := (bind m (fun x => k))
  (at level 61, m at next level, right associativity) : client_scope.
Notation "m ;; k" := (bind m (fun _ => k))
  (at level 61, right associativity) : client_scope.
Local Open Scope client_scope.

Definition emit (e : event) : M unit :=
  fun w => (Ok tt, mkWorld (env w) (attempts w) (_connected w) (_client w)
                           (heap w) (next w) (events w ++ [e])).

Definition set_socket (connected client : bool) : M unit :=
  fun w => (Ok tt, mkWorld (env w) (attempts w) connected client
                           (heap w) (next w) (events w)).

(** The oracle entry of the attempt that starts now. *)
Definition next_attempt : M attempt_io :=
  fun w => (Ok (env w (attempts w)),
            mkWorld (env w) (S (attempts w)) (_connected w) (_client w)
                    (heap w) (next w) (events w)).

(** An object literal: a new object at a reference never used before. *)
Definition alloc (s : sp108eStatus.t) : M nat :=
  fun w => (Ok (next w),
            mkWorld (env w) (attempts w) (_connected w) (_client w)
                    (fun r => if Nat.eqb r (next w) then s else heap w r)
                    (S (next w)) (events w)).

Definition deref (r : nat) : M sp108eStatus.t :=
  fun w => (Ok (heap w r), w).

(** An assignment to a property of the object at [r]. *)
Definition update (r : nat) (f : sp108eStatus.t -> sp108eStatus.t) : M unit :=
  fun w => (Ok tt,
            mkWorld (env w) (attempts w) (_connected w) (_client w)
                    (fun r' => if Nat.eqb r' r then f (heap w r) else heap w r')
                    (next w) (events w)).

Definition delay (ms : Z) : M unit := emit (EvDelay ms).

Definition sleep : M unit := emit (EvSleep 250).

(** The 'close' handler installed by [ensureConnected]. *)
Definition on_close (io : attempt_io) : M unit :=
  if peer_closed io then set_socket false false else ret tt.

Definition ensureConnected (io : attempt_io) : M unit :=
  fun w =>
    if _connected w && _client w then ret tt w
    else
      (emit EvConnect ;;
       match io_connect io with
       | ConnectOk => set_socket true true
       | ConnectError e => set_socket false false ;; throw e
       | ConnectTimeout =>
           set_socket false false ;; throw (Error "connect timeout")
       end) w.

Definition _forceDisconnect : M unit :=
  emit EvDisconnect ;; set_socket false false.

Definition client_write (io : attempt_io) (rawHex : list Z) : M unit :=
  emit (EvWrite rawHex) ;;
  match io_write io with
  | None => ret tt
  | Some e => throw e
  end.

(** [Promise.race([this._client.read(n), timeoutPromise])] *)
Definition race_read (io : attempt_io) (responseLength : Z)
  : M (option (list Z)) :=
  emit (EvRead responseLength) ;;
  match io_read io with
  | ReadBuffer buf => ret (Some buf)
  | ReadUndefined => ret None
  | ReadError e => throw e
  | ReadTimeout => _forceDisconnect ;; throw (Error "send() read timeout")
  end.

(** The frame of [attemptExecute]:
    [Buffer.from(CMD_PREFIX + parameter.padEnd(6, '0') + cmd + CMD_SUFFIX, 'hex')] *)
Definition rawHex (cmd parameter : string) : list Z :=
  JS.Buffer_from_hex
    (CMD_PREFIX ++ JS.padEnd 6 "0" parameter ++ cmd ++ CMD_SUFFIX)%string.

Definition attemptExecute (cmd parameter : string) (responseLength : Z)
  : M string :=
  io <- next_attempt ;;
  on_close io ;;
  ensureConnected io ;;
  client <- (fun w => (Ok (_client w), w)) ;;
  if negb client then throw (Error "Unable to establish connection")
  else
    try_catch
      (client_write io (rawHex cmd parameter) ;;
       if 0 <? responseLength then
         responseBuf <- race_read io responseLength ;;
         ret (match responseBuf with
              | Some buf => JS.Buffer_toString_hex buf
              | None => ""%string
              end)
       else
         sleep ;; ret ""%string)
      (fun err => _forceDisconnect ;; throw err).

(** The [for] loop of [executeWithRetries]; [fuel] bounds the number of
    iterations, [SEND_MAX_RETRIES + 1 - attempt] of them are needed. *)
Fixpoint retry_loop (attemptExecute : M string) (fuel : nat) (attempt : Z)
  (lastErr : error) : M string :=
  match fuel with
  | O => throw lastErr
  | S fuel' =>
      if attempt <=? SEND_MAX_RETRIES then
        try_catch attemptExecute
          (fun err =>
             if attempt <? SEND_MAX_RETRIES then
               let backoff := SEND_BASE_DELAY_MS * 2 ^ attempt in
               delay backoff ;;
               retry_loop attemptExecute fuel' (attempt + 1) err
             else throw err)
      else throw lastErr
  end.

Definition executeWithRetries (attemptExecute : M string) : M string :=
  retry_loop attemptExecute (S (Z.to_nat SEND_MAX_RETRIES)) 0 ThrownNull.

(** [send]: one unit of work of the queue, run in its turn. *)
Definition send (cmd parameter : string) (responseLength : Z) : M string :=
  emit (EvSubmit cmd parameter responseLength) ;;
  executeWithRetries (attemptExecute cmd parameter responseLength).

Definition intToHex (int : option JS.number) : string :=
  let value := match int with Some v => v | None => JS.Num 0 end in
  JS.padStart 2 "0" (JS.toString16 value).

Section Client.

(** The two constants of [lib/animationModes.ts] the client imports.
    That file is not part of the sources at hand, so their values are
    parameters of the development. *)
Variable UNKNOWN_MODE : Z.
Variable ANIMATION_MODE_STATIC : Z.

(** The object literal returned by [getStatus]. *)
Definition decodeStatus (response : string) : sp108eStatus.t :=
  let anyMode := JS.parseInt (JS.substring 4 6 response) 16 in
  {| sp108eStatus.rawResponse := response;
     sp108eStatus.on := String.eqb (JS.substring 2 4 response) "01";
     sp108eStatus.animationMode :=
       if JS.gt anyMode 180 then anyMode else JS.Num UNKNOWN_MODE;
     sp108eStatus.presetEffectMode :=
       if JS.lt anyMode 180 then anyMode else JS.Num UNKNOWN_MODE;
     sp108eStatus.animationSpeed := JS.parseInt (JS.substring 6 8 response) 16;
     sp108eStatus.brightness := JS.parseInt (JS.substring 8 10 response) 16;
     sp108eStatus.colorOrder := JS.parseInt (JS.substring 10 12 response) 16;
     sp108eStatus.ledsPerSegment := JS.parseInt (JS.substring 12 16 response) 16;
     sp108eStatus.numberOfSegments := JS.parseInt (JS.substring 16 20 response) 16;
     sp108eStatus.color := JS.substring 20 26 response;
     sp108eStatus.icType := JS.parseInt (JS.substring 26 28 response) 16;
     sp108eStatus.recordedPatterns := JS.parseInt (JS.substring 28 30 response) 16;
     sp108eStatus.whiteBrightness := JS.parseInt (JS.substring 30 32 response) 16 |}.

Definition setSegments (segments : option JS.number) : M string :=
  send CMD_SET_SEGMENTS (intToHex segments) 0.

Definition setLedsPerSegment (ledsPerSegment : option JS.number) : M string :=
  send CMD_SET_LEDS_PER_SEGMENT (intToHex ledsPerSegment) 0.

Definition toggleOnOff : M string :=
  send CMD_TOGGLE NO_PARAMETER 17.

Definition getStatus : M nat :=
  response <- send CMD_GET_STATUS NO_PARAMETER 17 ;;
  alloc (decodeStatus response).

Definition off : M (option string) :=
  status <- getStatus ;;
  st <- deref status ;;
  if sp108eStatus.on st then r <- toggleOnOff ;; ret (Some r)
  else ret None.

Definition on : M (option string) :=
  status <- getStatus ;;
  st <- deref status ;;
  if negb (sp108eStatus.on st) then r <- toggleOnOff ;; ret (Some r)
  else ret None.

Definition setBrightness (brightness : JS.number) : M string :=
  send CMD_SET_BRIGHTNESS (intToHex (Some brightness)) 0.

Definition setWhiteBrightness (brightness : JS.number) : M string :=
  let brightness := if JS.lt brightness 1 then JS.Num 1 else brightness in
  send CMD_SET_WHITE_BRIGHTNESS (intToHex (Some brightness)) 0.

Definition setColor (hexColor : string) : M string :=
  status <- getStatus ;;
  st <- deref status ;;
  (if JS.strict_eq (sp108eStatus.animationMode st) (JS.Num 0)
   then send CMD_SET_ANIMATION_MODE
             (intToHex (Some (JS.Num ANIMATION_MODE_STATIC))) 0 ;; ret tt
   else ret tt) ;;
  send CMD_SET_COLOR hexColor 0.

Definition setAnimationMode (animationMode : JS.number) : M string :=
  send CMD_SET_ANIMATION_MODE (intToHex (Some animationMode)) 0.

Definition setPresetMode (presetMode : JS.number) : M string :=
  let truncated := JS.Math_min (JS.Math_max presetMode (JS.Num 0)) (JS.Num 179) in
  send CMD_SET_DREAM_MODE (intToHex (Some truncated)) 0.

Definition setAnimationSpeed (speed : JS.number) : M string :=
  send CMD_SET_SPEED (intToHex (Some speed)) 0.

(* --------------------------------------------------------------------- *)
(** *** The accessory, [class Sp108ePlatformAccessory]: the fields and the
        method that hold and change the status object.                    *)
(* --------------------------------------------------------------------- *)

Record Accessory : Type := mkAccessory {
  deviceStatus : option nat;        (* undefined before the first pull *)
  presetOn : option bool;           (* declared, not initialised       *)
  presetEffectNumber : JS.number
}.

(** [this.deviceStatus = await this.device.getStatus()], the first
    statement of [pull]. *)
Definition pull_status (a : Accessory) : M Accessory :=
  status <- getStatus ;;
  ret (mkAccessory (Some status) (presetOn a) (presetEffectNumber a)).

Definition same_bool (o : option bool) (b : bool) : bool :=
  match o with Some x => Bool.eqb x b | None => false end.

Definition setPresetModeOn (value : bool) (a : Accessory) : M Accessory :=
  try_catch
    (match deviceStatus a with
     | None => throw TypeError
     | Some d =>
         st <- deref d ;;
         let unknown :=
           JS.strict_eq (sp108eStatus.presetEffectMode st) (JS.Num UNKNOWN_MODE) in
         if value && negb unknown && same_bool (presetOn a) true then ret a
         else if negb value && unknown && same_bool (presetOn a) false then ret a
         else
           (if negb (sp108eStatus.on st) then on ;; ret tt else ret tt) ;;
           let presetOn' := value in
           a' <- (if presetOn' then
                    st' <- deref d ;;
                    let currentPresetMode :=
                      if negb (JS.strict_eq (sp108eStatus.presetEffectMode st')
                                            (JS.Num UNKNOWN_MODE))
                      then sp108eStatus.presetEffectMode st'
                      else presetEffectNumber a in
                    update d (sp108eStatus.set_presetEffectMode currentPresetMode) ;;
                    ret (mkAccessory (deviceStatus a) (Some presetOn')
                                     currentPresetMode)
                  else
                    ret (mkAccessory (deviceStatus a) (Some presetOn')
                                     (presetEffectNumber a))) ;;
           (if value then detach (setPresetMode (presetEffectNumber a'))
            else detach (setAnimationMode (JS.Num ANIMATION_MODE_STATIC))) ;;
           ret a'
     end)
    (fun _ => throw HapStatusError).

End Client.

(* ===================================================================== *)
(** ** Vocabulary of the statements                                       *)
(* ===================================================================== *)

(** A byte value. *)
Definition is_byte (b : Z) : Prop := 0 <= b < 256.

(** A string of hexadecimal digits, either case. *)
Fixpoint all_hex (s : string) : bool :=
  match s with
  | EmptyString => true
  | String c rest =>
      match JS.unhex c with Some _ => all_hex rest | None => false end
  end.

(** A hex string that spells whole bytes, [n] of them at most. *)
Definition hex_bytes_upto (n : nat) (s : string) : Prop :=
  all_hex s = true /\ Nat.even (String.length s) = true /\
  (String.length s <= 2 * n)%nat.

(** A status response as the device sends it: 17 bytes. *)
Definition well_formed_status (buf : list Z) : Prop :=
  List.length buf = 17%nat /\ Forall is_byte buf.

(** The events logged by a computation: what it appended to the log. *)
Definition new_events (w w' : World) : list event :=
  skipn (List.length (events w)) (events w').

(** The commands handed to [send], in order. *)
Fixpoint submitted (evs : list event) : list (string * string * Z) :=
  match evs with
  | [] => []
  | EvSubmit cmd parameter n :: rest => (cmd, parameter, n) :: submitted rest
  | _ :: rest => submitted rest
  end.

(** The back-off delays taken, in order. *)
Fixpoint delays (evs : list event) : list Z :=
  match evs with
  | [] => []
  | EvDelay ms :: rest => ms :: delays rest
  | _ :: rest => delays rest
  end.

(** A field of a status is known when it is not the sentinel. *)
Definition known (UNKNOWN_MODE : Z) (x : JS.number) : Prop :=
  x <> JS.Num UNKNOWN_MODE.

Definition exactly_one_known (UNKNOWN_MODE : Z) (s : sp108eStatus.t) : Prop :=
  (known UNKNOWN_MODE (sp108eStatus.animationMode s) /\
   ~ known UNKNOWN_MODE (sp108eStatus.presetEffectMode s)) \/
  (~ known UNKNOWN_MODE (sp108eStatus.animationMode s) /\
   known UNKNOWN_MODE (sp108eStatus.presetEffectMode s)).

(** The two commands [setColor] may send after the status query. *)
Definition static_mode_command (ANIMATION_MODE_STATIC : Z) : string * string * Z :=
  (CMD_SET_ANIMATION_MODE, intToHex (Some (JS.Num ANIMATION_MODE_STATIC)), 0).

Definition color_command (hexColor : string) : string * string * Z :=
  (CMD_SET_COLOR, hexColor, 0).

Definition status_command : string * string * Z :=
  (CMD_GET_STATUS, NO_PARAMETER, 17).

Definition toggle_command : string * string * Z :=
  (CMD_TOGGLE, NO_PARAMETER, 17).

(** A world whose network answers every attempt the same way. *)
Definition steady_world (io : attempt_io) : World :=
  mkWorld (fun _ => io) 0 false false (fun _ => sp108eStatus.mk
    "" false JS.NaN JS.NaN JS.NaN JS.NaN JS.NaN JS.NaN JS.NaN "" JS.NaN
    JS.NaN JS.NaN) 0 [].

(** A network on which everything works and every read returns [buf]. *)
Definition answering (buf : list Z) : attempt_io :=
  mkIO false ConnectOk None (ReadBuffer buf).

(** A 17-byte status with power flag [power] and mode byte [mode]. *)
Definition status_bytes (power mode : Z) : list Z :=
  [56; power; mode; 128; 255; 2; 0; 60; 0; 1; 255; 103; 23; 3; 0; 255; 131].

(** Equality test on numbers as values ([NaN] equal to itself), for
    checking results by computation. *)
Definition num_eqb (x y : JS.number) : bool :=
  match x, y with
  | JS.Num a, JS.Num b => a =? b
  | JS.NaN, JS.NaN => true
  | _, _ => false
  end.

(** The two digits of a byte. *)
Definition byte_hex (b : Z) : string :=
  String (JS.hexDigit (b / 16)) (String (JS.hexDigit (b mod 16)) EmptyString).

(** [w'] is [w] after some input and output: [evs] were logged, [k]
    attempts were made, the oracle and the objects are the same. *)
Definition io_only (w w' : World) (evs : list event) (k : nat) : Prop :=
  events w' = events w ++ evs /\ attempts w' = (attempts w + k)%nat /\
  env w' = env w /\ heap w' = heap w /\ next w' = next w.

(** The events one attempt of [send cmd parameter responseLength] may
    log, and those the whole call may log after its [EvSubmit]. *)
Definition attempt_event (cmd parameter : string) (responseLength : Z)
  (e : event) : Prop :=
  match e with
  | EvConnect | EvDisconnect => True
  | EvWrite f => f = rawHex cmd parameter
  | EvRead n => n = responseLength
  | EvSleep ms => ms = 250
  | EvSubmit _ _ _ | EvDelay _ => False
  end.

Definition send_event (cmd parameter : string) (responseLength : Z)
  (e : event) : Prop :=
  match e with
  | EvDelay _ => True
  | EvSubmit _ _ _ => False
  | _ => attempt_event cmd parameter responseLength e
  end.

(** [w'] is [w] after some operations: [evs] were logged, the oracle is
    the same, and every object that existed in [w] is unchanged. *)
Definition extends (w w' : World) (evs : list event) : Prop :=
  events w' = events w ++ evs /\ env w' = env w /\
  (next w <= next w')%nat /\
  (forall r, (r < next w)%nat -> heap w' r = heap w r).

(** The operations of the client. *)
Inductive client_op : Type :=
| OpSend (cmd parameter : string) (responseLength : Z)
| OpSetSegments (segments : option JS.number)
| OpSetLedsPerSegment (ledsPerSegment : option JS.number)
| OpToggleOnOff
| OpGetStatus
| OpOff
| OpOn
| OpSetBrightness (brightness : JS.number)
| OpSetWhiteBrightness (brightness : JS.number)
| OpSetColor (hexColor : string)
| OpSetAnimationMode (animationMode : JS.number)
| OpSetPresetMode (presetMode : JS.number)
| OpSetAnimationSpeed (speed : JS.number).

(** The world after an operation of the client. *)
Definition after (UNKNOWN_MODE ANIMATION_MODE_STATIC : Z) (op : client_op)
  (w : World) : World :=
  match op with
  | OpSend cmd parameter n => snd (send cmd parameter n w)
  | OpSetSegments x => snd (setSegments x w)
  | OpSetLedsPerSegment x => snd (setLedsPerSegment x w)
  | OpToggleOnOff => snd (toggleOnOff w)
  | OpGetStatus => snd (getStatus UNKNOWN_MODE w)
  | OpOff => snd (off UNKNOWN_MODE w)
  | OpOn => snd (on UNKNOWN_MODE w)
  | OpSetBrightness x => snd (setBrightness x w)
  | OpSetWhiteBrightness x => snd (setWhiteBrightness x w)
  | OpSetColor hex =>
      snd (setColor UNKNOWN_MODE ANIMATION_MODE_STATIC hex w)
  | OpSetAnimationMode x => snd (setAnimationMode x w)
  | OpSetPresetMode x => snd (setPresetMode x w)
  | OpSetAnimationSpeed x => snd (setAnimationSpeed x w)
  end.

(** The value [setPresetModeOn(true)] stores in the status object [s]. *)
Definition stored_preset (UNKNOWN_MODE : Z) (a : Accessory)
  (s : sp108eStatus.t) : JS.number :=
  if negb (JS.strict_eq (sp108eStatus.presetEffectMode s) (JS.Num UNKNOWN_MODE))
  then sp108eStatus.presetEffectMode s
  else presetEffectNumber a.

(** A network that accepts the connection and the write, and whose read
    resolves with no data. *)
Definition silent_peer : attempt_io :=
  mkIO false ConnectOk None ReadUndefined.

(** The accessory after its first pull from a device that is on and
    plays animation 205, configured with a default preset number other
    than the sentinel; and that pull. *)
Definition cached (UNKNOWN_MODE : Z) : Accessory :=
  mkAccessory (Some 0%nat) None (JS.Num (UNKNOWN_MODE + 1)).

Definition pulled (UNKNOWN_MODE : Z) : outcome Accessory * World :=
  pull_status UNKNOWN_MODE
    (mkAccessory None None (JS.Num (UNKNOWN_MODE + 1)))
    (steady_world (answering (status_bytes 1 205))).

(* ===================================================================== *)
(** ** More of the client: [setChipType] and [setColorOrder]              *)
(* ===================================================================== *)

Definition CMD_SET_CHIP_TYPE : string := "1c".
Definition CMD_SET_COLOR_ORDER : string := "3c".

(** [array.indexOf(x)] on an array of strings: the first index at which
    [x] occurs, -1 when it does not occur. *)
Fixpoint indexOf_from (l : list string) (x : string) (i : Z) : Z :=
  match l with
  | [] => -1
  | y :: rest => if String.eqb y x then i else indexOf_from rest x (i + 1)
  end.

Definition indexOf (l : list string) (x : string) : Z := indexOf_from l x 0.

Section ChipAndOrder.

(** The arrays of [lib/chipTypes.ts] and [lib/colorOrders.ts], which are
    not part of the sources at hand. *)
Variable CHIP_TYPES : list string.
Variable COLOR_ORDERS : list string.

Definition setChipType (chipType : string) : M string :=
  let index := indexOf CHIP_TYPES chipType in
  if index =? -1 then throw (Error ("Invalid chip type: " ++ chipType))
  else send CMD_SET_CHIP_TYPE (intToHex (Some (JS.Num index))) 0.

Definition setColorOrder (colorOrder : string) : M string :=
  let index := indexOf COLOR_ORDERS colorOrder in
  if index =? -1 then throw (Error ("Invalid color order: " ++ colorOrder))
  else send CMD_SET_COLOR_ORDER (intToHex (Some (JS.Num index))) 0.

End ChipAndOrder.

(* ===================================================================== *)
(** ** Numbers that need not be integers: the percentages                 *)
(* ===================================================================== *)

From Stdlib Require PrimFloat FloatOps SpecFloat.

(** A JavaScript number is an IEEE 754 double; [JS.number] holds the
    integers and [NaN] among them.  The code that divides uses the
    doubles themselves. *)
Module JSF.

Import PrimFloat FloatOps SpecFloat.

(** The double nearest to an integer; the integer itself when it is a
    double, as every integer below 2^53 is. *)
Definition of_Z (z : Z) : float :=
  SF2Prim (binary_normalize prec emax z 0 false).

(** A number of [JS.number] as the double it is. *)
Definition of_number (x : JS.number) : float :=
  match x with
  | JS.Num z => of_Z z
  | JS.NaN => nan
  end.

(** The values [Math.ceil] and [Math.trunc] return: an integer, an
    infinity or [NaN]. *)
Inductive integral : Type :=
| Fin (z : Z)
| Inf (negative : bool)
| NaNi.

Definition to_float (i : integral) : float :=
  match i with
  | Fin z => of_Z z
  | Inf negative => if negative then neg_infinity else infinity
  | NaNi => nan
  end.

(** The signed mantissa of a finite double [m * 2^e]. *)
Definition signed (s : bool) (m : positive) : Z :=
  if s then Z.neg m else Z.pos m.

(** [Math.ceil(x)]: the least integer that is not below [x]. *)
Definition Math_ceil (x : float) : integral :=
  match Prim2SF x with
  | S754_zero _ => Fin 0
  | S754_infinity s => Inf s
  | S754_nan => NaNi
  | S754_finite s m e =>
      if 0 <=? e then Fin (signed s m * 2 ^ e)
      else Fin (- ((- signed s m) / 2 ^ (- e)))
  end.

(** [Math.trunc(x)]: [x] without its fraction. *)
Definition Math_trunc (x : float) : integral :=
  match Prim2SF x with
  | S754_zero _ => Fin 0
  | S754_infinity s => Inf s
  | S754_nan => NaNi
  | S754_finite s m e =>
      if 0 <=? e then Fin (signed s m * 2 ^ e)
      else Fin (Z.quot (signed s m) (2 ^ (- e)))
  end.

(** [i < k] for an integral [i] and an integer [k]. *)
Definition lt (i : integral) (k : Z) : bool :=
  match i with
  | Fin z => z <? k
  | Inf negative => negative
  | NaNi => false
  end.

(** [Number.isFinite(x)], [isFinite(x)] and [isNaN(x)] on a number. *)
Definition isFinite (x : float) : bool := is_finite x.
Definition isNaN (x : float) : bool := is_nan x.

(** [x / 255 * 100] and [x / 100 * 255]. *)
Definition to_percentage (x : float) : float := (x / 255 * 100)%float.
Definition of_percentage (x : float) : float := (x / 100 * 255)%float.

Definition integral_eqb (a b : integral) : bool :=
  match a, b with
  | Fin x, Fin y => x =? y
  | Inf x, Inf y => Bool.eqb x y
  | NaNi, NaNi => true
  | _, _ => false
  end.

End JSF.

(** The three fields of the object literal returned by [getStatus] that
    are not integers.  Each is computed from the substring the integer
    field beside it is parsed from, and no field of the two is ever
    assigned again. *)
Definition animationSpeedPercentage (s : sp108eStatus.t) : PrimFloat.float :=
  JSF.to_percentage (JSF.of_number (sp108eStatus.animationSpeed s)).
Definition brightnessPercentage (s : sp108eStatus.t) : PrimFloat.float :=
  JSF.to_percentage (JSF.of_number (sp108eStatus.brightness s)).
Definition whiteBrightnessPercentage (s : sp108eStatus.t) : PrimFloat.float :=
  JSF.to_percentage (JSF.of_number (sp108eStatus.whiteBrightness s)).

(** [setBrightness], [setWhiteBrightness] and [setAnimationSpeed] at the
    value [Math.ceil] returned.  An infinity is no [JS.number]:
    [Infinity.toString(16)] is 'Infinity', which [padStart(2, '0')]
    leaves alone, and -Infinity is below 1. *)
Definition setBrightness_integral (brightness : JSF.integral) : M string :=
  match brightness with
  | JSF.Fin z => setBrightness (JS.Num z)
  | JSF.NaNi => setBrightness JS.NaN
  | JSF.Inf negative =>
      send CMD_SET_BRIGHTNESS (if negative then "-Infinity" else "Infinity") 0
  end.

Definition setWhiteBrightness_integral (brightness : JSF.integral) : M string :=
  match brightness with
  | JSF.Fin z => setWhiteBrightness (JS.Num z)
  | JSF.NaNi => setWhiteBrightness JS.NaN
  | JSF.Inf negative =>
      if negative then setWhiteBrightness (JS.Num 1)
      else send CMD_SET_WHITE_BRIGHTNESS "Infinity" 0
  end.

Definition setAnimationSpeed_integral (speed : JSF.integral) : M string :=
  match speed with
  | JSF.Fin z => setAnimationSpeed (JS.Num z)
  | JSF.NaNi => setAnimationSpeed JS.NaN
  | JSF.Inf negative =>
      send CMD_SET_SPEED (if negative then "-Infinity" else "Infinity") 0
  end.

Definition setBrightnessPercentage (brightnessPercentage : PrimFloat.float)
  : M string :=
  setBrightness_integral (JSF.Math_ceil (JSF.of_percentage brightnessPercentage)).

Definition setWhiteBrightnessPercentage (brightnessPercentage : PrimFloat.float)
  : M string :=
  setWhiteBrightness_integral
    (JSF.Math_ceil (JSF.of_percentage brightnessPercentage)).

Definition setAnimationSpeedPercentage (speedPercentage : PrimFloat.float)
  : M string :=
  setAnimationSpeed_integral (JSF.Math_ceil (JSF.of_percentage speedPercentage)).

(* ===================================================================== *)
(** ** More of the accessory                                              *)
(* ===================================================================== *)

(** [x % k] on an integer or [NaN]: the sign is that of [x]. *)
Definition js_rem (x : JS.number) (k : Z) : JS.number :=
  match x with
  | JS.Num z => JS.Num (Z.rem z k)
  | JS.NaN => JS.NaN
  end.

Module Sp108ePlatformAccessory.

(** The methods of the client, under the names the accessory calls them
    by ([this.device.setColor], ...). *)
Local Abbreviation device_getStatus := getStatus.
Local Abbreviation device_on := on.
Local Abbreviation device_off := off.
Local Abbreviation device_setColor := setColor.
Local Abbreviation device_setPresetMode := setPresetMode.
Local Abbreviation device_setAnimationMode := setAnimationMode.
Local Abbreviation device_setChipType := setChipType.
Local Abbreviation device_setColorOrder := setColorOrder.
Local Abbreviation device_setSegments := setSegments.
Local Abbreviation device_setLedsPerSegment := setLedsPerSegment.
Local Abbreviation device_setBrightnessPercentage := setBrightnessPercentage.
Local Abbreviation device_setWhiteBrightnessPercentage :=
  setWhiteBrightnessPercentage.
Local Abbreviation device_setAnimationSpeedPercentage :=
  setAnimationSpeedPercentage.

Definition POLL_INTERVAL : Z := 1000.

Section Methods.

Variable UNKNOWN_MODE : Z.
Variable ANIMATION_MODE_STATIC : Z.

(** What the home-automation platform and the colour library provide:
    the type of the values of a characteristic, the type of the [value]
    component of an HSV triple, [colorConvert.hex.hsv(hex)[2]] and
    [colorConvert.hsv.hex([h, s, v])]. *)
Variable CharacteristicValue : Type.
Variable HsvValue : Type.
Variable hex_hsv_value : string -> HsvValue.
Variable hsv_hex :
  option CharacteristicValue -> option CharacteristicValue -> HsvValue -> string.

(** [PRESET_EFFECT_RAINBOW] and the keys of [PRESET_EFFECTS], of
    [lib/animationModes.ts]. *)
Variable PRESET_EFFECT_RAINBOW : Z.
Variable in_PRESET_EFFECTS : JS.number -> bool.

(** [ANIMATION_MODE_WAVE] and the keys of [ANIMATION_MODES], of the same
    file; the arrays of [lib/chipTypes.ts] and [lib/colorOrders.ts]. *)
Variable ANIMATION_MODE_WAVE : Z.
Variable in_ANIMATION_MODES : JS.number -> bool.
Variable CHIP_TYPES : list string.
Variable COLOR_ORDERS : list string.

(** [colorConvert.hex.hsv(hex)[0]] and [colorConvert.hex.hsv(hex)[1]]. *)
Variable hex_hsv_hue : string -> HsvValue.
Variable hex_hsv_saturation : string -> HsvValue.

(** [private targetHue], [private targetSaturation]. *)
Record Targets : Type := mkTargets {
  targetHue : option CharacteristicValue;
  targetSaturation : option CharacteristicValue
}.

(** [private rgbOn], [private animationOn], [private presetOn]. *)
Record Switches : Type := mkSwitches {
  rgbOn : bool;
  animationOn : option bool;
  presetOn : option bool
}.

(** [isOutOfSync()].  A date is given by what [getUTCMilliseconds()]
    returns for it: [lastPull] when it is defined, and [now] for
    [new Date()]. *)
Definition isOutOfSync (deviceStatus : option nat) (lastPull : option Z)
  (now : Z) : bool :=
  match deviceStatus with
  | None => true
  | Some _ =>
      match lastPull with
      | None => true
      | Some last => POLL_INTERVAL <? now - last
      end
  end.

(** [setOn(value)]; [value] is [Boolean(value)]. *)
Definition setOn (value : bool) (s : Switches) (w : World)
  : outcome unit * Switches * World :=
  match (device_getStatus UNKNOWN_MODE ;;
         if value then device_on UNKNOWN_MODE else device_off UNKNOWN_MODE) w with
  | (Ok _, w') =>
      let rgbOn' := value in
      (Ok tt,
       if negb rgbOn' then mkSwitches rgbOn' (Some false) (Some false)
       else mkSwitches rgbOn' (animationOn s) (presetOn s),
       w')
  | (Throw _, w') => (Throw HapStatusError, s, w')
  end.

(** [setColor()]; the status object holds [hsv], computed from its
    [color] when it was decoded. *)
Definition setColor (deviceStatus : option nat) (t : Targets) (w : World)
  : outcome unit * Targets * World :=
  match deviceStatus with
  | None => (Throw TypeError, t, w)
  | Some d =>
      let colorHex :=
        hsv_hex (targetHue t) (targetSaturation t)
                (hex_hsv_value (sp108eStatus.color (heap w d))) in
      match device_setColor UNKNOWN_MODE ANIMATION_MODE_STATIC colorHex w with
      | (Ok _, w') => (Ok tt, mkTargets None None, w')
      | (Throw e, w') => (Throw e, t, w')
      end
  end.

Definition setHue (value : CharacteristicValue) (deviceStatus : option nat)
  (t : Targets) (w : World) : outcome unit * Targets * World :=
  let t1 := mkTargets (Some value) (targetSaturation t) in
  match targetSaturation t1 with
  | None => (Ok tt, t1, w)
  | Some _ =>
      match setColor deviceStatus t1 w with
      | (Ok _, t2, w') => (Ok tt, t2, w')
      | (Throw _, t2, w') => (Throw HapStatusError, t2, w')
      end
  end.

Definition setSaturation (value : CharacteristicValue)
  (deviceStatus : option nat) (t : Targets) (w : World)
  : outcome unit * Targets * World :=
  let t1 := mkTargets (targetHue t) (Some value) in
  match targetHue t1 with
  | None => (Ok tt, t1, w)
  | Some _ =>
      match setColor deviceStatus t1 w with
      | (Ok _, t2, w') => (Ok tt, t2, w')
      | (Throw _, t2, w') => (Throw HapStatusError, t2, w')
      end
  end.

(** [setPresetMode(value)]. *)
Definition setPresetMode (value : JS.number) (deviceStatus : option nat)
  : M unit :=
  try_catch
    (let truncValue := js_rem value 180 in
     match deviceStatus with
     | None => throw TypeError
     | Some d =>
         st <- deref d ;;
         (if negb (sp108eStatus.on st) then device_on UNKNOWN_MODE ;; ret tt
          else ret tt) ;;
         (if negb (in_PRESET_EFFECTS truncValue)
          then device_setPresetMode (JS.Num PRESET_EFFECT_RAINBOW)
          else device_setPresetMode truncValue) ;;
         ret tt
     end)
    (fun _ => throw HapStatusError).

(** [setAnimationModeOn(value)]; [value] stands for its truthiness.  The
    method changes [animationOn] and [animationNumber]; it returns the
    switches and the number it leaves. *)
Definition setAnimationModeOn (value : bool) (deviceStatus : option nat)
  (s : Switches) (animationNumber : JS.number) : M (Switches * JS.number) :=
  try_catch
    (match deviceStatus with
     | None => throw TypeError
     | Some d =>
         st <- deref d ;;
         let static :=
           JS.strict_eq (sp108eStatus.animationMode st)
                        (JS.Num ANIMATION_MODE_STATIC) in
         if value && negb static && same_bool (animationOn s) true
         then ret (s, animationNumber)
         else if negb value && static && same_bool (animationOn s) false
         then ret (s, animationNumber)
         else
           (if negb (sp108eStatus.on st) then device_on UNKNOWN_MODE ;; ret tt
            else ret tt) ;;
           let animationOn' := value in
           st' <- deref d ;;
           let animationNumber' :=
             if animationOn' then
               let fromStatus :=
                 if negb (JS.strict_eq (sp108eStatus.animationMode st')
                                       (JS.Num UNKNOWN_MODE))
                 then sp108eStatus.animationMode st'
                 else animationNumber in
               let currentAnnimationMode :=
                 if negb (in_ANIMATION_MODES fromStatus)
                 then JS.Num ANIMATION_MODE_WAVE
                 else fromStatus in
               if negb (JS.strict_eq currentAnnimationMode
                                     (JS.Num ANIMATION_MODE_STATIC))
               then currentAnnimationMode
               else animationNumber
             else animationNumber in
           (if value then detach (device_setAnimationMode animationNumber')
            else detach (device_setAnimationMode (JS.Num ANIMATION_MODE_STATIC))) ;;
           ret (mkSwitches (rgbOn s) (Some animationOn') (presetOn s),
                animationNumber')
     end)
    (fun _ => throw HapStatusError).

(** [initialize({ chip, colorOrder, segments, ledsPerSegment })], from
    the statement after [await this.pollStatus()] on; [deviceStatus] is
    the field as the poll left it. *)
Definition initialize_after_poll (chip colorOrder : string)
  (segments ledsPerSegment : option JS.number) (deviceStatus : option nat)
  : M unit :=
  match deviceStatus with
  | None => ret tt
  | Some d =>
      let differs (field : JS.number) (wanted : option JS.number) : bool :=
        match wanted with
        | Some n => negb (JS.strict_eq field n)
        | None => true
        end in
      let chipIndex := indexOf CHIP_TYPES chip in
      st <- deref d ;;
      (if differs (sp108eStatus.icType st) (Some (JS.Num chipIndex))
       then device_setChipType CHIP_TYPES chip ;; ret tt else ret tt) ;;
      let colorOrderIndex := indexOf COLOR_ORDERS colorOrder in
      st <- deref d ;;
      (if differs (sp108eStatus.colorOrder st) (Some (JS.Num colorOrderIndex))
       then device_setColorOrder COLOR_ORDERS colorOrder ;; ret tt else ret tt) ;;
      st <- deref d ;;
      (if differs (sp108eStatus.numberOfSegments st) segments
       then device_setSegments segments ;; ret tt else ret tt) ;;
      st <- deref d ;;
      (if differs (sp108eStatus.ledsPerSegment st) ledsPerSegment
       then device_setLedsPerSegment ledsPerSegment ;; ret tt else ret tt)
  end.

(** [setBrightness(value)]; [value] stands for [Number(value)]. *)
Definition setBrightness (value : PrimFloat.float) (deviceStatus : option nat)
  : M unit :=
  try_catch
    (match deviceStatus with
     | None => throw TypeError
     | Some d =>
         st <- deref d ;;
         (if negb (sp108eStatus.on st) then device_on UNKNOWN_MODE ;; ret tt
          else ret tt) ;;
         let n := value in
         if negb (JSF.isFinite n) || JSF.isNaN n
         then device_off UNKNOWN_MODE ;; ret tt
         else
           let i := JSF.Math_trunc n in
           if JSF.lt i 1 then device_off UNKNOWN_MODE ;; ret tt
           else device_setBrightnessPercentage (JSF.to_float i) ;; ret tt
     end)
    (fun _ => throw HapStatusError).

(** [setWhiteBrightness(value)] and [setAnimationSpeed(value)]; [value]
    stands for the number it is used as. *)
Definition setWhiteBrightness (value : PrimFloat.float) : M unit :=
  try_catch (device_setWhiteBrightnessPercentage value ;; ret tt)
            (fun _ => throw HapStatusError).

Definition setAnimationSpeed (value : PrimFloat.float) : M unit :=
  try_catch (device_setAnimationSpeedPercentage value ;; ret tt)
            (fun _ => throw HapStatusError).

(** What [pollStatus] reads and writes of the accessory: [deviceStatus],
    [lastPull] (a date, as its time value), [rgbOn] among the switches,
    [animationNumber] and [presetEffectNumber]. *)
Record Polled : Type := mkPolled {
  deviceStatus : option nat;
  lastPull : option Z;
  switches : Switches;
  animationNumber : JS.number;
  presetEffectNumber : JS.number
}.

(** The calls [service.updateCharacteristic(characteristic, value)]. *)
Inductive Service : Type :=
| rgbService | wService | asService | mdService | prService.

Inductive Characteristic : Type :=
| On | Brightness | Hue | Saturation | Active | RotationSpeed
| ActiveIdentifier.

Inductive ActiveValue : Type := ACTIVE | INACTIVE.

Inductive Value : Type :=
| VBoolean (b : bool)
| VNumber (x : PrimFloat.float)
| VHsv (x : HsvValue)
| VActive (a : ActiveValue)
| VIdentifier (x : JS.number).

Definition Update : Type := (Service * Characteristic * Value)%type.

(** [if (typeof x !== 'number' || !isFinite(x) || isNaN(x)) x = 0], on
    a number. *)
Definition safe (x : PrimFloat.float) : PrimFloat.float :=
  if negb (JSF.isFinite x) || JSF.isNaN x then JSF.of_Z 0 else x.

(** The same with a default, on a number of [JS.number]. *)
Definition safe_identifier (x : JS.number) (default : Z) : JS.number :=
  match x with
  | JS.Num z => JS.Num z
  | JS.NaN => JS.Num default
  end.

(** [pollStatus()], at the date [now]; [has_wService] and
    [has_prService] tell whether the two optional services are there.
    It returns the fields it leaves and the updates it made, in order;
    [updateCharacteristic] is taken to return normally.  An error of the
    status query is caught and logged. *)
Definition pollStatus (now : Z) (has_wService has_prService : bool)
  (a : Polled) (w : World) : Polled * list Update * World :=
  match device_getStatus UNKNOWN_MODE w with
  | (Throw _, w') => (a, [], w')
  | (Ok status, w') =>
      let st := heap w' status in
      let rgbOn' := sp108eStatus.on st in
      let tmpAMode := sp108eStatus.animationMode st in
      let animating :=
        negb (JS.strict_eq tmpAMode (JS.Num ANIMATION_MODE_STATIC)) &&
        negb (JS.strict_eq tmpAMode (JS.Num UNKNOWN_MODE)) &&
        sp108eStatus.on st in
      let animationModeOn := if animating then ACTIVE else INACTIVE in
      let animationNumber' :=
        if animating then
          if in_ANIMATION_MODES (sp108eStatus.animationMode st)
          then sp108eStatus.animationMode st
          else animationNumber a
        else animationNumber a in
      let presetting :=
        negb (JS.strict_eq (sp108eStatus.presetEffectMode st)
                           (JS.Num UNKNOWN_MODE)) &&
        sp108eStatus.on st in
      let presetModeOn := if presetting then ACTIVE else INACTIVE in
      let presetEffectNumber' :=
        if presetting then
          if in_PRESET_EFFECTS (sp108eStatus.presetEffectMode st)
          then sp108eStatus.presetEffectMode st
          else presetEffectNumber a
        else presetEffectNumber a in
      let updates :=
        [ (rgbService, On, VBoolean rgbOn');
          (rgbService, Brightness,
           VNumber (if rgbOn' then safe (brightnessPercentage st)
                    else JSF.of_Z 0));
          (rgbService, Hue, VHsv (hex_hsv_hue (sp108eStatus.color st)));
          (rgbService, Saturation,
           VHsv (hex_hsv_saturation (sp108eStatus.color st))) ] ++
        (if has_wService
         then [ (wService, Brightness,
                 VNumber (safe (whiteBrightnessPercentage st))) ]
         else []) ++
        [ (asService, Active, VActive animationModeOn);
          (asService, RotationSpeed,
           VNumber (safe (animationSpeedPercentage st)));
          (mdService, Active, VActive animationModeOn) ] ++
        (if negb (JS.strict_eq animationNumber' (JS.Num UNKNOWN_MODE))
         then [ (mdService, ActiveIdentifier,
                 VIdentifier (safe_identifier animationNumber'
                                              ANIMATION_MODE_STATIC)) ]
         else []) ++
        (if has_prService
         then (prService, Active, VActive presetModeOn) ::
              (if negb (JS.strict_eq presetEffectNumber' (JS.Num UNKNOWN_MODE))
               then [ (prService, ActiveIdentifier,
                       VIdentifier (safe_identifier presetEffectNumber'
                                                    PRESET_EFFECT_RAINBOW)) ]
               else [])
         else []) in
      (mkPolled (Some status) (Some now)
                (mkSwitches rgbOn' (animationOn (switches a))
                            (presetOn (switches a)))
                animationNumber' presetEffectNumber',
       updates, w')
  end.

End Methods.

Arguments VBoolean {HsvValue} b.
Arguments VNumber {HsvValue} x.
Arguments VHsv {HsvValue} x.
Arguments VActive {HsvValue} a.
Arguments VIdentifier {HsvValue} x.

(** The values reported for one characteristic of one service, in
    order. *)
Definition Service_eqb (a b : Service) : bool :=
  match a, b with
  | rgbService, rgbService | wService, wService | asService, asService
  | mdService, mdService | prService, prService => true
  | _, _ => false
  end.

Definition Characteristic_eqb (a b : Characteristic) : bool :=
  match a, b with
  | On, On | Brightness, Brightness | Hue, Hue | Saturation, Saturation
  | Active, Active | RotationSpeed, RotationSpeed
  | ActiveIdentifier, ActiveIdentifier => true
  | _, _ => false
  end.

Definition reported {HsvValue : Type} (updates : list (Update HsvValue))
  (s : Service) (c : Characteristic) : list (Value HsvValue) :=
  map snd
    (filter (fun u => Service_eqb (fst (fst u)) s &&
                      Characteristic_eqb (snd (fst u)) c) updates).

(** A value the platform accepts: a number is finite, an identifier is
    no [NaN]. *)
Definition acceptable {HsvValue : Type} (v : Value HsvValue) : bool :=
  match v with
  | VNumber x => JSF.isFinite x
  | VIdentifier JS.NaN => false
  | _ => true
  end.

End Sp108ePlatformAccessory.

(* ===================================================================== *)
(** ** More vocabulary                                                    *)
(* ===================================================================== *)

(** The client holds a live connection. *)
Definition connected (w : World) : bool := _connected w && _client w.

(** The read of an attempt yields something. *)
Definition reads_ok (io : attempt_io) : bool :=
  match io_read io with
  | ReadBuffer _ | ReadUndefined => true
  | ReadError _ | ReadTimeout => false
  end.

(** The write of an attempt, and its read when one is expected, work. *)
Definition transfer_ok (responseLength : Z) (io : attempt_io) : bool :=
  match io_write io with
  | None => if 0 <? responseLength then reads_ok io else true
  | Some _ => false
  end.

(** The network lets an attempt that has to connect succeed. *)
Definition io_ok (responseLength : Z) (io : attempt_io) : bool :=
  match io_connect io with
  | ConnectOk => transfer_ok responseLength io
  | _ => false
  end.

(** What a successful attempt returns. *)
Definition response_of (responseLength : Z) (io : attempt_io) : string :=
  if 0 <? responseLength then
    match io_read io with
    | ReadBuffer buf => JS.Buffer_toString_hex buf
    | _ => EmptyString
    end
  else EmptyString.

(** What an attempt that has to connect throws when the network does not
    let it succeed. *)
Definition attempt_error (io : attempt_io) : error :=
  match io_connect io with
  | ConnectError e => e
  | ConnectTimeout => Error "connect timeout"
  | ConnectOk =>
      match io_write io with
      | Some e => e
      | None =>
          match io_read io with
          | ReadError e => e
          | _ => Error "send() read timeout"
          end
      end
  end.

(** The connections opened and the frames written, in order. *)
Fixpoint connects (evs : list event) : nat :=
  match evs with
  | [] => O
  | EvConnect :: rest => S (connects rest)
  | _ :: rest => connects rest
  end.

Fixpoint writes (evs : list event) : list (list Z) :=
  match evs with
  | [] => []
  | EvWrite f :: rest => f :: writes rest
  | _ :: rest => writes rest
  end.

(** The events of a successful attempt. *)
Definition success_events (cmd parameter : string) (responseLength : Z)
  (reconnect : bool) : list event :=
  (if reconnect then [EvConnect] else []) ++
  [EvWrite (rawHex cmd parameter);
   if 0 <? responseLength then EvRead responseLength else EvSleep 250].

(** [Math.min(Math.max(m, 0), 179)] on an integer. *)
Definition clamp_preset (m : Z) : Z := Z.min (Z.max m 0) 179.

(** Equality test on frames, for checking them by computation. *)
Fixpoint frame_eqb (a b : list Z) : bool :=
  match a, b with
  | [], [] => true
  | x :: a', y :: b' => (x =? y) && frame_eqb a' b'
  | _, _ => false
  end.

(** The frames an operation wrote: those logged between [w] and [w']. *)
Definition frames_written (w w' : World) : list (list Z) :=
  writes (new_events w w').

(** The bytes whose brightness percentage, written back, gives the next
    byte. *)
Definition drifts (b : Z) : bool :=
  existsb (Z.eqb b)
    [25; 49; 50; 98; 99; 100; 101; 196; 197; 198; 199; 200; 201; 202; 203].

(** The read of an attempt was rejected. *)
Definition read_rejected (io : attempt_io) : bool :=
  match io_read io with
  | ReadError _ => true
  | _ => false
  end.

(** No attempt made so far had its read rejected.  In the source a read
    that rejects leaves the timer of its timeout armed ([clearTimeout]
    is reached only when the race resolves), and that timer runs
    [_forceDisconnect] when it fires, whatever the client is doing
    then; [race_read] does not follow it.  A client none of whose reads
    was rejected has no such timer armed. *)
Definition no_stale_timer (w : World) : bool :=
  forallb (fun j => negb (read_rejected (env w j))) (seq 0 (attempts w)).

(* ===================================================================== *)
(** ** Facts about the JavaScript primitives                              *)
(* ===================================================================== *)

Section Bounded.

(** Checking a decidable property of bytes on all 256 of them. *)
Lemma forall_byte (P : Z -> bool) :
  forallb P (map Z.of_nat (seq 0 256)) = true ->
  forall b, is_byte b -> P b = true.
Proof.
  intros H b Hb. rewrite forallb_forall in H. apply H.
  apply in_map_iff. exists (Z.to_nat b). unfold is_byte in Hb.
  split; [lia | apply in_seq; lia].
Qed.

Lemma forall_nibble (P : Z -> bool) :
  forallb P (map Z.of_nat (seq 0 16)) = true ->
  forall d, 0 <= d < 16 -> P d = true.
Proof.
  intros H d Hd. rewrite forallb_forall in H. apply H.
  apply in_map_iff. exists (Z.to_nat d).
  split; [lia | apply in_seq; lia].
Qed.

End Bounded.

Lemma num_eqb_eq x y : num_eqb x y = true -> x = y.
Proof.
  destruct x, y; simpl; try discriminate; auto.
  intros H. apply Z.eqb_eq in H. now subst.
Qed.

Lemma unhex_hexDigit d : 0 <= d < 16 -> JS.unhex (JS.hexDigit d) = Some d.
Proof.
  intros Hd.
  pose proof (forall_nibble
    (fun d => match JS.unhex (JS.hexDigit d) with
              | Some x => x =? d | None => false end)
    ltac:(vm_compute; reflexivity) d Hd) as H.
  cbv beta in H. destruct (JS.unhex (JS.hexDigit d)); [|discriminate].
  apply Z.eqb_eq in H. now subst.
Qed.

Lemma byte_digits b : is_byte b -> 0 <= b / 16 < 16 /\ 0 <= b mod 16 < 16.
Proof.
  unfold is_byte. intros Hb. split.
  - split; [apply Z.div_pos; lia | apply Z.div_lt_upper_bound; lia].
  - apply Z.mod_pos_bound. lia.
Qed.

(** [parseInt] reads back the two digits of a byte. *)
Lemma parseInt_byte_hex b : is_byte b -> JS.parseInt (byte_hex b) 16 = JS.Num b.
Proof.
  intros Hb. apply num_eqb_eq.
  exact (forall_byte
    (fun b => num_eqb (JS.parseInt (byte_hex b) 16) (JS.Num b))
    ltac:(vm_compute; reflexivity) b Hb).
Qed.

(** The same for the four digits of two bytes, high byte first.  The
    digits are read one at a time, so the proof goes through the value of
    each digit rather than through all the 65536 pairs. *)
Lemma parseDigits_cons c rest d acc :
  JS.unhex c = Some d -> 0 <= d < 16 ->
  JS.parseDigits 16 (String c rest) acc =
  JS.parseDigits 16 rest
    (Some (match acc with Some a => a * 16 + d | None => d end)).
Proof.
  intros Hc Hd. simpl. unfold JS.digitValue. rewrite Hc.
  destruct (Z.ltb_spec d 16); [reflexivity | lia].
Qed.

Lemma hexDigit_plain d :
  0 <= d < 16 ->
  JS.isWhiteSpace (JS.hexDigit d) = false /\
  JS.hexDigit d <> "-"%char /\ JS.hexDigit d <> "+"%char /\
  Ascii.eqb (JS.hexDigit d) "x" = false /\ Ascii.eqb (JS.hexDigit d) "X" = false.
Proof.
  intros Hd.
  pose proof (forall_nibble
    (fun d =>
       negb (JS.isWhiteSpace (JS.hexDigit d)) &&
       negb (Ascii.eqb (JS.hexDigit d) "-") && negb (Ascii.eqb (JS.hexDigit d) "+") &&
       negb (Ascii.eqb (JS.hexDigit d) "x") && negb (Ascii.eqb (JS.hexDigit d) "X"))
    ltac:(vm_compute; reflexivity) d Hd) as H.
  cbv beta in H.
  repeat (apply andb_prop in H; destruct H as [H ?]).
  repeat match goal with
         | K : negb _ = true |- _ => apply negb_true_iff in K
         end.
  repeat split; auto.
  - intros E. rewrite E in *. discriminate.
  - intros E. rewrite E in *. discriminate.
Qed.

Lemma parseInt_two_bytes hi lo :
  is_byte hi -> is_byte lo ->
  JS.parseInt (byte_hex hi ++ byte_hex lo) 16 = JS.Num (256 * hi + lo).
Proof.
  intros Hhi Hlo.
  destruct (byte_digits hi Hhi) as [H1 H2].
  destruct (byte_digits lo Hlo) as [H3 H4].
  destruct (hexDigit_plain _ H1) as (W & Hm & Hp & _ & _).
  destruct (hexDigit_plain _ H2) as (_ & _ & _ & Hx & HX).
  unfold JS.parseInt, byte_hex. simpl String.append.
  cbn [JS.trimStart]. rewrite W.
  assert (E : (match String (JS.hexDigit (hi / 16))
                 (String (JS.hexDigit (hi mod 16))
                    (String (JS.hexDigit (lo / 16))
                       (String (JS.hexDigit (lo mod 16)) ""))) with
               | String "-" r => (true, r)
               | String "+" r => (false, r)
               | _ => (false, String (JS.hexDigit (hi / 16))
                 (String (JS.hexDigit (hi mod 16))
                    (String (JS.hexDigit (lo / 16))
                       (String (JS.hexDigit (lo mod 16)) ""))))
               end) =
              (false, String (JS.hexDigit (hi / 16))
                 (String (JS.hexDigit (hi mod 16))
                    (String (JS.hexDigit (lo / 16))
                       (String (JS.hexDigit (lo mod 16)) ""))))).
  { destruct (JS.hexDigit (hi / 16)) as [[] [] [] [] [] [] [] []];
      try reflexivity; congruence. }
  rewrite E. clear E.
  assert (E : (match String (JS.hexDigit (hi / 16))
                 (String (JS.hexDigit (hi mod 16))
                    (String (JS.hexDigit (lo / 16))
                       (String (JS.hexDigit (lo mod 16)) ""))) with
               | String "0" (String x r) =>
                   if (16 =? 16) && (Ascii.eqb x "x" || Ascii.eqb x "X")
                   then r
                   else String (JS.hexDigit (hi / 16))
                 (String (JS.hexDigit (hi mod 16))
                    (String (JS.hexDigit (lo / 16))
                       (String (JS.hexDigit (lo mod 16)) "")))
               | _ => String (JS.hexDigit (hi / 16))
                 (String (JS.hexDigit (hi mod 16))
                    (String (JS.hexDigit (lo / 16))
                       (String (JS.hexDigit (lo mod 16)) "")))
               end) =
              String (JS.hexDigit (hi / 16))
                 (String (JS.hexDigit (hi mod 16))
                    (String (JS.hexDigit (lo / 16))
                       (String (JS.hexDigit (lo mod 16)) "")))).
  { rewrite Hx, HX. simpl.
    destruct (JS.hexDigit (hi / 16)) as [[] [] [] [] [] [] [] []]; reflexivity. }
  rewrite E. clear E.
  rewrite (parseDigits_cons _ _ _ _ (unhex_hexDigit _ H1) H1).
  rewrite (parseDigits_cons _ _ _ _ (unhex_hexDigit _ H2) H2).
  rewrite (parseDigits_cons _ _ _ _ (unhex_hexDigit _ H3) H3).
  rewrite (parseDigits_cons _ _ _ _ (unhex_hexDigit _ H4) H4).
  simpl JS.parseDigits. cbv iota. f_equal.
  unfold is_byte in *.
  rewrite (Z.div_mod hi 16) at 3 by lia.
  rewrite (Z.div_mod lo 16) at 3 by lia. ring.
Qed.

(* ===================================================================== *)
(** ** The command frame                                                  *)
(* ===================================================================== *)

Section Frame.

(** Induction two characters at a time, the way [Buffer.from] reads. *)
Lemma string_pair_ind (P : string -> Prop) :
  P EmptyString ->
  (forall a, P (String a EmptyString)) ->
  (forall a b s, P s -> P (String a (String b s))) ->
  forall s, P s.
Proof.
  intros H0 H1 H2.
  fix IH 1. intros [|a [|b s]].
  - exact H0.
  - apply H1.
  - apply H2. apply IH.
Qed.

Lemma Buffer_from_hex_app s t :
  all_hex s = true -> Nat.even (String.length s) = true ->
  JS.Buffer_from_hex (s ++ t) = JS.Buffer_from_hex s ++ JS.Buffer_from_hex t.
Proof.
  induction s as [| a | a b s IH] using string_pair_ind; intros Hh He.
  - reflexivity.
  - discriminate.
  - cbn [all_hex] in Hh.
    destruct (JS.unhex a) as [x|] eqn:Ha; [|discriminate].
    destruct (JS.unhex b) as [y|] eqn:Hb; [|discriminate].
    cbn [String.append JS.Buffer_from_hex]. rewrite Ha, Hb.
    rewrite IH; [reflexivity | exact Hh | exact He].
Qed.

Lemma Buffer_from_hex_length s :
  all_hex s = true -> Nat.even (String.length s) = true ->
  List.length (JS.Buffer_from_hex s) = Nat.div2 (String.length s).
Proof.
  induction s as [| a | a b s IH] using string_pair_ind; intros Hh He.
  - reflexivity.
  - discriminate.
  - cbn [all_hex] in Hh.
    destruct (JS.unhex a) as [x|] eqn:Ha; [|discriminate].
    destruct (JS.unhex b) as [y|] eqn:Hb; [|discriminate].
    cbn [JS.Buffer_from_hex]. rewrite Ha, Hb.
    cbn [List.length String.length Nat.div2]. f_equal. apply IH; assumption.
Qed.

Lemma unhex_range c x : JS.unhex c = Some x -> 0 <= x < 16.
Proof.
  unfold JS.unhex. set (n := Z.of_nat (nat_of_ascii c)).
  destruct ((48 <=? n) && (n <=? 57)) eqn:E1;
    [|destruct ((97 <=? n) && (n <=? 102)) eqn:E2;
      [|destruct ((65 <=? n) && (n <=? 70)) eqn:E3]];
    intros H; inversion H; subst; clear H;
    match goal with
    | K : (_ && _) = true |- _ =>
        apply andb_prop in K; destruct K as [K1 K2];
        apply Z.leb_le in K1; apply Z.leb_le in K2; lia
    end.
Qed.

Lemma Buffer_from_hex_bytes s : Forall is_byte (JS.Buffer_from_hex s).
Proof.
  induction s as [| a | a b s IH] using string_pair_ind.
  - constructor.
  - constructor.
  - cbn [JS.Buffer_from_hex].
    destruct (JS.unhex a) as [x|] eqn:Ha; [|constructor].
    destruct (JS.unhex b) as [y|] eqn:Hb; [|constructor].
    constructor; [|exact IH].
    apply unhex_range in Ha. apply unhex_range in Hb. unfold is_byte. lia.
Qed.

Lemma Buffer_from_hex_zeros n t :
  JS.Buffer_from_hex (JS.repeat_char "0" (2 * n) ++ t) =
  repeat 0 n ++ JS.Buffer_from_hex t.
Proof.
  induction n as [|n IH]; [reflexivity|].
  replace (2 * S n)%nat with (S (S (2 * n))) by lia.
  cbn [JS.repeat_char String.append]. cbn [JS.Buffer_from_hex].
  change (JS.unhex "0") with (Some 0). cbv iota.
  rewrite IH. reflexivity.
Qed.

Lemma string_app_assoc (a b c : string) : ((a ++ b) ++ c = a ++ (b ++ c))%string.
Proof. induction a; simpl; congruence. Qed.

Lemma even_div2_double n : Nat.even n = true -> (2 * Nat.div2 n = n)%nat.
Proof.
  intros H. apply Nat.even_spec in H. destruct H as [k ->].
  rewrite Nat.div2_double. reflexivity.
Qed.

(** The frame of a command, in terms of the bytes its two hex strings
    spell. *)
Lemma rawHex_layout cmd parameter :
  hex_bytes_upto 1 cmd -> String.length cmd = 2%nat ->
  hex_bytes_upto 3 parameter ->
  rawHex cmd parameter =
    [56] ++ JS.Buffer_from_hex parameter
         ++ repeat 0 (3 - List.length (JS.Buffer_from_hex parameter))
         ++ JS.Buffer_from_hex cmd ++ [131].
Proof.
  intros (Hc & Hce & _) Hcl (Hp & Hpe & Hpl).
  unfold rawHex, CMD_PREFIX, CMD_SUFFIX, JS.padEnd.
  change ("38" ++ (parameter ++ JS.repeat_char "0" (6 - String.length parameter))
               ++ cmd ++ "83")%string
    with (String "3" (String "8"
            ((parameter ++ JS.repeat_char "0" (6 - String.length parameter))
               ++ cmd ++ "83")))%string.
  cbn [JS.Buffer_from_hex]. change (JS.unhex "3") with (Some 3).
  change (JS.unhex "8") with (Some 8). cbv iota.
  change (16 * 3 + 8) with 56. cbn [app]. f_equal.
  rewrite string_app_assoc.
  rewrite (Buffer_from_hex_app parameter) by assumption. f_equal.
  rewrite (Buffer_from_hex_length parameter) by assumption.
  pose proof (even_div2_double _ Hpe) as Hd.
  replace (6 - String.length parameter)%nat
    with (2 * (3 - Nat.div2 (String.length parameter)))%nat by lia.
  rewrite Buffer_from_hex_zeros. f_equal.
  rewrite (Buffer_from_hex_app cmd) by assumption. reflexivity.
Qed.

End Frame.

(** C4.  For every opcode (a hex string of one byte) and every parameter
    of at most three bytes (a hex string of whole bytes, six digits at
    most), the frame sent is PREFIX (0x38), then the bytes of the
    parameter followed by zero bytes up to three, then the opcode byte,
    then SUFFIX (0x83): six bytes in all, whatever the opcode.  The frame
    is a function of the opcode and the parameter alone: equal inputs
    give equal frames. *)
Theorem frame_layout cmd parameter :
  hex_bytes_upto 1 cmd -> String.length cmd = 2%nat ->
  hex_bytes_upto 3 parameter ->
  let p := JS.Buffer_from_hex parameter in
  let padded := p ++ repeat 0 (3 - List.length p) in
  (exists opcode, is_byte opcode /\ JS.Buffer_from_hex cmd = [opcode] /\
                  rawHex cmd parameter = [56] ++ padded ++ [opcode] ++ [131]) /\
  (2 * List.length p = String.length parameter)%nat /\
  List.length padded = 3%nat /\
  List.length (rawHex cmd parameter) = 6%nat /\
  Forall is_byte (rawHex cmd parameter) /\
  (forall cmd' parameter',
      cmd' = cmd -> parameter' = parameter ->
      rawHex cmd' parameter' = rawHex cmd parameter).
Proof.
  intros Hc Hcl Hp p padded.
  pose proof (rawHex_layout cmd parameter Hc Hcl Hp) as Hlay.
  destruct Hc as (Hc & Hce & Hcu). destruct Hp as (Hp & Hpe & Hpl).
  pose proof (Buffer_from_hex_length parameter Hp Hpe) as Lp.
  pose proof (Buffer_from_hex_length cmd Hc Hce) as Lc.
  rewrite Hcl in Lc. cbn [Nat.div2] in Lc.
  pose proof (even_div2_double _ Hpe) as Hd.
  fold p in Lp, Hlay.
  assert (Lpad : List.length padded = 3%nat).
  { unfold padded. rewrite length_app, repeat_length. lia. }
  destruct (JS.Buffer_from_hex cmd) as [|opcode [|]] eqn:Eo; try discriminate.
  pose proof (Buffer_from_hex_bytes cmd) as Bc. rewrite Eo in Bc.
  split; [|split; [|split; [|split; [|split]]]].
  - exists opcode. split; [inversion Bc; assumption|]. split; [reflexivity|].
    rewrite Hlay. unfold padded. cbn [app]. f_equal.
    rewrite <- app_assoc. reflexivity.
  - lia.
  - exact Lpad.
  - rewrite Hlay. cbn [app List.length].
    rewrite length_app, length_app, repeat_length. cbn [List.length]. lia.
  - apply Buffer_from_hex_bytes.
  - intros cmd' parameter' -> ->. reflexivity.
Qed.

(** The frame of [setBrightness(255)], and of a three-byte colour. *)
Lemma frame_layout_witness :
  rawHex CMD_SET_BRIGHTNESS "ff" = [56; 255; 0; 0; 42; 131] /\
  rawHex CMD_SET_COLOR "FFAABB" = [56; 255; 170; 187; 34; 131].
Proof.
  split.
  - destruct (frame_layout CMD_SET_BRIGHTNESS "ff") as ((o & _ & Ho & E) & _);
      [repeat split; simpl; lia | reflexivity | repeat split; simpl; lia |].
    rewrite E. vm_compute in Ho. inversion Ho. reflexivity.
  - destruct (frame_layout CMD_SET_COLOR "FFAABB") as ((o & _ & Ho & E) & _);
      [repeat split; simpl; lia | reflexivity | repeat split; simpl; lia |].
    rewrite E. vm_compute in Ho. inversion Ho. reflexivity.
Defined.

(* ===================================================================== *)
(** ** [intToHex]                                                         *)
(* ===================================================================== *)

Section IntToHex.

(** The digits written are read back, most significant first. *)
Lemma toHexDigits_value : forall f n acc,
  0 <= n < 16 ^ Z.of_nat (S f) ->
  JS.parseDigits 16 (JS.toHexDigits (S f) n acc) None =
  JS.parseDigits 16 acc (Some n).
Proof.
  induction f as [|f IH]; intros n acc Hn.
  - change (16 ^ Z.of_nat 1) with 16 in Hn.
    cbn [JS.toHexDigits]. destruct (Z.ltb_spec n 16) as [_|]; [|lia].
    rewrite Z.mod_small by lia.
    rewrite (parseDigits_cons _ _ n None (unhex_hexDigit n Hn) Hn).
    reflexivity.
  - assert (Hm : 0 <= n mod 16 < 16) by (apply Z.mod_pos_bound; lia).
    change (JS.toHexDigits (S (S f)) n acc)
      with (let acc' := String (JS.hexDigit (n mod 16)) acc in
            if n <? 16 then acc' else JS.toHexDigits (S f) (n / 16) acc').
    cbv zeta. destruct (Z.ltb_spec n 16) as [Hlt|Hge].
    + rewrite Z.mod_small by lia.
      rewrite (parseDigits_cons _ _ n None (unhex_hexDigit n ltac:(lia))
                 ltac:(lia)).
      reflexivity.
    + rewrite IH.
      * rewrite (parseDigits_cons _ _ _ _ (unhex_hexDigit _ Hm) Hm).
        f_equal. f_equal. rewrite (Z.div_mod n 16) at 3 by lia. ring.
      * split; [apply Z.div_pos; lia|].
        apply Z.div_lt_upper_bound; [lia|].
        replace (Z.of_nat (S (S f))) with (Z.succ (Z.of_nat (S f))) in Hn by lia.
        rewrite Z.pow_succ_r in Hn by lia. lia.
Qed.

Lemma toHexDigits_all_hex : forall f n acc,
  0 <= n -> all_hex acc = true -> all_hex (JS.toHexDigits f n acc) = true.
Proof.
  induction f as [|f IH]; intros n acc Hn Ha; [exact Ha|].
  assert (Hm : 0 <= n mod 16 < 16) by (apply Z.mod_pos_bound; lia).
  assert (Hacc : all_hex (String (JS.hexDigit (n mod 16)) acc) = true)
    by (cbn [all_hex]; rewrite (unhex_hexDigit _ Hm); exact Ha).
  cbn [JS.toHexDigits]. destruct (n <? 16); [exact Hacc|].
  apply IH; [apply Z.div_pos; lia | exact Hacc].
Qed.

Lemma toHexDigits_length : forall f n acc,
  (S (String.length acc) <= String.length (JS.toHexDigits (S f) n acc))%nat.
Proof.
  induction f as [|f IH]; intros n acc.
  - cbn [JS.toHexDigits]. destruct (n <? 16); cbn [String.length]; lia.
  - change (JS.toHexDigits (S (S f)) n acc)
      with (let acc' := String (JS.hexDigit (n mod 16)) acc in
            if n <? 16 then acc' else JS.toHexDigits (S f) (n / 16) acc').
    cbv zeta. destruct (n <? 16); [cbn [String.length]; lia|].
    specialize (IH (n / 16) (String (JS.hexDigit (n mod 16)) acc)).
    cbn [String.length] in IH. lia.
Qed.

Lemma digits_fuel n : 0 <= n -> n < 16 ^ Z.of_nat (S (Z.to_nat (Z.log2 n))).
Proof.
  intros Hn.
  replace (Z.of_nat (S (Z.to_nat (Z.log2 n)))) with (Z.succ (Z.log2 n))
    by (pose proof (Z.log2_nonneg n); lia).
  destruct (Z.eq_dec n 0) as [->|Hnz]; [reflexivity|].
  pose proof (Z.log2_spec n ltac:(lia)) as [_ Hup].
  pose proof (Z.log2_nonneg n) as Hl.
  assert (2 ^ Z.succ (Z.log2 n) <= 16 ^ Z.succ (Z.log2 n))
    by (apply Z.pow_le_mono_l; lia).
  lia.
Qed.

(** On a string that starts with a hex digit [parseInt] has nothing to
    skip: no white space, no sign, no [0x]. *)
Lemma parseInt_all_hex s :
  all_hex s = true -> s <> EmptyString ->
  JS.parseInt s 16 =
  match JS.parseDigits 16 s None with
  | Some v => JS.Num v
  | None => JS.NaN
  end.
Proof.
  intros Hs Hne. destruct s as [|c s]; [contradiction|]. clear Hne.
  cbn [all_hex] in Hs.
  destruct (JS.unhex c) as [d|] eqn:Hc; [|discriminate].
  destruct s as [|x r].
  - destruct c as [[] [] [] [] [] [] [] []]; try discriminate Hc; reflexivity.
  - cbn [all_hex] in Hs.
    destruct (JS.unhex x) as [dx|] eqn:Hx; [|discriminate].
    assert (E : Ascii.eqb x "x" || Ascii.eqb x "X" = false).
    { destruct x as [[] [] [] [] [] [] [] []]; try discriminate Hx; reflexivity. }
    destruct c as [[] [] [] [] [] [] [] []]; try discriminate Hc;
      unfold JS.parseInt;
      match goal with
      | |- context [JS.trimStart ?s] => change (JS.trimStart s) with s
      end;
      cbv beta iota zeta; change (16 =? 16) with true; cbn [andb];
      rewrite ?E; reflexivity.
Qed.

Lemma parseInt_toString16 n :
  0 <= n -> JS.parseInt (intToHex (Some (JS.Num n))) 16 = JS.Num n.
Proof.
  intros Hn. unfold intToHex, JS.toString16.
  destruct (Z.ltb_spec n 0) as [|_]; [lia|].
  set (f := Z.to_nat (Z.log2 n)).
  pose proof (toHexDigits_value f n EmptyString
                (conj Hn (digits_fuel n Hn))) as V.
  pose proof (toHexDigits_all_hex (S f) n EmptyString Hn eq_refl) as A.
  pose proof (toHexDigits_length f n EmptyString) as L.
  cbn [JS.parseDigits String.length] in V, L.
  set (s := JS.toHexDigits (S f) n EmptyString) in *.
  unfold JS.padStart.
  destruct s as [|c [|c2 s2]] eqn:Es; cbn [String.length] in L; [lia| |].
  - (* one digit: a zero digit is put in front *)
    cbn [String.length Nat.sub JS.repeat_char String.append].
    rewrite parseInt_all_hex; [|cbn [all_hex] in *; exact A|discriminate].
    cbn [all_hex] in A. destruct (JS.unhex c) as [d|] eqn:Hc; [|discriminate].
    pose proof (unhex_range _ _ Hc) as Hd.
    rewrite (parseDigits_cons "0" _ 0 None eq_refl ltac:(lia)).
    rewrite (parseDigits_cons c _ d (Some 0) Hc Hd).
    rewrite (parseDigits_cons c _ d None Hc Hd) in V.
    cbn [JS.parseDigits] in *. inversion V; subst. reflexivity.
  - cbn [String.length Nat.sub JS.repeat_char String.append].
    rewrite parseInt_all_hex; [|exact A|discriminate].
    rewrite V. reflexivity.
Qed.

Lemma intToHex_negative n :
  n < 0 -> exists s, intToHex (Some (JS.Num n)) = String "-" s.
Proof.
  intros Hn. unfold intToHex, JS.toString16.
  destruct (Z.ltb_spec n 0) as [_|]; [|lia].
  pose proof (toHexDigits_length (Z.to_nat (Z.log2 (- n))) (- n) EmptyString) as L.
  cbn [String.length] in L. unfold JS.padStart. cbn [String.length].
  replace (2 - S (String.length
                    (JS.toHexDigits (S (Z.to_nat (Z.log2 (- n)))) (- n) "")))%nat
    with 0%nat by lia.
  eexists. reflexivity.
Qed.

End IntToHex.

(** C9, as the code has it.  For every integer from 0 to 255, [intToHex]
    yields exactly the two lower-case hexadecimal digits of the value
    (so the first one is a zero digit when the value is below 16).
    Nothing is clamped: every non-negative integer is written out in
    full, so that [parseInt] reads the very same value back, and a
    negative one keeps its sign. *)
Theorem intToHex_byte :
  (forall n, 0 <= n <= 255 ->
     intToHex (Some (JS.Num n)) = byte_hex n /\
     String.length (intToHex (Some (JS.Num n))) = 2%nat /\
     all_hex (intToHex (Some (JS.Num n))) = true /\
     (n < 16 -> String.get 0 (intToHex (Some (JS.Num n))) = Some "0"%char)) /\
  (forall n, 0 <= n -> JS.parseInt (intToHex (Some (JS.Num n))) 16 = JS.Num n) /\
  (forall n, n < 0 -> exists s, intToHex (Some (JS.Num n)) = String "-" s).
Proof.
  split; [|split; [exact parseInt_toString16 | exact intToHex_negative]].
  intros n Hn.
  assert (Hb : is_byte n) by (unfold is_byte; lia).
  assert (E : intToHex (Some (JS.Num n)) = byte_hex n).
  { apply String.eqb_eq.
    exact (forall_byte
      (fun n => String.eqb (intToHex (Some (JS.Num n))) (byte_hex n))
      ltac:(vm_compute; reflexivity) n Hb). }
  rewrite E. split; [reflexivity|]. split; [reflexivity|].
  destruct (byte_digits n Hb) as [H1 H2].
  split.
  - unfold byte_hex. cbn [all_hex].
    rewrite (unhex_hexDigit _ H1), (unhex_hexDigit _ H2). reflexivity.
  - intros Hlt. unfold byte_hex. cbn [String.get].
    rewrite Z.div_small by lia. reflexivity.
Qed.

Lemma intToHex_byte_witness :
  0 <= 10 <= 255 /\ intToHex (Some (JS.Num 10)) = "0a"%string /\
  JS.parseInt (intToHex (Some (JS.Num 4096))) 16 = JS.Num 4096.
Proof.
  destruct intToHex_byte as (B & P & _).
  split; [lia|]. split.
  - destruct (B 10 ltac:(lia)) as [E _]. rewrite E. reflexivity.
  - apply P. lia.
Defined.

(** C9 as stated fails: 256 is not clamped to 255 and does not fit two
    characters, and a negative value keeps its sign. *)
Lemma intToHex_not_clamped :
  intToHex (Some (JS.Num 256)) = "100"%string /\
  String.length (intToHex (Some (JS.Num 256))) = 3%nat /\
  intToHex (Some (JS.Num 255)) = "ff"%string /\
  intToHex (Some (JS.Num (-1))) = "-1"%string /\
  intToHex (Some (JS.Num 0)) = "00"%string.
Proof. repeat split. Qed.

(* ===================================================================== *)
(** ** Decoding the status                                                *)
(* ===================================================================== *)

Section Decode.

Variable UNKNOWN_MODE : Z.

Lemma power_flag_byte b :
  is_byte b -> String.eqb (byte_hex b) "01" = (b =? 1).
Proof.
  intros Hb.
  pose proof (forall_byte
    (fun b => Bool.eqb (String.eqb (byte_hex b) "01") (b =? 1))
    ltac:(vm_compute; reflexivity) b Hb) as H.
  cbv beta in H. apply Bool.eqb_prop in H. exact H.
Qed.

(** Names the 17 bytes of a well-formed status. *)
Ltac explode_status buf H :=
  let Hlen := fresh "Hlen" in
  let Hall := fresh "Hall" in
  destruct H as [Hlen Hall];
  do 17 (destruct buf as [|? buf]; [discriminate Hlen|]);
  (destruct buf; [|discriminate Hlen]);
  repeat match goal with
         | K : Forall _ (_ :: _) |- _ => inversion K; subst; clear K
         end.

Ltac read_bytes :=
  cbn [JS.Buffer_toString_hex JS.substring String.substring
       Nat.min Nat.max Nat.sub];
  repeat match goal with
         | |- context [String (JS.hexDigit (?h / 16))
                         (String (JS.hexDigit (?h mod 16))
                            (String (JS.hexDigit (?l / 16))
                               (String (JS.hexDigit (?l mod 16)) EmptyString)))] =>
             change (String (JS.hexDigit (h / 16))
                       (String (JS.hexDigit (h mod 16))
                          (String (JS.hexDigit (l / 16))
                             (String (JS.hexDigit (l mod 16)) EmptyString))))
               with (byte_hex h ++ byte_hex l)%string
         end;
  repeat match goal with
         | |- context [String (JS.hexDigit (?b / 16))
                         (String (JS.hexDigit (?b mod 16)) EmptyString)] =>
             change (String (JS.hexDigit (b / 16))
                       (String (JS.hexDigit (b mod 16)) EmptyString))
               with (byte_hex b)
         end.

(** Every field of the status decoded from 17 bytes is the byte (or the
    two bytes, high first) at its offset. *)
Lemma decodeStatus_fields buf :
  well_formed_status buf ->
  let s := decodeStatus UNKNOWN_MODE (JS.Buffer_toString_hex buf) in
  let b i := nth i buf 0 in
  sp108eStatus.on s = (b 1%nat =? 1) /\
  sp108eStatus.animationMode s =
    (if 180 <? b 2%nat then JS.Num (b 2%nat) else JS.Num UNKNOWN_MODE) /\
  sp108eStatus.presetEffectMode s =
    (if b 2%nat <? 180 then JS.Num (b 2%nat) else JS.Num UNKNOWN_MODE) /\
  sp108eStatus.animationSpeed s = JS.Num (b 3%nat) /\
  sp108eStatus.brightness s = JS.Num (b 4%nat) /\
  sp108eStatus.colorOrder s = JS.Num (b 5%nat) /\
  sp108eStatus.ledsPerSegment s = JS.Num (256 * b 6%nat + b 7%nat) /\
  sp108eStatus.numberOfSegments s = JS.Num (256 * b 8%nat + b 9%nat) /\
  sp108eStatus.color s =
    JS.Buffer_toString_hex [b 10%nat; b 11%nat; b 12%nat] /\
  sp108eStatus.icType s = JS.Num (b 13%nat) /\
  sp108eStatus.recordedPatterns s = JS.Num (b 14%nat) /\
  sp108eStatus.whiteBrightness s = JS.Num (b 15%nat).
Proof.
  intros H. explode_status buf H.
  cbv zeta. cbn [nth]. unfold decodeStatus.
  cbn [sp108eStatus.on sp108eStatus.animationMode
       sp108eStatus.presetEffectMode sp108eStatus.animationSpeed
       sp108eStatus.brightness sp108eStatus.colorOrder
       sp108eStatus.ledsPerSegment sp108eStatus.numberOfSegments
       sp108eStatus.color sp108eStatus.icType
       sp108eStatus.recordedPatterns sp108eStatus.whiteBrightness].
  read_bytes.
  rewrite !parseInt_byte_hex, !parseInt_two_bytes, power_flag_byte
    by assumption.
  cbn [JS.gt JS.lt].
  repeat split; reflexivity.
Qed.

End Decode.

(** C2, as the code has it.  For every 17-byte status with classification
    byte [b]: above 180 the byte is the animation mode and the preset
    effect mode is the sentinel; below 180 the byte is the preset effect
    mode and the animation mode is the sentinel; at 180 both fields are
    the sentinel.  So, for a byte other than 180 (and other than the
    sentinel's own value), exactly one field is known. *)
Theorem status_mode_classification (UNKNOWN_MODE : Z) (buf : list Z) :
  well_formed_status buf ->
  let b := nth 2 buf 0 in
  let s := decodeStatus UNKNOWN_MODE (JS.Buffer_toString_hex buf) in
  (180 < b ->
   sp108eStatus.animationMode s = JS.Num b /\
   sp108eStatus.presetEffectMode s = JS.Num UNKNOWN_MODE) /\
  (b < 180 ->
   sp108eStatus.presetEffectMode s = JS.Num b /\
   sp108eStatus.animationMode s = JS.Num UNKNOWN_MODE) /\
  (b = 180 ->
   sp108eStatus.animationMode s = JS.Num UNKNOWN_MODE /\
   sp108eStatus.presetEffectMode s = JS.Num UNKNOWN_MODE) /\
  (b <> 180 -> b <> UNKNOWN_MODE -> exactly_one_known UNKNOWN_MODE s).
Proof.
  intros H b s.
  destruct (decodeStatus_fields UNKNOWN_MODE buf H) as (_ & Ha & Hp & _).
  fold s in Ha, Hp. fold b in Ha, Hp.
  assert (Hne : b <> UNKNOWN_MODE -> JS.Num b <> JS.Num UNKNOWN_MODE)
    by (intros Hb E; inversion E; contradiction).
  unfold exactly_one_known, known.
  destruct (Z.ltb_spec 180 b) as [G|G], (Z.ltb_spec b 180) as [L|L];
    try lia; rewrite Ha, Hp; repeat split; try lia; try reflexivity.
  - intros _ Hb. left. split; [auto | intros K; apply K; reflexivity].
  - intros _ Hb. right. split; [intros K; apply K; reflexivity | auto].
Qed.

(** The two examples of the specification: bytes 200 and 50. *)
Lemma status_mode_classification_witness :
  well_formed_status (status_bytes 1 200) /\
  well_formed_status (status_bytes 1 50) /\
  (let s := decodeStatus (-1) (JS.Buffer_toString_hex (status_bytes 1 200)) in
   sp108eStatus.animationMode s = JS.Num 200 /\
   sp108eStatus.presetEffectMode s = JS.Num (-1)) /\
  (let s := decodeStatus (-1) (JS.Buffer_toString_hex (status_bytes 1 50)) in
   sp108eStatus.presetEffectMode s = JS.Num 50 /\
   sp108eStatus.animationMode s = JS.Num (-1)).
Proof.
  assert (W : forall m, is_byte m -> well_formed_status (status_bytes 1 m)).
  { intros m Hm. split; [reflexivity|].
    unfold status_bytes.
    repeat (constructor; [first [exact Hm | unfold is_byte; lia]|]).
    constructor. }
  assert (W200 : well_formed_status (status_bytes 1 200))
    by (apply W; unfold is_byte; lia).
  assert (W50 : well_formed_status (status_bytes 1 50))
    by (apply W; unfold is_byte; lia).
  split; [exact W200|]. split; [exact W50|]. split.
  - destruct (status_mode_classification (-1) _ W200) as (Hi & _).
    apply Hi. simpl. lia.
  - destruct (status_mode_classification (-1) _ W50) as (_ & Lo & _).
    apply Lo. simpl. lia.
Defined.

(** C2 as stated fails at the byte 180: it is not above 180, yet it is
    not taken as the preset effect mode either; whatever the sentinel is,
    neither field is known. *)
Lemma status_byte_180_unclassified :
  well_formed_status (status_bytes 1 180) /\
  ~ exists UNKNOWN_MODE,
      exactly_one_known UNKNOWN_MODE
        (decodeStatus UNKNOWN_MODE (JS.Buffer_toString_hex (status_bytes 1 180))).
Proof.
  split.
  - split; [reflexivity|].
    unfold status_bytes. repeat (constructor; [unfold is_byte; lia|]).
    constructor.
  - intros (u & [(K & _) | (_ & K)]); apply K; reflexivity.
Qed.

(* ===================================================================== *)
(** ** One attempt, the retry loop, [send]                                *)
(* ===================================================================== *)

Section Footprint.

Lemma io_only_refl w : io_only w w [] 0.
Proof. unfold io_only. rewrite app_nil_r, Nat.add_0_r. auto. Qed.

Lemma io_only_trans w1 w2 w3 e1 e2 k1 k2 :
  io_only w1 w2 e1 k1 -> io_only w2 w3 e2 k2 ->
  io_only w1 w3 (e1 ++ e2) (k1 + k2).
Proof.
  intros (A1 & A2 & A3 & A4 & A5) (B1 & B2 & B3 & B4 & B5).
  unfold io_only. rewrite B1, A1, B2, A2, B3, A3, B4, A4, B5, A5.
  rewrite app_assoc, Nat.add_assoc. auto.
Qed.

Lemma new_events_io_only w w' evs k : io_only w w' evs k -> new_events w w' = evs.
Proof.
  intros (E & _). unfold new_events. rewrite E.
  rewrite skipn_app, skipn_all, Nat.sub_diag. reflexivity.
Qed.

Lemma emit_io e w : io_only w (snd (emit e w)) [e] 0.
Proof. unfold io_only, emit. cbn. rewrite Nat.add_0_r. auto. Qed.

Lemma delays_app a b : delays (a ++ b) = delays a ++ delays b.
Proof.
  induction a as [|e a IH]; [reflexivity|].
  destruct e; cbn; rewrite ?IH; reflexivity.
Qed.

Lemma submitted_app a b : submitted (a ++ b) = submitted a ++ submitted b.
Proof.
  induction a as [|e a IH]; [reflexivity|].
  destruct e; cbn; rewrite ?IH; reflexivity.
Qed.

Lemma attempt_event_quiet cmd p n evs :
  Forall (attempt_event cmd p n) evs -> delays evs = [] /\ submitted evs = [].
Proof.
  induction 1 as [|e evs He _ [IH1 IH2]]; [split; reflexivity|].
  destruct e; cbn in *; try contradiction; auto.
Qed.

Lemma send_event_quiet cmd p n evs :
  Forall (send_event cmd p n) evs -> submitted evs = [].
Proof.
  induction 1 as [|e evs He _ IH]; [reflexivity|].
  destruct e; cbn in *; try contradiction; auto.
Qed.

Lemma attempt_send_event cmd p n evs :
  Forall (attempt_event cmd p n) evs -> Forall (send_event cmd p n) evs.
Proof.
  apply Forall_impl. intros e He. destruct e; cbn in *; auto.
Qed.

(** One attempt counts as one, logs only its own input and output, and
    touches neither the oracle nor the objects. *)
Lemma attemptExecute_io cmd p n w :
  exists evs,
    io_only w (snd (attemptExecute cmd p n w)) evs 1 /\
    Forall (attempt_event cmd p n) evs.
Proof.
  destruct w as [env0 att0 conn cl hp nx evs0].
  unfold io_only.
  cbv beta iota zeta delta
    [attemptExecute bind try_catch next_attempt on_close ensureConnected
     client_write race_read _forceDisconnect sleep set_socket emit throw
     ret env attempts _connected _client heap next events fst snd].
  destruct (env0 att0) as [pc ci wi ri].
  cbv beta iota delta [peer_closed io_connect io_write io_read].
  destruct pc, conn, cl, ci, wi, ri, (0 <? n) eqn:En;
    cbv beta iota zeta delta [andb negb fst snd events attempts env heap next];
    repeat rewrite <- app_assoc; cbn [app];
    (eexists; split;
     [ split; [reflexivity | split; [symmetry; apply Nat.add_1_r | auto]]
     | repeat constructor ]).
Qed.

Lemma retry_loop_fuel att :
  forall f f' a e w,
    (Z.to_nat (SEND_MAX_RETRIES + 1 - a) <= f)%nat ->
    (Z.to_nat (SEND_MAX_RETRIES + 1 - a) <= f')%nat ->
    retry_loop att f a e w = retry_loop att f' a e w.
Proof.
  unfold SEND_MAX_RETRIES.
  induction f as [|f IH]; intros [|f'] a e w Hf Hf'; cbn [retry_loop];
    try reflexivity; unfold SEND_MAX_RETRIES.
  - destruct (Z.leb_spec a 3); [lia | reflexivity].
  - destruct (Z.leb_spec a 3); [lia | reflexivity].
  - destruct (Z.leb_spec a 3); [|reflexivity].
    unfold try_catch. destruct (att w) as [[v|err] w1]; [reflexivity|].
    destruct (Z.ltb_spec a 3); [|reflexivity].
    unfold bind. destruct (delay _ w1) as [[[]|e1] w2]; [|reflexivity].
    apply IH; lia.
Qed.

(** The loop, written out: at most four attempts, a delay of 200, 400
    and 800 ms before the second, third and fourth. *)
Lemma executeWithRetries_unroll att w :
  executeWithRetries att w =
  match att w with
  | (Ok v, w1) => (Ok v, w1)
  | (Throw _, w1) =>
      match att (snd (delay 200 w1)) with
      | (Ok v, w2) => (Ok v, w2)
      | (Throw _, w2) =>
          match att (snd (delay 400 w2)) with
          | (Ok v, w3) => (Ok v, w3)
          | (Throw _, w3) => att (snd (delay 800 w3))
          end
      end
  end.
Proof.
  unfold executeWithRetries, SEND_MAX_RETRIES, SEND_BASE_DELAY_MS.
  change (Z.to_nat 3) with 3%nat.
  cbn [retry_loop]. unfold SEND_MAX_RETRIES, SEND_BASE_DELAY_MS.
  unfold try_catch, bind, delay, emit, throw. cbn.
  destruct (att w) as [[v|e1] w1]; [reflexivity|].
  destruct (att _) as [[v|e2] w2]; [reflexivity|].
  destruct (att _) as [[v|e3] w3]; [reflexivity|].
  destruct (att _) as [[v|e4] w4]; reflexivity.
Qed.

End Footprint.

Section SendRun.

Lemma io_only_eq w w' evs evs' k k' :
  io_only w w' evs k -> evs = evs' -> k = k' -> io_only w w' evs' k'.
Proof. intros H -> ->. exact H. Qed.

Lemma delay_io ms w : io_only w (snd (delay ms w)) [EvDelay ms] 0.
Proof. apply emit_io. Qed.

Lemma Forall_send_event_glue cmd p n a ms b :
  Forall (send_event cmd p n) a -> Forall (attempt_event cmd p n) b ->
  Forall (send_event cmd p n) (a ++ EvDelay ms :: b).
Proof.
  intros Ha Hb. apply Forall_app. split; [exact Ha|].
  constructor; [exact I | apply attempt_send_event; exact Hb].
Qed.

Lemma delays_send_glue cmd p n a ms b :
  Forall (attempt_event cmd p n) b ->
  delays (a ++ EvDelay ms :: b) = delays a ++ [ms].
Proof.
  intros Hb. rewrite delays_app. cbn [delays].
  destruct (attempt_event_quiet _ _ _ _ Hb) as [-> _]. reflexivity.
Qed.

(** Everything about one call of [send]: the number [k] of attempts, the
    events, the delays, and the attempt whose outcome is the outcome of
    the call (it starts in [wl], after [k - 1] failed attempts). *)
Ltac split7 := split; [|split; [|split; [|split; [|split; [|split]]]]].

Lemma send_run cmd p n w :
  exists (k : nat) (evs : list event) (wl : World),
    (1 <= k <= 4)%nat /\
    io_only w (snd (send cmd p n w)) (EvSubmit cmd p n :: evs) k /\
    Forall (send_event cmd p n) evs /\
    delays evs = firstn (k - 1) [200; 400; 800] /\
    attempts wl = (attempts w + (k - 1))%nat /\
    attemptExecute cmd p n wl = send cmd p n w /\
    (forall e, fst (send cmd p n w) = Throw e -> k = 4%nat).
Proof.
  unfold send, bind.
  pose proof (emit_io (EvSubmit cmd p n) w) as I0.
  destruct (emit (EvSubmit cmd p n) w) as [[[]|e0] w0] eqn:E0;
    [|unfold emit in E0; discriminate].
  cbn [snd] in I0.
  rewrite executeWithRetries_unroll.
  set (A := attemptExecute cmd p n).
  (* first attempt *)
  destruct (attemptExecute_io cmd p n w0) as (e1 & I1 & F1). fold A in I1.
  pose proof (attempt_event_quiet _ _ _ _ F1) as [D1 _].
  destruct (A w0) as [[v1|x1] w1] eqn:E1; cbn [snd] in I1.
  { exists 1%nat, e1, w0. split7; [lia| | | | | |].
    - eapply io_only_eq; [exact (io_only_trans _ _ _ _ _ _ _ I0 I1) | |];
        reflexivity.
    - apply attempt_send_event; exact F1.
    - exact D1.
    - destruct I0 as (_ & -> & _). lia.
    - exact E1.
    - intros e He. discriminate He. }
  (* second attempt *)
  pose proof (delay_io 200 w1) as J1.
  destruct (attemptExecute_io cmd p n (snd (delay 200 w1))) as (e2 & I2 & F2).
  fold A in I2.
  destruct (A (snd (delay 200 w1))) as [[v2|x2] w2] eqn:E2; cbn [snd] in I2.
  { exists 2%nat, (e1 ++ EvDelay 200 :: e2), (snd (delay 200 w1)).
    split7; [lia| | | | | |].
    - eapply io_only_eq;
        [exact (io_only_trans _ _ _ _ _ _ _
                  (io_only_trans _ _ _ _ _ _ _
                     (io_only_trans _ _ _ _ _ _ _ I0 I1) J1) I2) | |].
      + cbn [app]. rewrite <- app_assoc. reflexivity.
      + reflexivity.
    - apply Forall_send_event_glue; [apply attempt_send_event|]; assumption.
    - rewrite (delays_send_glue cmd p n) by assumption. rewrite D1. reflexivity.
    - destruct I0 as (_ & T0 & _), I1 as (_ & T1 & _), J1 as (_ & T2 & _).
      rewrite T2, T1, T0. lia.
    - exact E2.
    - intros e He. discriminate He. }
  (* third attempt *)
  pose proof (delay_io 400 w2) as J2.
  destruct (attemptExecute_io cmd p n (snd (delay 400 w2))) as (e3 & I3 & F3).
  fold A in I3.
  destruct (A (snd (delay 400 w2))) as [[v3|x3] w3] eqn:E3; cbn [snd] in I3.
  { exists 3%nat, ((e1 ++ EvDelay 200 :: e2) ++ EvDelay 400 :: e3),
      (snd (delay 400 w2)).
    split7; [lia| | | | | |].
    - eapply io_only_eq;
        [exact (io_only_trans _ _ _ _ _ _ _
                  (io_only_trans _ _ _ _ _ _ _
                     (io_only_trans _ _ _ _ _ _ _
                        (io_only_trans _ _ _ _ _ _ _
                           (io_only_trans _ _ _ _ _ _ _ I0 I1) J1) I2) J2) I3)
        | |].
      + cbn [app]. repeat rewrite <- app_assoc. reflexivity.
      + reflexivity.
    - apply Forall_send_event_glue; [|assumption].
      apply Forall_send_event_glue; [apply attempt_send_event|]; assumption.
    - rewrite !(delays_send_glue cmd p n) by assumption. rewrite D1. reflexivity.
    - destruct I0 as (_ & T0 & _), I1 as (_ & T1 & _), J1 as (_ & T2 & _),
        I2 as (_ & T3 & _), J2 as (_ & T4 & _).
      rewrite T4, T3, T2, T1, T0. lia.
    - exact E3.
    - intros e He. discriminate He. }
  (* fourth attempt: its outcome, whatever it is, is the outcome *)
  pose proof (delay_io 800 w3) as J3.
  destruct (attemptExecute_io cmd p n (snd (delay 800 w3))) as (e4 & I4 & F4).
  fold A in I4.
  exists 4%nat,
    (((e1 ++ EvDelay 200 :: e2) ++ EvDelay 400 :: e3) ++ EvDelay 800 :: e4),
    (snd (delay 800 w3)).
  split7; [lia| | | | | |].
  - eapply io_only_eq;
      [exact (io_only_trans _ _ _ _ _ _ _
                (io_only_trans _ _ _ _ _ _ _
                   (io_only_trans _ _ _ _ _ _ _
                      (io_only_trans _ _ _ _ _ _ _
                         (io_only_trans _ _ _ _ _ _ _
                            (io_only_trans _ _ _ _ _ _ _
                               (io_only_trans _ _ _ _ _ _ _ I0 I1) J1) I2) J2)
                         I3) J3) I4)
      | |].
    + cbn [app]. repeat rewrite <- app_assoc. reflexivity.
    + reflexivity.
  - apply Forall_send_event_glue; [|assumption].
    apply Forall_send_event_glue; [|assumption].
    apply Forall_send_event_glue; [apply attempt_send_event|]; assumption.
  - rewrite !(delays_send_glue cmd p n) by assumption. rewrite D1. reflexivity.
  - destruct I0 as (_ & T0 & _), I1 as (_ & T1 & _), J1 as (_ & T2 & _),
      I2 as (_ & T3 & _), J2 as (_ & T4 & _), I3 as (_ & T5 & _),
      J3 as (_ & T6 & _).
    rewrite T6, T5, T4, T3, T2, T1, T0. lia.
  - reflexivity.
  - intros e _. reflexivity.
Qed.

(** What callers need of it: one command submitted, objects untouched. *)
Lemma send_footprint cmd p n w :
  exists evs k,
    io_only w (snd (send cmd p n w)) (EvSubmit cmd p n :: evs) k /\
    submitted (EvSubmit cmd p n :: evs) = [(cmd, p, n)].
Proof.
  destruct (send_run cmd p n w) as (k & evs & _ & _ & I & F & _).
  exists evs, k. split; [exact I|].
  cbn [submitted]. rewrite (send_event_quiet _ _ _ _ F). reflexivity.
Qed.

End SendRun.

(** C3.  Every call of [send] makes at least one and at most four
    attempts.  The delays it takes are, in order, the first [k - 1] of
    200, 400 and 800 ms for [k] attempts made, the delay before retry [i]
    being 200 * 2^i.  The outcome of the call is the outcome of its last
    attempt; when the call fails, four attempts were made, and the error
    is the one the fourth attempt threw: nothing happens after it. *)
Theorem send_retry_policy cmd parameter responseLength w :
  let r := fst (send cmd parameter responseLength w) in
  let w' := snd (send cmd parameter responseLength w) in
  let made := (attempts w' - attempts w)%nat in
  let waits := delays (new_events w w') in
  (1 <= made <= 4)%nat /\
  waits = firstn (made - 1) [200; 400; 800] /\
  (forall i, (i < made - 1)%nat ->
             nth i waits 0 = SEND_BASE_DELAY_MS * 2 ^ Z.of_nat i) /\
  (exists wl, attempts wl = (attempts w + (made - 1))%nat /\
              attemptExecute cmd parameter responseLength wl = (r, w')) /\
  (forall e, r = Throw e -> made = 4%nat).
Proof.
  intros r w' made waits.
  destruct (send_run cmd parameter responseLength w)
    as (k & evs & wl & Hk & I & F & D & Hl & Hlast & Hfail).
  fold w' in I.
  assert (Hmade : made = k).
  { unfold made. destruct I as (_ & -> & _). lia. }
  assert (Hwaits : waits = firstn (k - 1) [200; 400; 800]).
  { unfold waits. rewrite (new_events_io_only _ _ _ _ I). cbn [delays]. exact D. }
  rewrite Hmade. split; [exact Hk|]. split; [exact Hwaits|].
  split; [|split].
  - intros i Hi. rewrite Hwaits. unfold SEND_BASE_DELAY_MS.
    destruct k as [|[|[|[|[|k]]]]]; try lia;
      destruct i as [|[|[|i]]]; try lia; reflexivity.
  - exists wl. split; [exact Hl|]. rewrite Hlast. unfold r, w'.
    destruct (send cmd parameter responseLength w); reflexivity.
  - exact Hfail.
Qed.

Lemma send_retry_policy_witness :
  let w := steady_world (mkIO false (ConnectError (SocketError 1)) None ReadUndefined) in
  let w' := snd (send CMD_TOGGLE NO_PARAMETER 17 w) in
  fst (send CMD_TOGGLE NO_PARAMETER 17 w) = Throw (SocketError 1) /\
  attempts w' = 4%nat /\
  delays (new_events w w') = [200; 400; 800].
Proof.
  intros w w'.
  assert (F : fst (send CMD_TOGGLE NO_PARAMETER 17 w) = Throw (SocketError 1))
    by reflexivity.
  destruct (send_retry_policy CMD_TOGGLE NO_PARAMETER 17 w)
    as (_ & Hwaits & _ & _ & Hfail).
  pose proof (Hfail _ F) as H4. fold w' in H4, Hwaits.
  split; [exact F|]. split.
  - change (attempts w) with 0%nat in H4. lia.
  - rewrite Hwaits, H4. reflexivity.
Defined.

(* ===================================================================== *)
(** ** The operations of the client                                       *)
(* ===================================================================== *)

Section Operations.

Variable UNKNOWN_MODE : Z.
Variable ANIMATION_MODE_STATIC : Z.

Lemma extends_refl w : extends w w [].
Proof. unfold extends. rewrite app_nil_r. auto. Qed.

Lemma extends_trans w1 w2 w3 e1 e2 :
  extends w1 w2 e1 -> extends w2 w3 e2 -> extends w1 w3 (e1 ++ e2).
Proof.
  intros (A1 & A2 & A3 & A4) (B1 & B2 & B3 & B4). unfold extends.
  rewrite B1, A1, B2, A2, app_assoc.
  repeat split; [lia|]. intros r Hr. rewrite B4 by lia. apply A4. exact Hr.
Qed.

Lemma io_only_extends w w' evs k : io_only w w' evs k -> extends w w' evs.
Proof.
  intros (A1 & _ & A3 & A4 & A5). unfold extends.
  rewrite A1, A3, A4, A5. auto.
Qed.

Lemma new_events_extends w w' evs : extends w w' evs -> new_events w w' = evs.
Proof.
  intros (E & _). unfold new_events. rewrite E.
  rewrite skipn_app, skipn_all, Nat.sub_diag. reflexivity.
Qed.

Lemma send_extends cmd p n w :
  exists evs, extends w (snd (send cmd p n w)) evs /\
              submitted evs = [(cmd, p, n)].
Proof.
  destruct (send_footprint cmd p n w) as (evs & k & I & S).
  exists (EvSubmit cmd p n :: evs). split; [|exact S].
  eapply io_only_extends. exact I.
Qed.

Lemma alloc_extends s w : extends w (snd (alloc s w)) [].
Proof.
  unfold extends, alloc. cbn. rewrite app_nil_r.
  repeat split; [lia|]. intros r Hr.
  destruct (Nat.eqb_spec r (next w)); [lia | reflexivity].
Qed.

Lemma getStatus_ok w response w1 :
  send CMD_GET_STATUS NO_PARAMETER 17 w = (Ok response, w1) ->
  getStatus UNKNOWN_MODE w = alloc (decodeStatus UNKNOWN_MODE response) w1.
Proof. intros H. unfold getStatus, bind. rewrite H. reflexivity. Qed.

Lemma getStatus_throw w e w1 :
  send CMD_GET_STATUS NO_PARAMETER 17 w = (Throw e, w1) ->
  getStatus UNKNOWN_MODE w = (Throw e, w1).
Proof. intros H. unfold getStatus, bind. rewrite H. reflexivity. Qed.

(** A status that was read is a new object holding the decoded response. *)
Lemma getStatus_inv w status w' :
  getStatus UNKNOWN_MODE w = (Ok status, w') ->
  exists response w1,
    send CMD_GET_STATUS NO_PARAMETER 17 w = (Ok response, w1) /\
    status = next w1 /\ next w1 = next w /\
    w' = snd (alloc (decodeStatus UNKNOWN_MODE response) w1) /\
    heap w' status = decodeStatus UNKNOWN_MODE response.
Proof.
  intros H.
  destruct (send_footprint CMD_GET_STATUS NO_PARAMETER 17 w)
    as (evs & k & (_ & _ & _ & _ & Hn) & _).
  destruct (send CMD_GET_STATUS NO_PARAMETER 17 w) as [[response|e] w1] eqn:E.
  - rewrite (getStatus_ok _ _ _ E) in H. unfold alloc in H.
    inversion H; subst. exists response, w1. cbn in *.
    rewrite Nat.eqb_refl. auto.
  - rewrite (getStatus_throw _ _ _ E) in H. discriminate.
Qed.

Lemma getStatus_extends w :
  exists evs, extends w (snd (getStatus UNKNOWN_MODE w)) evs /\
              submitted evs = [status_command].
Proof.
  destruct (send_extends CMD_GET_STATUS NO_PARAMETER 17 w) as (evs & X & S).
  exists evs. split; [|exact S].
  destruct (send CMD_GET_STATUS NO_PARAMETER 17 w) as [[response|e] w1] eqn:E.
  - rewrite (getStatus_ok _ _ _ E). cbn [snd] in X.
    rewrite <- (app_nil_r evs).
    eapply extends_trans; [exact X | apply alloc_extends].
  - rewrite (getStatus_throw _ _ _ E). exact X.
Qed.

Lemma toggleOnOff_extends w :
  exists evs, extends w (snd (toggleOnOff w)) evs /\
              submitted evs = [toggle_command].
Proof. apply send_extends. Qed.

(** [on] and [off], case by case. *)
Lemma on_cases w :
  match getStatus UNKNOWN_MODE w with
  | (Throw e, w1) => on UNKNOWN_MODE w = (Throw e, w1)
  | (Ok status, w1) =>
      if sp108eStatus.on (heap w1 status)
      then on UNKNOWN_MODE w = (Ok None, w1)
      else snd (on UNKNOWN_MODE w) = snd (toggleOnOff w1)
  end.
Proof.
  unfold on, bind, deref, ret.
  destruct (getStatus UNKNOWN_MODE w) as [[status|e] w1]; [|reflexivity].
  destruct (sp108eStatus.on (heap w1 status)); cbn [negb]; [reflexivity|].
  destruct (toggleOnOff w1) as [[r|e] w2]; reflexivity.
Qed.

Lemma off_cases w :
  match getStatus UNKNOWN_MODE w with
  | (Throw e, w1) => off UNKNOWN_MODE w = (Throw e, w1)
  | (Ok status, w1) =>
      if sp108eStatus.on (heap w1 status)
      then snd (off UNKNOWN_MODE w) = snd (toggleOnOff w1)
      else off UNKNOWN_MODE w = (Ok None, w1)
  end.
Proof.
  unfold off, bind, deref, ret.
  destruct (getStatus UNKNOWN_MODE w) as [[status|e] w1]; [|reflexivity].
  destruct (sp108eStatus.on (heap w1 status)); [|reflexivity].
  destruct (toggleOnOff w1) as [[r|e] w2]; reflexivity.
Qed.

(** The commands [on] submits. *)
Lemma on_submitted w :
  exists evs,
    extends w (snd (on UNKNOWN_MODE w)) evs /\
    submitted evs =
      match getStatus UNKNOWN_MODE w with
      | (Throw _, _) => [status_command]
      | (Ok status, w1) =>
          status_command ::
          (if sp108eStatus.on (heap w1 status) then [] else [toggle_command])
      end.
Proof.
  pose proof (on_cases w) as K.
  destruct (getStatus_extends w) as (e1 & X1 & S1).
  destruct (getStatus UNKNOWN_MODE w) as [[status|e] w1]; cbn [snd] in X1.
  - destruct (sp108eStatus.on (heap w1 status)).
    + rewrite K. exists e1. auto.
    + rewrite K. destruct (toggleOnOff_extends w1) as (e2 & X2 & S2).
      exists (e1 ++ e2). split; [eapply extends_trans; eassumption|].
      rewrite submitted_app, S1, S2. reflexivity.
  - rewrite K. exists e1. auto.
Qed.

Lemma off_submitted w :
  exists evs,
    extends w (snd (off UNKNOWN_MODE w)) evs /\
    submitted evs =
      match getStatus UNKNOWN_MODE w with
      | (Throw _, _) => [status_command]
      | (Ok status, w1) =>
          status_command ::
          (if sp108eStatus.on (heap w1 status) then [toggle_command] else [])
      end.
Proof.
  pose proof (off_cases w) as K.
  destruct (getStatus_extends w) as (e1 & X1 & S1).
  destruct (getStatus UNKNOWN_MODE w) as [[status|e] w1]; cbn [snd] in X1.
  - destruct (sp108eStatus.on (heap w1 status)).
    + rewrite K. destruct (toggleOnOff_extends w1) as (e2 & X2 & S2).
      exists (e1 ++ e2). split; [eapply extends_trans; eassumption|].
      rewrite submitted_app, S1, S2. reflexivity.
    + rewrite K. exists e1. auto.
  - rewrite K. exists e1. auto.
Qed.

Lemma strict_eq_zero x : JS.strict_eq x (JS.Num 0) = true <-> x = JS.Num 0.
Proof.
  destruct x as [z|]; cbn; [|split; discriminate].
  rewrite Z.eqb_eq. split; [intros ->; reflexivity | intros E; inversion E; reflexivity].
Qed.

(** The commands [setColor] submits. *)
Lemma setColor_submitted hexColor w :
  exists evs,
    extends w (snd (setColor UNKNOWN_MODE ANIMATION_MODE_STATIC hexColor w)) evs /\
    submitted evs =
      match getStatus UNKNOWN_MODE w with
      | (Throw _, _) => [status_command]
      | (Ok status, w1) =>
          if JS.strict_eq (sp108eStatus.animationMode (heap w1 status)) (JS.Num 0)
          then
            match send CMD_SET_ANIMATION_MODE
                       (intToHex (Some (JS.Num ANIMATION_MODE_STATIC))) 0 w1 with
            | (Ok _, _) =>
                [status_command; static_mode_command ANIMATION_MODE_STATIC;
                 color_command hexColor]
            | (Throw _, _) =>
                [status_command; static_mode_command ANIMATION_MODE_STATIC]
            end
          else [status_command; color_command hexColor]
      end.
Proof.
  unfold setColor, bind, deref, ret.
  destruct (getStatus_extends w) as (e1 & X1 & S1).
  destruct (getStatus UNKNOWN_MODE w) as [[status|e] w1]; cbn [snd] in X1;
    [|exists e1; auto].
  destruct (JS.strict_eq (sp108eStatus.animationMode (heap w1 status)) (JS.Num 0)).
  - destruct (send_extends CMD_SET_ANIMATION_MODE
                (intToHex (Some (JS.Num ANIMATION_MODE_STATIC))) 0 w1)
      as (e2 & X2 & S2).
    destruct (send CMD_SET_ANIMATION_MODE _ 0 w1) as [[r|e] w2]; cbn [snd] in X2.
    + destruct (send_extends CMD_SET_COLOR hexColor 0 w2) as (e3 & X3 & S3).
      exists ((e1 ++ e2) ++ e3).
      split; [eapply extends_trans; [eapply extends_trans|]; eassumption|].
      rewrite !submitted_app, S1, S2, S3. reflexivity.
    + exists (e1 ++ e2). split; [eapply extends_trans; eassumption|].
      rewrite submitted_app, S1, S2. reflexivity.
  - destruct (send_extends CMD_SET_COLOR hexColor 0 w1) as (e3 & X3 & S3).
    exists (e1 ++ e3). split; [eapply extends_trans; eassumption|].
    rewrite submitted_app, S1, S3. reflexivity.
Qed.

(** No operation of the client changes an object that exists. *)
Lemma after_extends op w :
  exists evs, extends w (after UNKNOWN_MODE ANIMATION_MODE_STATIC op w) evs.
Proof.
  destruct op; cbn [after];
    try (unfold setSegments, setLedsPerSegment, toggleOnOff, setBrightness,
           setWhiteBrightness, setAnimationMode, setPresetMode,
           setAnimationSpeed;
         match goal with
         | |- context [send ?c ?p ?n w] =>
             destruct (send_extends c p n w) as (evs & X & _);
             exists evs; exact X
         end).
  - destruct (getStatus_extends w) as (evs & X & _). exists evs. exact X.
  - destruct (off_submitted w) as (evs & X & _). exists evs. exact X.
  - destruct (on_submitted w) as (evs & X & _). exists evs. exact X.
  - destruct (setColor_submitted hexColor w) as (evs & X & _).
    exists evs. exact X.
Qed.

End Operations.

(* ===================================================================== *)
(** ** The accessory and the status object it holds                       *)
(* ===================================================================== *)

Section AccessoryHeap.

Variable UNKNOWN_MODE : Z.
Variable ANIMATION_MODE_STATIC : Z.

Lemma update_heap d f w :
  let w' := snd (update d f w) in
  next w' = next w /\ events w' = events w /\ env w' = env w /\
  heap w' d = f (heap w d) /\
  (forall r, r <> d -> heap w' r = heap w r).
Proof.
  unfold update. cbn. rewrite Nat.eqb_refl. repeat split.
  intros r Hr. destruct (Nat.eqb_spec r d); [contradiction | reflexivity].
Qed.

Lemma setPresetModeOn_heap value a w d :
  deviceStatus a = Some d -> (d < next w)%nat ->
  let w' := snd (setPresetModeOn UNKNOWN_MODE ANIMATION_MODE_STATIC value a w) in
  (next w <= next w')%nat /\
  (forall r, (r < next w)%nat -> r <> d -> heap w' r = heap w r) /\
  (heap w' d = heap w d \/
   (value = true /\
    heap w' d =
      sp108eStatus.set_presetEffectMode (stored_preset UNKNOWN_MODE a (heap w d)) (heap w d))).
Proof.
  intros Hd Hlt.
  unfold setPresetModeOn, try_catch. rewrite Hd.
  cbv beta iota zeta delta [bind deref ret throw].
  destruct (value && negb (JS.strict_eq (sp108eStatus.presetEffectMode (heap w d))
                                        (JS.Num UNKNOWN_MODE))
            && same_bool (presetOn a) true).
  { cbn [snd]. auto. }
  destruct (negb value && JS.strict_eq (sp108eStatus.presetEffectMode (heap w d))
                                       (JS.Num UNKNOWN_MODE)
            && same_bool (presetOn a) false).
  { cbn [snd]. auto. }
  (* the device is switched on when the cached status says it is off *)
  match goal with
  | |- context [?t w] =>
      match t with
      | (if negb (sp108eStatus.on (heap w d)) then _ else _) => set (m := t w)
      end
  end.
  assert (S1 : exists evs, extends w (snd m) evs).
  { unfold m. destruct (sp108eStatus.on (heap w d)); cbn [negb].
    - exists []. apply extends_refl.
    - destruct (on_submitted UNKNOWN_MODE w) as (evs & X & _).
      exists evs. destruct (on UNKNOWN_MODE w) as [[r|e] w1]; exact X. }
  destruct S1 as (e1 & X1). destruct m as [o w1]. cbn [snd] in X1.
  destruct X1 as (_ & _ & N1 & H1).
  destruct o as [[]|e]; [|cbn [snd]; split; [exact N1 | split; [|left]]; auto].
  destruct value.
  - (* preset switched on: the object is written *)
    destruct (update_heap d
                (sp108eStatus.set_presetEffectMode (stored_preset UNKNOWN_MODE a (heap w1 d)))
                w1) as (U1 & _ & _ & U4 & U5).
    unfold stored_preset in U1, U4, U5 at 1.
    destruct (update d _ w1) as [[[]|e] w2] eqn:EU;
      [|unfold update in EU; discriminate].
    cbn [snd] in U1, U4, U5. cbn [presetEffectNumber].
    unfold detach.
    match goal with
    | |- context [setPresetMode ?x w2] =>
        destruct (after_extends UNKNOWN_MODE ANIMATION_MODE_STATIC
                    (OpSetPresetMode x) w2) as (e3 & (_ & _ & N3 & H3))
    end.
    cbn [after] in N3, H3. cbn [snd].
    split; [lia|]. split.
    + intros r Hr Hne. rewrite H3 by lia. rewrite U5 by exact Hne.
      apply H1. exact Hr.
    + right. split; [reflexivity|].
      rewrite H3 by lia. rewrite U4. rewrite (H1 d Hlt). reflexivity.
  - (* preset switched off: the device goes back to the static mode *)
    unfold detach.
    destruct (after_extends UNKNOWN_MODE ANIMATION_MODE_STATIC
                (OpSetAnimationMode (JS.Num ANIMATION_MODE_STATIC)) w1)
      as (e3 & (_ & _ & N3 & H3)).
    cbn [after] in N3, H3. cbn [snd].
    split; [lia|]. split.
    + intros r Hr Hne. rewrite H3 by lia. apply H1. exact Hr.
    + left. rewrite H3 by lia. apply H1. exact Hlt.
Qed.

(** The write, when the cached status says the device is on and its
    preset effect mode is the sentinel. *)
Lemma setPresetModeOn_writes a w d :
  deviceStatus a = Some d -> (d < next w)%nat ->
  sp108eStatus.on (heap w d) = true ->
  sp108eStatus.presetEffectMode (heap w d) = JS.Num UNKNOWN_MODE ->
  heap (snd (setPresetModeOn UNKNOWN_MODE ANIMATION_MODE_STATIC true a w)) d =
  sp108eStatus.set_presetEffectMode (presetEffectNumber a) (heap w d).
Proof.
  intros Hd Hlt Hon Hun.
  unfold setPresetModeOn, try_catch. rewrite Hd.
  cbv beta iota zeta delta [bind deref ret throw].
  rewrite Hun, Hon. cbn [JS.strict_eq]. rewrite Z.eqb_refl.
  cbn [negb andb].
  rewrite !Hun. cbn [JS.strict_eq]. rewrite !Z.eqb_refl. cbn [negb].
  destruct (update_heap d
              (sp108eStatus.set_presetEffectMode (presetEffectNumber a)) w)
    as (U1 & _ & _ & U4 & _).
  destruct (update d _ w) as [[[]|e] w2] eqn:EU;
    [|unfold update in EU; discriminate].
  cbn [snd] in U1, U4. cbn [presetEffectNumber]. unfold detach.
  destruct (after_extends UNKNOWN_MODE ANIMATION_MODE_STATIC
              (OpSetPresetMode (presetEffectNumber a)) w2)
    as (e3 & (_ & _ & _ & H3)).
  cbn [after] in H3. cbn [snd].
  rewrite H3 by lia. exact U4.
Qed.

End AccessoryHeap.

(* ===================================================================== *)
(** ** Reading with no data; decoding whatever was read                   *)
(* ===================================================================== *)

Section EmptyRead.

Lemma attemptExecute_empty_read cmd p n w :
  0 < n ->
  io_connect (env w (attempts w)) = ConnectOk ->
  io_write (env w (attempts w)) = None ->
  io_read (env w (attempts w)) = ReadUndefined ->
  exists w', attemptExecute cmd p n w = (Ok EmptyString, w') /\
             attempts w' = S (attempts w).
Proof.
  intros Hn Hc Hw Hr. apply Z.ltb_lt in Hn.
  destruct w as [env0 att0 conn cl hp nx evs0].
  cbv beta iota zeta delta
    [attemptExecute bind try_catch next_attempt on_close ensureConnected
     client_write race_read _forceDisconnect sleep set_socket emit throw
     ret env attempts _connected _client heap next events fst snd].
  cbn [env attempts] in Hc, Hw, Hr.
  destruct (env0 att0) as [pc ci wi ri].
  cbn [io_connect io_write io_read] in Hc, Hw, Hr. subst ci wi ri.
  cbv beta iota delta [peer_closed io_connect io_write io_read].
  rewrite Hn.
  destruct pc, conn, cl;
    cbv beta iota zeta delta [andb negb fst snd events attempts env heap next];
    eexists; split; reflexivity.
Qed.

Lemma send_empty_read cmd p n w :
  0 < n ->
  io_connect (env w (attempts w)) = ConnectOk ->
  io_write (env w (attempts w)) = None ->
  io_read (env w (attempts w)) = ReadUndefined ->
  exists w', send cmd p n w = (Ok EmptyString, w') /\
             attempts w' = S (attempts w).
Proof.
  intros Hn Hc Hw Hr. unfold send, bind.
  destruct (emit (EvSubmit cmd p n) w) as [[[]|e0] w0] eqn:E0;
    [|unfold emit in E0; discriminate].
  assert (Hw0 : env w0 = env w /\ attempts w0 = attempts w)
    by (unfold emit in E0; inversion E0; subst; split; reflexivity).
  destruct Hw0 as [He Ha].
  destruct (attemptExecute_empty_read cmd p n w0 Hn) as (w' & E & A);
    try (rewrite He, Ha; assumption).
  rewrite executeWithRetries_unroll, E.
  exists w'. split; [reflexivity | rewrite A, Ha; reflexivity].
Qed.

End EmptyRead.

(** C10.  When the connection and the write succeed and the read resolves
    with no data before the timeout, a call of [send] that expects a
    response resolves with the empty string after a single attempt; and
    [getStatus] goes on to decode the empty string, returning a status
    (with [NaN] in its numeric fields) instead of failing. *)
Theorem empty_read_is_a_success (UNKNOWN_MODE : Z) (w : World) :
  io_connect (env w (attempts w)) = ConnectOk ->
  io_write (env w (attempts w)) = None ->
  io_read (env w (attempts w)) = ReadUndefined ->
  (forall cmd parameter responseLength,
      0 < responseLength ->
      fst (send cmd parameter responseLength w) = Ok EmptyString /\
      attempts (snd (send cmd parameter responseLength w)) = S (attempts w)) /\
  (exists status w',
      getStatus UNKNOWN_MODE w = (Ok status, w') /\
      heap w' status = decodeStatus UNKNOWN_MODE EmptyString /\
      sp108eStatus.rawResponse (heap w' status) = EmptyString /\
      sp108eStatus.on (heap w' status) = false /\
      sp108eStatus.brightness (heap w' status) = JS.NaN /\
      sp108eStatus.animationSpeed (heap w' status) = JS.NaN).
Proof.
  intros Hc Hw Hr. split.
  - intros cmd p n Hn.
    destruct (send_empty_read cmd p n w Hn Hc Hw Hr) as (w' & -> & A).
    split; [reflexivity | exact A].
  - destruct (send_empty_read CMD_GET_STATUS NO_PARAMETER 17 w
                ltac:(lia) Hc Hw Hr) as (w1 & E & _).
    exists (next w1), (snd (alloc (decodeStatus UNKNOWN_MODE EmptyString) w1)).
    rewrite (getStatus_ok _ _ _ _ E).
    split; [reflexivity|]. cbn [alloc snd heap]. rewrite Nat.eqb_refl.
    repeat split.
Qed.

Lemma empty_read_is_a_success_witness :
  io_read (env (steady_world silent_peer) 0) = ReadUndefined /\
  fst (getStatus (-1) (steady_world silent_peer)) = Ok 0%nat /\
  fst (send CMD_TOGGLE NO_PARAMETER 17 (steady_world silent_peer)) = Ok EmptyString.
Proof.
  split; [reflexivity|].
  destruct (empty_read_is_a_success (-1) (steady_world silent_peer)
              eq_refl eq_refl eq_refl) as (S & (status & w' & G & _)).
  split.
  - rewrite G. cbn [fst]. f_equal.
    apply (f_equal fst) in G. cbn [fst] in G.
    vm_compute in G. inversion G. reflexivity.
  - apply S. lia.
Defined.

Section ShortResponse.

Lemma substring_beyond n : forall m s,
  (String.length s <= n)%nat -> String.substring n m s = EmptyString.
Proof.
  induction n as [|n IH]; intros m s H.
  - destruct s as [|c s]; [destruct m; reflexivity | cbn in H; lia].
  - destruct s as [|c s]; [reflexivity|]. cbn in H. cbn [String.substring].
    apply IH. lia.
Qed.

Lemma substring_length n : forall m s,
  (String.length (String.substring n m s) <= String.length s - n)%nat.
Proof.
  induction n as [|n IH]; intros m s.
  - revert s. induction m as [|m IHm]; intros s.
    + destruct s; cbn; lia.
    + destruct s as [|c s]; [cbn; lia|]. cbn [String.substring String.length].
      specialize (IHm s). lia.
  - destruct s as [|c s]; [cbn; lia|]. cbn [String.substring String.length].
    specialize (IH m s). lia.
Qed.

(** A field whose first character is beyond the end of the response is
    read from the empty string. *)
Lemma JS_substring_beyond a b s :
  (a <= b)%nat -> (String.length s <= a)%nat -> JS.substring a b s = EmptyString.
Proof.
  intros Hab H. unfold JS.substring.
  rewrite Nat.min_l by exact Hab. apply substring_beyond. exact H.
Qed.

Lemma parseInt_beyond a b s :
  (a <= b)%nat -> (String.length s <= a)%nat ->
  JS.parseInt (JS.substring a b s) 16 = JS.NaN.
Proof. intros Hab H. rewrite JS_substring_beyond by assumption. reflexivity. Qed.

(** Fewer than two characters are not '01'. *)
Lemma power_flag_beyond s :
  (String.length s < 4)%nat -> String.eqb (JS.substring 2 4 s) "01" = false.
Proof.
  intros H. unfold JS.substring. cbn [Nat.min Nat.max Nat.sub].
  pose proof (substring_length 2 2 s) as L.
  destruct (String.substring 2 2 s) as [|c [|d r]].
  - reflexivity.
  - cbn. destruct (Ascii.eqb c "0"); reflexivity.
  - cbn [String.length] in L. lia.
Qed.

End ShortResponse.

(** C7, as the code has it.  Decoding cannot fail and is no part of what
    is retried: once [send] has returned a response, whatever it is,
    [getStatus] allocates the decoded status and returns it, with no
    further attempt and no further event.  On a well-formed 17-byte
    response every numeric field is the number at its offset.  On a
    response that is too short, a numeric field none of whose
    characters is there is [NaN] and the colour is empty when none of
    its characters is there; the power flag is off when the response
    has fewer than four characters, and both mode fields are the
    sentinel when it has at most four.  So on the empty response the
    power flag is off, both modes are the sentinel and every numeric
    field is [NaN], while the two-byte response 38 01 decodes to a
    status that is on, with both modes the sentinel and every other
    numeric field [NaN]. *)
Theorem status_decoding_total (UNKNOWN_MODE : Z) :
  (forall w response w1,
      send CMD_GET_STATUS NO_PARAMETER 17 w = (Ok response, w1) ->
      getStatus UNKNOWN_MODE w = alloc (decodeStatus UNKNOWN_MODE response) w1 /\
      fst (getStatus UNKNOWN_MODE w) = Ok (next w1) /\
      attempts (snd (getStatus UNKNOWN_MODE w)) = attempts w1 /\
      events (snd (getStatus UNKNOWN_MODE w)) = events w1) /\
  (forall buf,
      well_formed_status buf ->
      let s := decodeStatus UNKNOWN_MODE (JS.Buffer_toString_hex buf) in
      let b i := nth i buf 0 in
      sp108eStatus.on s = (b 1%nat =? 1) /\
      sp108eStatus.animationSpeed s = JS.Num (b 3%nat) /\
      sp108eStatus.brightness s = JS.Num (b 4%nat) /\
      sp108eStatus.colorOrder s = JS.Num (b 5%nat) /\
      sp108eStatus.ledsPerSegment s = JS.Num (256 * b 6%nat + b 7%nat) /\
      sp108eStatus.numberOfSegments s = JS.Num (256 * b 8%nat + b 9%nat) /\
      sp108eStatus.icType s = JS.Num (b 13%nat) /\
      sp108eStatus.recordedPatterns s = JS.Num (b 14%nat) /\
      sp108eStatus.whiteBrightness s = JS.Num (b 15%nat)) /\
  (forall response,
      let s := decodeStatus UNKNOWN_MODE response in
      let n := String.length response in
      ((n < 4)%nat -> sp108eStatus.on s = false) /\
      ((n <= 4)%nat ->
       sp108eStatus.animationMode s = JS.Num UNKNOWN_MODE /\
       sp108eStatus.presetEffectMode s = JS.Num UNKNOWN_MODE) /\
      ((n <= 6)%nat -> sp108eStatus.animationSpeed s = JS.NaN) /\
      ((n <= 8)%nat -> sp108eStatus.brightness s = JS.NaN) /\
      ((n <= 10)%nat -> sp108eStatus.colorOrder s = JS.NaN) /\
      ((n <= 12)%nat -> sp108eStatus.ledsPerSegment s = JS.NaN) /\
      ((n <= 16)%nat -> sp108eStatus.numberOfSegments s = JS.NaN) /\
      ((n <= 20)%nat -> sp108eStatus.color s = EmptyString) /\
      ((n <= 26)%nat -> sp108eStatus.icType s = JS.NaN) /\
      ((n <= 28)%nat -> sp108eStatus.recordedPatterns s = JS.NaN) /\
      ((n <= 30)%nat -> sp108eStatus.whiteBrightness s = JS.NaN)) /\
  (let s := decodeStatus UNKNOWN_MODE EmptyString in
   sp108eStatus.on s = false /\
   sp108eStatus.animationMode s = JS.Num UNKNOWN_MODE /\
   sp108eStatus.presetEffectMode s = JS.Num UNKNOWN_MODE /\
   sp108eStatus.animationSpeed s = JS.NaN /\
   sp108eStatus.brightness s = JS.NaN /\
   sp108eStatus.colorOrder s = JS.NaN /\
   sp108eStatus.ledsPerSegment s = JS.NaN /\
   sp108eStatus.numberOfSegments s = JS.NaN /\
   sp108eStatus.color s = EmptyString /\
   sp108eStatus.icType s = JS.NaN /\
   sp108eStatus.recordedPatterns s = JS.NaN /\
   sp108eStatus.whiteBrightness s = JS.NaN) /\
  (let s := decodeStatus UNKNOWN_MODE (JS.Buffer_toString_hex [56; 1]) in
   sp108eStatus.on s = true /\
   sp108eStatus.animationMode s = JS.Num UNKNOWN_MODE /\
   sp108eStatus.presetEffectMode s = JS.Num UNKNOWN_MODE /\
   sp108eStatus.animationSpeed s = JS.NaN /\
   sp108eStatus.brightness s = JS.NaN /\
   sp108eStatus.colorOrder s = JS.NaN /\
   sp108eStatus.ledsPerSegment s = JS.NaN /\
   sp108eStatus.numberOfSegments s = JS.NaN /\
   sp108eStatus.color s = EmptyString /\
   sp108eStatus.icType s = JS.NaN /\
   sp108eStatus.recordedPatterns s = JS.NaN /\
   sp108eStatus.whiteBrightness s = JS.NaN).
Proof.
  split; [|split; [|split; [|split]]].
  - intros w response w1 E. rewrite (getStatus_ok _ _ _ _ E).
    repeat split.
  - intros buf H s b.
    destruct (decodeStatus_fields UNKNOWN_MODE buf H)
      as (H1 & _ & _ & H4 & H5 & H6 & H7 & H8 & _ & H10 & H11 & H12).
    repeat split; assumption.
  - intros response s n. unfold s, n, decodeStatus.
    cbn [sp108eStatus.on sp108eStatus.animationMode
         sp108eStatus.presetEffectMode sp108eStatus.animationSpeed
         sp108eStatus.brightness sp108eStatus.colorOrder
         sp108eStatus.ledsPerSegment sp108eStatus.numberOfSegments
         sp108eStatus.color sp108eStatus.icType
         sp108eStatus.recordedPatterns sp108eStatus.whiteBrightness].
    split; [intros H; apply power_flag_beyond; exact H|].
    split; [intros H; rewrite parseInt_beyond by lia; split; reflexivity|].
    split; [intros H; apply parseInt_beyond; lia|].
    split; [intros H; apply parseInt_beyond; lia|].
    split; [intros H; apply parseInt_beyond; lia|].
    split; [intros H; apply parseInt_beyond; lia|].
    split; [intros H; apply parseInt_beyond; lia|].
    split; [intros H; apply JS_substring_beyond; lia|].
    split; [intros H; apply parseInt_beyond; lia|].
    split; [intros H; apply parseInt_beyond; lia|].
    intros H; apply parseInt_beyond; lia.
  - repeat split.
  - repeat split.
Qed.

Lemma status_decoding_total_witness :
  well_formed_status (status_bytes 1 205) /\
  sp108eStatus.brightness
    (decodeStatus (-1) (JS.Buffer_toString_hex (status_bytes 1 205))) = JS.Num 255 /\
  fst (getStatus (-1) (steady_world (answering (status_bytes 1 205)))) = Ok 0%nat.
Proof.
  assert (W : well_formed_status (status_bytes 1 205)).
  { split; [reflexivity|]. unfold status_bytes.
    repeat (constructor; [unfold is_byte; lia|]). constructor. }
  destruct (status_decoding_total (-1)) as (A & B & _).
  split; [exact W|]. split.
  - destruct (B _ W) as (_ & _ & Hb & _). exact Hb.
  - destruct (A (steady_world (answering (status_bytes 1 205)))
                (JS.Buffer_toString_hex (status_bytes 1 205))
                (snd (send CMD_GET_STATUS NO_PARAMETER 17
                        (steady_world (answering (status_bytes 1 205)))))
                ltac:(vm_compute; reflexivity)) as (_ & Hf & _).
    exact Hf.
Defined.

(** C7 as stated fails: a response of two bytes is too short, and yet,
    whatever the sentinel is, [getStatus] does not fail on it. *)
Lemma short_status_is_decoded :
  ~ exists UNKNOWN_MODE e w',
      getStatus UNKNOWN_MODE (steady_world (answering [56; 1])) = (Throw e, w').
Proof.
  intros (u & e & w' & H).
  apply (f_equal fst) in H. vm_compute in H. discriminate H.
Qed.

(* ===================================================================== *)
(** ** Power, colour, and the status object                               *)
(* ===================================================================== *)

(** C8.  [on] and [off] start with a status query.  When it succeeds,
    [on] sends the toggle command exactly when the status says the
    device is off, [off] exactly when it says the device is on; when it
    fails, nothing is sent after it.  Two calls of [on] in a row, each
    reading a status that says the device is on, send two status queries
    and no toggle command. *)
Theorem power_toggle_only_on_mismatch (UNKNOWN_MODE : Z) (w : World) :
  (forall status w1,
      getStatus UNKNOWN_MODE w = (Ok status, w1) ->
      submitted (new_events w (snd (on UNKNOWN_MODE w))) =
        status_command ::
        (if sp108eStatus.on (heap w1 status) then [] else [toggle_command]) /\
      submitted (new_events w (snd (off UNKNOWN_MODE w))) =
        status_command ::
        (if sp108eStatus.on (heap w1 status) then [toggle_command] else [])) /\
  (forall e w1,
      getStatus UNKNOWN_MODE w = (Throw e, w1) ->
      on UNKNOWN_MODE w = (Throw e, w1) /\
      off UNKNOWN_MODE w = (Throw e, w1) /\
      submitted (new_events w w1) = [status_command]) /\
  (forall s1 w1 s2 w2,
      getStatus UNKNOWN_MODE w = (Ok s1, w1) ->
      sp108eStatus.on (heap w1 s1) = true ->
      getStatus UNKNOWN_MODE w1 = (Ok s2, w2) ->
      sp108eStatus.on (heap w2 s2) = true ->
      snd (on UNKNOWN_MODE (snd (on UNKNOWN_MODE w))) = w2 /\
      submitted (new_events w w2) = [status_command; status_command]).
Proof.
  split; [|split].
  - intros status w1 G.
    destruct (on_submitted UNKNOWN_MODE w) as (e1 & X1 & S1).
    destruct (off_submitted UNKNOWN_MODE w) as (e2 & X2 & S2).
    rewrite G in S1, S2.
    rewrite (new_events_extends _ _ _ X1), (new_events_extends _ _ _ X2).
    split; assumption.
  - intros e w1 G.
    pose proof (on_cases UNKNOWN_MODE w) as Kon.
    pose proof (off_cases UNKNOWN_MODE w) as Koff.
    destruct (getStatus_extends UNKNOWN_MODE w) as (e1 & X1 & S1).
    rewrite G in Kon, Koff, X1. cbn [snd] in X1.
    rewrite (new_events_extends _ _ _ X1). auto.
  - intros s1 w1 s2 w2 G1 P1 G2 P2.
    pose proof (on_cases UNKNOWN_MODE w) as K1. rewrite G1, P1 in K1.
    pose proof (on_cases UNKNOWN_MODE w1) as K2. rewrite G2, P2 in K2.
    rewrite K1. cbn [snd]. rewrite K2. cbn [snd]. split; [reflexivity|].
    destruct (getStatus_extends UNKNOWN_MODE w) as (e1 & X1 & S1).
    destruct (getStatus_extends UNKNOWN_MODE w1) as (e2 & X2 & S2).
    rewrite G1 in X1. rewrite G2 in X2. cbn [snd] in X1, X2.
    rewrite (new_events_extends _ _ _ (extends_trans _ _ _ _ _ X1 X2)).
    rewrite submitted_app, S1, S2. reflexivity.
Qed.

Lemma power_toggle_only_on_mismatch_witness :
  let w := steady_world (answering (status_bytes 1 205)) in
  let w2 := snd (on (-1) (snd (on (-1) w))) in
  sp108eStatus.on (heap w2 0%nat) = true /\
  sp108eStatus.on (heap w2 1%nat) = true /\
  submitted (new_events w w2) = [status_command; status_command].
Proof.
  intros w w2.
  split; [reflexivity|]. split; [reflexivity|].
  destruct (power_toggle_only_on_mismatch (-1) w) as (_ & _ & H).
  destruct (H 0%nat (snd (getStatus (-1) w))
              1%nat (snd (getStatus (-1) (snd (getStatus (-1) w))))
              ltac:(vm_compute; reflexivity) ltac:(vm_compute; reflexivity)
              ltac:(vm_compute; reflexivity) ltac:(vm_compute; reflexivity))
    as (E & R).
  unfold w2. rewrite E. exact R.
Defined.

(** C5, as the code has it.  [setColor] starts with a status query.
    When it succeeds, the command that sets the static animation mode is
    sent before the colour if and only if the animation mode of the
    status equals 0 (and then the colour follows if that command went
    through); otherwise the colour command alone is sent.  A decoded
    animation mode is above 180 or the sentinel, so with a sentinel other
    than 0 the mode command is never sent. *)
Theorem setColor_mode_switch (UNKNOWN_MODE ANIMATION_MODE_STATIC : Z)
  (hexColor : string) (w : World) :
  forall status w1,
    getStatus UNKNOWN_MODE w = (Ok status, w1) ->
    let sent :=
      submitted (new_events w
        (snd (setColor UNKNOWN_MODE ANIMATION_MODE_STATIC hexColor w))) in
    let mode := sp108eStatus.animationMode (heap w1 status) in
    let switch :=
      send CMD_SET_ANIMATION_MODE
           (intToHex (Some (JS.Num ANIMATION_MODE_STATIC))) 0 w1 in
    (mode = JS.Num 0 ->
     sent = status_command :: static_mode_command ANIMATION_MODE_STATIC ::
            match fst switch with
            | Ok _ => [color_command hexColor]
            | Throw _ => []
            end) /\
    (mode <> JS.Num 0 -> sent = [status_command; color_command hexColor]) /\
    (UNKNOWN_MODE <> 0 -> sent = [status_command; color_command hexColor]).
Proof.
  intros status w1 G sent mode switch.
  destruct (setColor_submitted UNKNOWN_MODE ANIMATION_MODE_STATIC hexColor w)
    as (evs & X & S).
  rewrite G in S. fold mode in S.
  assert (Hsent : sent = submitted evs)
    by (unfold sent; rewrite (new_events_extends _ _ _ X); reflexivity).
  rewrite Hsent, S.
  assert (Hnz : mode <> JS.Num 0 -> JS.strict_eq mode (JS.Num 0) = false).
  { intros Hm. destruct (JS.strict_eq mode (JS.Num 0)) eqn:E; [|reflexivity].
    apply strict_eq_zero in E. contradiction. }
  split; [|split].
  - intros Hm. rewrite (proj2 (strict_eq_zero mode) Hm). fold switch.
    destruct switch as [[r|e] w2]; reflexivity.
  - intros Hm. rewrite (Hnz Hm). reflexivity.
  - intros Hu. rewrite Hnz; [reflexivity|].
    destruct (getStatus_inv UNKNOWN_MODE w status w1 G)
      as (response & w0 & _ & _ & _ & _ & Hh).
    unfold mode. rewrite Hh. unfold decodeStatus.
    cbn [sp108eStatus.animationMode].
    destruct (JS.parseInt (JS.substring 4 6 response) 16) as [z|]; cbn [JS.gt].
    + destruct (Z.ltb_spec 180 z); intros E; inversion E; lia.
    + intros E; inversion E; lia.
Qed.

Lemma setColor_mode_switch_witness :
  let w := steady_world (answering (status_bytes 1 50)) in
  sp108eStatus.animationMode (heap (snd (getStatus 0 w)) 0%nat) = JS.Num 0 /\
  submitted (new_events w (snd (setColor 0 211 "ff0000" w))) =
    [status_command; static_mode_command 211; color_command "ff0000"].
Proof.
  intros w. split; [reflexivity|].
  destruct (setColor_mode_switch 0 211 "ff0000" w 0%nat (snd (getStatus 0 w))
              ltac:(vm_compute; reflexivity)) as (H & _).
  rewrite (H ltac:(vm_compute; reflexivity)). reflexivity.
Defined.

(** C5 as stated fails: a device that plays animation 205, or animation
    209, is in static mode for at most one of the two; yet for both, and
    whatever the two constants are, [setColor] sends the colour command
    alone. *)
Lemma setColor_keeps_running_animation :
  ~ exists UNKNOWN_MODE ANIMATION_MODE_STATIC,
      forall mode, In mode [205; 209] ->
        let w := steady_world (answering (status_bytes 1 mode)) in
        In (static_mode_command ANIMATION_MODE_STATIC)
           (submitted (new_events w
              (snd (setColor UNKNOWN_MODE ANIMATION_MODE_STATIC "ff0000" w))))
        <->
        sp108eStatus.animationMode (heap (snd (getStatus UNKNOWN_MODE w)) 0%nat)
          <> JS.Num ANIMATION_MODE_STATIC.
Proof.
  intros (u & st & H).
  pose proof (H 205 ltac:(simpl; auto)) as H1.
  pose proof (H 209 ltac:(simpl; auto)) as H2.
  cbv zeta in H1, H2.
  assert (N : forall cmds : list (string * string * Z),
             cmds = [status_command; color_command "ff0000"] ->
             ~ In (static_mode_command st) cmds).
  { intros cmds -> [E | [E | []]]; inversion E. }
  assert (E1 : st = 205).
  { destruct (Z.eq_dec st 205) as [|Hne]; [assumption|]. exfalso.
    apply (N _ ltac:(vm_compute; reflexivity)
             (proj2 H1 ltac:(vm_compute; intros E; inversion E; congruence))). }
  assert (E2 : st = 209).
  { destruct (Z.eq_dec st 209) as [|Hne]; [assumption|]. exfalso.
    apply (N _ ltac:(vm_compute; reflexivity)
             (proj2 H2 ltac:(vm_compute; intros E; inversion E; congruence))). }
  lia.
Qed.

(** C6, as the code has it.  Every status returned by [getStatus] is a
    new object, and no operation of the client changes an object that
    exists.  The accessory does: [setPresetModeOn] leaves every other
    object alone, and either leaves the status it holds alone or, when
    it switches the preset on, overwrites its [presetEffectMode] in place
    (with the mode already there when that is known, with the preset
    number the accessory remembers otherwise). *)
Theorem status_fresh_and_where_written (UNKNOWN_MODE ANIMATION_MODE_STATIC : Z) :
  (forall w status w',
      getStatus UNKNOWN_MODE w = (Ok status, w') ->
      status = next w /\ next w' = S (next w) /\
      (forall r, (r < next w)%nat -> heap w' r = heap w r)) /\
  (forall op w r,
      (r < next w)%nat ->
      heap (after UNKNOWN_MODE ANIMATION_MODE_STATIC op w) r = heap w r) /\
  (forall value a w d,
      deviceStatus a = Some d -> (d < next w)%nat ->
      let w' := snd (setPresetModeOn UNKNOWN_MODE ANIMATION_MODE_STATIC value a w) in
      (forall r, (r < next w)%nat -> r <> d -> heap w' r = heap w r) /\
      (heap w' d = heap w d \/
       (value = true /\
        heap w' d =
          sp108eStatus.set_presetEffectMode
            (stored_preset UNKNOWN_MODE a (heap w d)) (heap w d)))) /\
  (forall a w d,
      deviceStatus a = Some d -> (d < next w)%nat ->
      sp108eStatus.on (heap w d) = true ->
      sp108eStatus.presetEffectMode (heap w d) = JS.Num UNKNOWN_MODE ->
      heap (snd (setPresetModeOn UNKNOWN_MODE ANIMATION_MODE_STATIC true a w)) d =
      sp108eStatus.set_presetEffectMode (presetEffectNumber a) (heap w d)).
Proof.
  split; [|split; [|split]].
  - intros w status w' G.
    destruct (getStatus_inv UNKNOWN_MODE w status w' G)
      as (response & w1 & _ & Hs & Hn & Hw & _).
    destruct (getStatus_extends UNKNOWN_MODE w) as (evs & (_ & _ & _ & Hh) & _).
    rewrite G in Hh. cbn [snd] in Hh.
    split; [congruence|]. split; [|exact Hh].
    rewrite Hw. cbn [alloc snd next]. congruence.
  - intros op w r Hr.
    destruct (after_extends UNKNOWN_MODE ANIMATION_MODE_STATIC op w)
      as (evs & (_ & _ & _ & Hh)).
    apply Hh. exact Hr.
  - intros value a w d Hd Hlt w'.
    destruct (setPresetModeOn_heap UNKNOWN_MODE ANIMATION_MODE_STATIC
                value a w d Hd Hlt) as (_ & H1 & H2).
    split; assumption.
  - intros a w d. apply setPresetModeOn_writes.
Qed.

Lemma status_fresh_and_where_written_witness :
  let w := steady_world (answering (status_bytes 1 205)) in
  getStatus (-1) w = (Ok 0%nat, snd (getStatus (-1) w)) /\
  next w = 0%nat /\ next (snd (getStatus (-1) w)) = 1%nat.
Proof.
  intros w.
  assert (G : getStatus (-1) w = (Ok 0%nat, snd (getStatus (-1) w)))
    by (vm_compute; reflexivity).
  destruct (status_fresh_and_where_written (-1) 211) as (H & _).
  destruct (H w 0%nat (snd (getStatus (-1) w)) G) as (_ & Hn & _).
  split; [exact G|]. split; [reflexivity | exact Hn].
Defined.

(** The scenario of the counterexample is what a pull produces. *)
Lemma pulled_cached UNKNOWN_MODE :
  fst (pulled UNKNOWN_MODE) = Ok (cached UNKNOWN_MODE) /\
  next (snd (pulled UNKNOWN_MODE)) = 1%nat /\
  sp108eStatus.on (heap (snd (pulled UNKNOWN_MODE)) 0%nat) = true /\
  sp108eStatus.presetEffectMode (heap (snd (pulled UNKNOWN_MODE)) 0%nat) =
    JS.Num UNKNOWN_MODE.
Proof. repeat split. Qed.

(** C6 as stated fails: after a pull from a device that plays an
    animation, the status the accessory holds has the sentinel as its
    preset effect mode; switching the preset on changes that very object,
    whatever the two constants are. *)
Lemma cached_status_is_overwritten :
  ~ exists UNKNOWN_MODE ANIMATION_MODE_STATIC,
      heap (snd (setPresetModeOn UNKNOWN_MODE ANIMATION_MODE_STATIC true
                   (cached UNKNOWN_MODE) (snd (pulled UNKNOWN_MODE)))) 0%nat =
      heap (snd (pulled UNKNOWN_MODE)) 0%nat.
Proof.
  intros (u & st & H).
  destruct (pulled_cached u) as (_ & Hn & Hon & Hun).
  rewrite (setPresetModeOn_writes u st (cached u) (snd (pulled u)) 0%nat
             eq_refl ltac:(rewrite Hn; lia) Hon Hun) in H.
  apply (f_equal sp108eStatus.presetEffectMode) in H.
  rewrite Hun in H. cbn in H. inversion H. lia.
Qed.

(* ===================================================================== *)
(** ** The send queue                                                     *)
(* ===================================================================== *)

Module SendQueueFacts.
Import SendQueue.

Lemma chain_ok_pending_any c p : chain_ok Pending c -> chain_ok p c.
Proof.
  destruct c as [|l rest]; [intros; exact I|].
  intros [Hl Hr]. split; [|exact Hr].
  unfold link_ok in *. destruct (unit l); [exact Hl | |];
    destruct Hl as [E _]; discriminate E.
Qed.

(** Behind a pending promise every unit is still waiting. *)
Lemma chain_ok_pending_waiting c :
  chain_ok Pending c -> Forall (fun l => unit l = Waiting) c.
Proof.
  induction c as [|l rest IH]; intros H; [constructor|].
  destruct H as [Hl Hr]. unfold link_ok in Hl.
  destruct (unit l) eqn:U.
  - destruct Hl as [_ Ht]. rewrite Ht in Hr. constructor; [exact U | auto].
  - destruct Hl as [E _]; discriminate E.
  - destruct Hl as [E _]; discriminate E.
Qed.

Lemma nstarted_cons l rest :
  nstarted (l :: rest) = ((if is_waiting l then 0 else 1) + nstarted rest)%nat.
Proof. unfold nstarted. cbn [filter]. destruct (is_waiting l); reflexivity. Qed.

Lemma nfinished_cons l rest :
  nfinished (l :: rest) = ((if is_finished l then 1 else 0) + nfinished rest)%nat.
Proof. unfold nfinished. cbn [filter]. destruct (is_finished l); reflexivity. Qed.

Lemma in_flight_cons l rest :
  in_flight (l :: rest) = ((if is_running l then 1 else 0) + in_flight rest)%nat.
Proof. unfold in_flight. cbn [filter]. destruct (is_running l); reflexivity. Qed.

Lemma measure_cons l rest :
  measure (l :: rest) = (link_measure l + measure rest)%nat.
Proof. reflexivity. Qed.

Lemma chain_ok_pending_zero c :
  chain_ok Pending c ->
  in_flight c = 0%nat /\ nstarted c = 0%nat /\ nfinished c = 0%nat.
Proof.
  intros H. apply chain_ok_pending_waiting in H.
  induction H as [|l rest Hl _ IH]; [repeat split|].
  rewrite in_flight_cons, nstarted_cons, nfinished_cons.
  unfold is_running, is_waiting, is_finished. rewrite Hl. exact IH.
Qed.

(** Behind a pending promise nothing can react. *)
Lemma pending_stuck p k c lab c' :
  react p k c lab c' -> p = Pending -> chain_ok p c -> False.
Proof.
  induction 1 as [p k l l' rest lab S | p k l rest rest' lab R IH];
    intros Hp [Hl Hr]; subst p.
  - unfold link_ok in Hl.
    inversion S; subst; cbn [unit queued tail] in Hl;
      try discriminate;
      try (destruct Hl as [E _]; discriminate E).
    destruct u; destruct Hl as [E1 E2]; try discriminate E1; contradiction.
  - apply IH; [|exact Hr].
    unfold link_ok in Hl. destruct (unit l).
    + destruct Hl as [_ Ht]. exact Ht.
    + destruct Hl as [E _]; discriminate E.
    + destruct Hl as [E _]; discriminate E.
Qed.

Lemma settle_not_pending ok : settle ok <> Pending.
Proof. destruct ok; discriminate. Qed.

(** One reaction: the shape is kept, the measure decreases, a unit is
    started only when all the units before it have been started, it
    finishes only when all the units before it have finished, and none
    is skipped. *)
Lemma react_sound p k c lab c' :
  react p k c lab c' -> p <> Rejected -> chain_ok p c ->
  chain_ok p c' /\ List.length c' = List.length c /\
  (measure c' < measure c)%nat /\
  match lab with
  | LStart j =>
      j = (k + nstarted c)%nat /\ nstarted c' = S (nstarted c) /\
      nfinished c' = nfinished c
  | LFinish j _ =>
      j = (k + nfinished c)%nat /\ nfinished c' = S (nfinished c) /\
      nstarted c' = nstarted c
  | LCatch _ => nstarted c' = nstarted c /\ nfinished c' = nfinished c
  | LSkip _ | LSend => False
  end.
Proof.
  induction 1 as [p k l l' rest lab S | p k l rest rest' lab R IH];
    intros Hp [Hl Hr].
  - (* the head reacts *)
    rewrite !measure_cons. cbn [List.length chain_ok].
    rewrite !nstarted_cons, !nfinished_cons.
    inversion S; subst; unfold link_ok in Hl; cbn [unit queued tail] in *.
    + destruct Hl as [_ ->].
      destruct (chain_ok_pending_zero _ Hr) as (_ & Z1 & Z2).
      unfold link_ok, link_measure, is_waiting, is_finished.
      cbn [unit queued tail negb]. rewrite Z1, Z2.
      repeat split; auto; lia.
    + contradiction.
    + destruct Hl as (Hf & _ & ->).
      destruct (chain_ok_pending_zero _ Hr) as (_ & Z1 & Z2).
      unfold link_ok, link_measure, is_waiting, is_finished.
      cbn [unit queued tail negb]. rewrite Z1, Z2.
      repeat split; auto; try discriminate; try lia.
    + destruct u.
      * destruct Hl as [E _]. contradiction.
      * destruct Hl as (_ & E & _). contradiction.
      * destruct Hl as (Hf & Hq & _).
        unfold link_ok, link_measure, is_waiting, is_finished.
        cbn [unit queued tail negb].
        repeat split; auto; try discriminate; try lia;
          try (apply chain_ok_pending_any; exact Hr);
          try (destruct q; lia).
  - (* a later link reacts *)
    assert (Ht : tail l <> Rejected).
    { unfold link_ok in Hl. destruct (unit l).
      - destruct Hl as [_ ->]. discriminate.
      - destruct Hl as (_ & _ & ->). discriminate.
      - destruct Hl as (_ & _ & N). exact N. }
    destruct (IH Ht Hr) as (Ok' & Len & Mes & Lab).
    assert (Hdone : match lab with
                    | LStart _ => is_waiting l = false
                    | LFinish _ _ => is_finished l = true
                    | _ => True
                    end).
    { destruct lab; try exact I.
      - unfold is_waiting. unfold link_ok in Hl.
        destruct (unit l); [|reflexivity|reflexivity].
        destruct Hl as [_ Hp']. exfalso.
        apply (pending_stuck _ _ _ _ _ R Hp'). exact Hr.
      - unfold is_finished. unfold link_ok in Hl.
        destruct (unit l); [| |reflexivity].
        + destruct Hl as [_ Hp']. exfalso.
          apply (pending_stuck _ _ _ _ _ R Hp'). exact Hr.
        + destruct Hl as (_ & _ & Hp'). exfalso.
          apply (pending_stuck _ _ _ _ _ R Hp'). exact Hr. }
    rewrite !measure_cons. cbn [List.length chain_ok].
    rewrite !nstarted_cons, !nfinished_cons.
    split; [split; assumption|]. split; [lia|]. split; [lia|].
    destruct lab; try exact Lab.
    + destruct Lab as (-> & -> & ->). rewrite Hdone. repeat split; lia.
    + destruct Lab as (-> & -> & ->). rewrite Hdone. repeat split; lia.
    + destruct Lab as (-> & ->). split; reflexivity.
Qed.

Lemma chain_ok_send p c : chain_ok p c -> chain_ok p (send c).
Proof.
  unfold send. revert p.
  induction c as [|l rest IH]; intros p H.
  - cbn. repeat split.
  - destruct H as [Hl Hr]. split; [exact Hl | apply IH; exact Hr].
Qed.

Lemma counts_send c :
  nstarted (send c) = nstarted c /\ nfinished (send c) = nfinished c /\
  List.length (send c) = S (List.length c).
Proof.
  unfold send, nstarted, nfinished. rewrite !filter_app, !length_app.
  cbn. repeat split; lia.
Qed.

Lemma started_app a b : started (a ++ b) = started a ++ started b.
Proof.
  induction a as [|x a IH]; [reflexivity|].
  destruct x; cbn; rewrite ?IH; reflexivity.
Qed.

Lemma finished_app a b : finished (a ++ b) = finished a ++ finished b.
Proof.
  induction a as [|x a IH]; [reflexivity|].
  destruct x; cbn; rewrite ?IH; reflexivity.
Qed.

Lemma sends_app a b : sends (a ++ b) = (sends a + sends b)%nat.
Proof.
  induction a as [|x a IH]; [reflexivity|].
  destruct x; cbn; rewrite ?IH; reflexivity.
Qed.

Lemma root_not_rejected : root <> Rejected.
Proof. discriminate. Qed.

(** What holds of every reachable chain and of the trace that led to it. *)
Lemma exec_inv tr c :
  exec init tr c ->
  chain_ok root c /\ List.length c = sends tr /\
  started tr = seq 0 (nstarted c) /\
  finished tr = seq 0 (nfinished c) /\
  (forall lab, In lab tr -> is_skip lab = false).
Proof.
  intros E. remember init as c0 eqn:E0.
  induction E as [c | c tr c' lab c'' E IH S]; subst.
  - cbn. repeat split. intros lab [].
  - destruct (IH eq_refl) as (Ok & Len & St & Fi & Sk). clear IH.
    rewrite started_app, finished_app, sends_app.
    assert (Sk' : forall l0, is_skip lab = false ->
                             In l0 (tr ++ [lab]) -> is_skip l0 = false).
    { intros l0 Hlab Hin. apply in_app_or in Hin.
      destruct Hin as [Hin | [<- | []]]; auto. }
    destruct S as [c | c lab c' R].
    + destruct (counts_send c) as (-> & -> & ->).
      cbn [started finished sends]. rewrite !app_nil_r.
      split; [apply chain_ok_send; exact Ok|].
      split; [lia|]. split; [exact St|]. split; [exact Fi|].
      intros l0. apply Sk'. reflexivity.
    + destruct (react_sound _ _ _ _ _ R root_not_rejected Ok)
        as (Ok' & Len' & _ & Lab).
      split; [exact Ok'|].
      destruct lab; try contradiction; cbn [started finished sends].
      * destruct Lab as (-> & -> & ->). rewrite !app_nil_r, Nat.add_0_r.
        split; [lia|]. split; [|split; [exact Fi|]].
        -- rewrite seq_S, St. reflexivity.
        -- intros l0. apply Sk'. reflexivity.
      * destruct Lab as (-> & -> & ->). rewrite !app_nil_r, Nat.add_0_r.
        split; [lia|]. split; [exact St|]. split.
        -- rewrite seq_S, Fi. reflexivity.
        -- intros l0. apply Sk'. reflexivity.
      * destruct Lab as (-> & ->). rewrite !app_nil_r, Nat.add_0_r.
        split; [lia|]. split; [exact St|]. split; [exact Fi|].
        intros l0. apply Sk'. reflexivity.
Qed.

(** In a well-formed chain the units started and not finished are the
    units in flight, and there is at most one. *)
Lemma chain_ok_counts c : forall p,
  chain_ok p c ->
  nstarted c = (nfinished c + in_flight c)%nat /\ (in_flight c <= 1)%nat.
Proof.
  induction c as [|l rest IH]; intros p H; [cbn; split; lia|].
  destruct H as [Hl Hr].
  rewrite nstarted_cons, nfinished_cons, in_flight_cons.
  unfold link_ok in Hl. unfold is_waiting, is_finished, is_running.
  destruct (unit l); cbn [negb].
  - destruct Hl as [_ Ht]. rewrite Ht in Hr.
    destruct (chain_ok_pending_zero _ Hr) as (-> & -> & ->). split; lia.
  - destruct Hl as (_ & _ & Ht). rewrite Ht in Hr.
    destruct (chain_ok_pending_zero _ Hr) as (-> & -> & ->). split; lia.
  - destruct (IH _ Hr) as [E L]. split; lia.
Qed.

(** Unless every unit has finished, something can react: no outcome of
    an earlier unit, success or failure, blocks the chain. *)
Lemma chain_ok_progress c : forall p k,
  chain_ok p c -> p = Fulfilled ->
  Forall (fun l => is_finished l = true) c \/
  exists lab c', react p k c lab c'.
Proof.
  induction c as [|l rest IH]; intros p k H Hp; [left; constructor|].
  destruct H as [Hl Hr]. destruct l as [q t u].
  unfold link_ok in Hl. cbn [unit queued tail] in *.
  destruct u as [| |ok].
  - destruct Hl as [-> ->]. right.
    eexists _, _. apply react_here. apply ls_start. exact Hp.
  - destruct Hl as (_ & -> & ->). right.
    eexists _, _. apply react_here. apply (ls_finish _ _ _ true).
  - destruct Hl as (_ & -> & Ht). destruct t.
    + right. eexists _, _. apply react_here. apply ls_catch.
      apply settle_not_pending.
    + destruct (IH Fulfilled (S k) Hr eq_refl) as [F | (lab & c' & R)].
      * left. constructor; [reflexivity | exact F].
      * right. eexists _, _. apply react_later. exact R.
    + contradiction.
Qed.

Lemma drain_bound c n c' :
  drain c n c' -> chain_ok root c ->
  (n + measure c' <= measure c)%nat /\ chain_ok root c' /\
  List.length c' = List.length c.
Proof.
  induction 1 as [c | c lab c' n c'' R D IH]; intros Ok.
  - repeat split; [lia | exact Ok].
  - destruct (react_sound _ _ _ _ _ R root_not_rejected Ok)
      as (Ok' & Len & Mes & _).
    destruct (IH Ok') as (B & Ok'' & Len').
    repeat split; [lia | exact Ok'' | lia].
Qed.

Lemma drain_complete m : forall c,
  (measure c <= m)%nat -> chain_ok root c ->
  exists n c', drain c n c' /\ Forall (fun l => is_finished l = true) c'.
Proof.
  induction m as [|m IH]; intros c Hm Ok.
  - destruct (chain_ok_progress c root 0 Ok eq_refl) as [F | (lab & c' & R)].
    + exists 0%nat, c. split; [constructor | exact F].
    + destruct (react_sound _ _ _ _ _ R root_not_rejected Ok) as (_ & _ & Mes & _).
      lia.
  - destruct (chain_ok_progress c root 0 Ok eq_refl) as [F | (lab & c' & R)].
    + exists 0%nat, c. split; [constructor | exact F].
    + destruct (react_sound _ _ _ _ _ R root_not_rejected Ok)
        as (Ok' & _ & Mes & _).
      destruct (IH c' ltac:(lia) Ok') as (n & c'' & D & F).
      exists (S n), c''. split; [econstructor; eassumption | exact F].
Qed.

End SendQueueFacts.

(** C1.  For every interleaving of calls of [send], starts and
    completions of units of work and promise reactions:
    - at most one unit of work is in flight;
    - the units are started in the order of the calls, and finish in
      that order; a unit starts only when all the earlier ones have
      finished;
    - no unit is ever skipped, whatever the outcome (success or failure)
      of the units before it;
    - and from there on, without further calls, every schedule comes to
      rest after at most [measure] reactions, in a chain in which every
      unit submitted has run and finished. *)
Theorem send_queue_serializes (tr : list SendQueue.label) (c : SendQueue.chain) :
  SendQueue.exec SendQueue.init tr c ->
  List.length c = SendQueue.sends tr /\
  (SendQueue.in_flight c <= 1)%nat /\
  SendQueue.started tr = seq 0 (List.length (SendQueue.started tr)) /\
  SendQueue.finished tr = seq 0 (List.length (SendQueue.finished tr)) /\
  List.length (SendQueue.started tr) =
    (List.length (SendQueue.finished tr) + SendQueue.in_flight c)%nat /\
  (forall lab, In lab tr -> SendQueue.is_skip lab = false) /\
  (forall n c', SendQueue.drain c n c' ->
                (n <= SendQueue.measure c)%nat /\
                List.length c' = List.length c /\
                (SendQueue.quiescent c' ->
                 Forall (fun l => SendQueue.is_finished l = true) c')) /\
  (exists n c', SendQueue.drain c n c' /\
                List.length c' = List.length c /\
                Forall (fun l => SendQueue.is_finished l = true) c').
Proof.
  intros E.
  destruct (SendQueueFacts.exec_inv tr c E) as (Ok & Len & St & Fi & Sk).
  destruct (SendQueueFacts.chain_ok_counts c _ Ok) as [Cnt One].
  assert (LS : List.length (SendQueue.started tr) = SendQueue.nstarted c)
    by (rewrite St; apply length_seq).
  assert (LF : List.length (SendQueue.finished tr) = SendQueue.nfinished c)
    by (rewrite Fi; apply length_seq).
  split; [exact Len|]. split; [exact One|].
  split; [rewrite LS; exact St|]. split; [rewrite LF; exact Fi|].
  split; [lia|]. split; [exact Sk|]. split.
  - intros n c' D.
    destruct (SendQueueFacts.drain_bound c n c' D Ok) as (B & Ok' & Len').
    split; [lia|]. split; [exact Len'|].
    intros Q.
    destruct (SendQueueFacts.chain_ok_progress c' SendQueue.root 0 Ok' eq_refl)
      as [F | (lab & c'' & R)]; [exact F|].
    exfalso. exact (Q lab c'' R).
  - destruct (SendQueueFacts.drain_complete (SendQueue.measure c) c
                (Nat.le_refl _) Ok) as (n & c' & D & F).
    exists n, c'. split; [exact D|]. split; [|exact F].
    destruct (SendQueueFacts.drain_bound c n c' D Ok) as (_ & _ & Len').
    exact Len'.
Qed.

(** Three calls; the first unit fails, the second and the third still
    run, one after the other. *)
Lemma send_queue_serializes_witness :
  exists c,
    SendQueue.exec SendQueue.init
      [SendQueue.LSend; SendQueue.LSend; SendQueue.LStart 0; SendQueue.LSend;
       SendQueue.LFinish 0 false; SendQueue.LCatch 0; SendQueue.LStart 1]
      c /\
    SendQueue.in_flight c = 1%nat /\ List.length c = 3%nat.
Proof.
  pose (P := SendQueue.Pending). pose (F := SendQueue.Fulfilled).
  pose (R := SendQueue.Rejected). pose (W := SendQueue.Waiting).
  pose (new := SendQueue.mkLink P P W).
  exists [SendQueue.mkLink R F (SendQueue.Finished false);
          SendQueue.mkLink P P SendQueue.Running; new].
  assert (E : SendQueue.exec SendQueue.init
      [SendQueue.LSend; SendQueue.LSend; SendQueue.LStart 0; SendQueue.LSend;
       SendQueue.LFinish 0 false; SendQueue.LCatch 0; SendQueue.LStart 1]
      [SendQueue.mkLink R F (SendQueue.Finished false);
       SendQueue.mkLink P P SendQueue.Running; new]).
  { apply (SendQueue.exec_snoc _
             [SendQueue.LSend; SendQueue.LSend; SendQueue.LStart 0;
              SendQueue.LSend; SendQueue.LFinish 0 false; SendQueue.LCatch 0]
             [SendQueue.mkLink R F (SendQueue.Finished false); new; new]).
    2:{ apply SendQueue.step_react, SendQueue.react_later, SendQueue.react_here.
        apply SendQueue.ls_start. reflexivity. }
    apply (SendQueue.exec_snoc _
             [SendQueue.LSend; SendQueue.LSend; SendQueue.LStart 0;
              SendQueue.LSend; SendQueue.LFinish 0 false]
             [SendQueue.mkLink R P (SendQueue.Finished false); new; new]).
    2:{ apply SendQueue.step_react, SendQueue.react_here.
        apply SendQueue.ls_catch. discriminate. }
    apply (SendQueue.exec_snoc _
             [SendQueue.LSend; SendQueue.LSend; SendQueue.LStart 0;
              SendQueue.LSend]
             [SendQueue.mkLink P P SendQueue.Running; new; new]).
    2:{ apply SendQueue.step_react, SendQueue.react_here.
        apply (SendQueue.ls_finish _ _ _ false). }
    apply (SendQueue.exec_snoc _
             [SendQueue.LSend; SendQueue.LSend; SendQueue.LStart 0]
             [SendQueue.mkLink P P SendQueue.Running; new]).
    2:{ apply (SendQueue.step_send [SendQueue.mkLink P P SendQueue.Running; new]). }
    apply (SendQueue.exec_snoc _ [SendQueue.LSend; SendQueue.LSend] [new; new]).
    2:{ apply SendQueue.step_react, SendQueue.react_here.
        apply SendQueue.ls_start. reflexivity. }
    apply (SendQueue.exec_snoc _ [SendQueue.LSend] [new]).
    2:{ apply (SendQueue.step_send [new]). }
    apply (SendQueue.exec_snoc _ [] []).
    2:{ apply (SendQueue.step_send []). }
    apply SendQueue.exec_nil. }
  split; [exact E|].
  destruct (send_queue_serializes _ _ E) as (Len & One & _).
  split; [reflexivity | exact Len].
Defined.

(* ===================================================================== *)
(** ** One attempt, in detail                                             *)
(* ===================================================================== *)

Section AttemptDetail.

Lemma new_events_app w w' evs :
  events w' = events w ++ evs -> new_events w w' = evs.
Proof.
  intros E. unfold new_events. rewrite E.
  rewrite skipn_app, skipn_all, Nat.sub_diag. reflexivity.
Qed.

Lemma connects_app a b : connects (a ++ b) = (connects a + connects b)%nat.
Proof.
  induction a as [|e a IH]; [reflexivity|].
  destruct e; cbn; rewrite ?IH; reflexivity.
Qed.

Lemma writes_app a b : writes (a ++ b) = writes a ++ writes b.
Proof.
  induction a as [|e a IH]; [reflexivity|].
  destruct e; cbn; rewrite ?IH; reflexivity.
Qed.

(** Unfolds one attempt on a world given by its fields. *)
Ltac run_attempt :=
  cbv beta iota zeta delta
    [attemptExecute bind try_catch next_attempt on_close ensureConnected
     client_write race_read _forceDisconnect sleep set_socket emit throw
     ret env attempts _connected _client heap next events fst snd
     connected io_ok transfer_ok reads_ok response_of attempt_error
     success_events] in *.

(** Everything about one attempt that the statements below use. *)
Lemma attempt_summary cmd p n w :
  let io := env w (attempts w) in
  let reconnect := negb (connected w) || peer_closed io in
  let r := fst (attemptExecute cmd p n w) in
  let w' := snd (attemptExecute cmd p n w) in
  exists evs,
    events w' = events w ++ evs /\
    attempts w' = S (attempts w) /\ env w' = env w /\
    (connects evs <= 1)%nat /\ (List.length (writes evs) <= 1)%nat /\
    (connects evs = if reconnect then 1%nat else 0%nat) /\
    delays evs = [] /\ submitted evs = [] /\
    (forall f, In f (writes evs) -> f = rawHex cmd p) /\
    match r with
    | Ok v =>
        connected w' = true /\ v = response_of n io /\
        transfer_ok n io = true /\
        (reconnect = true -> io_connect io = ConnectOk) /\
        evs = success_events cmd p n reconnect
    | Throw e =>
        connected w' = false /\
        (reconnect = true -> io_ok n io = false /\ e = attempt_error io) /\
        (reconnect = false -> transfer_ok n io = false) /\
        (reconnect = true -> io_connect io <> ConnectOk ->
         evs = [EvConnect]) /\
        ~ In (EvSleep 250) evs
    end.
Proof.
  destruct w as [env0 att0 conn cl hp nx evs0].
  run_attempt.
  destruct (env0 att0) as [pc ci wi ri].
  cbv beta iota delta [peer_closed io_connect io_write io_read].
  destruct pc, conn, cl, ci, wi, ri, (0 <? n) eqn:En;
    cbv beta iota zeta delta
      [andb orb negb fst snd events attempts env heap next _connected _client];
    repeat rewrite <- app_assoc; cbn [app];
    (eexists; split; [reflexivity|]);
    cbn [connects writes delays submitted List.length app];
    repeat split; try reflexivity; try lia; try discriminate;
    try (intros; discriminate); try (intros; congruence);
    try (intros H; cbn [In] in H; intuition discriminate);
    try (intros f H; cbn [In] in H; intuition congruence).
Qed.

(** From a disconnected client an attempt starts by opening a
    connection. *)
Lemma attempt_connects_first cmd p n w :
  connected w = false ->
  exists evs,
    events (snd (attemptExecute cmd p n w)) = events w ++ EvConnect :: evs.
Proof.
  destruct w as [env0 att0 conn cl hp nx evs0].
  run_attempt.
  destruct (env0 att0) as [pc ci wi ri].
  cbv beta iota delta [peer_closed io_connect io_write io_read].
  intros Hc.
  destruct pc, conn, cl; try discriminate Hc;
    destruct ci, wi, ri, (0 <? n);
    cbv beta iota zeta delta
      [andb orb negb fst snd events attempts env heap next _connected _client];
    repeat rewrite <- app_assoc; cbn [app];
    eexists; reflexivity.
Qed.

(** The retry loop from a disconnected client, when the network lets the
    attempt number [k] (counting from 0) be the first to succeed. *)
Lemma retry_recovers cmd p n : forall k fuel attempt lastErr w,
  connected w = false -> 0 <= attempt -> attempt + Z.of_nat k <= 3 ->
  (k < fuel)%nat ->
  (forall i, (i < k)%nat -> io_ok n (env w (attempts w + i)) = false) ->
  io_ok n (env w (attempts w + k)) = true ->
  let res := retry_loop (attemptExecute cmd p n) fuel attempt lastErr w in
  exists evs,
    events (snd res) = events w ++ evs /\
    fst res = Ok (response_of n (env w (attempts w + k))) /\
    attempts (snd res) = (attempts w + S k)%nat /\
    env (snd res) = env w /\ connected (snd res) = true /\
    delays evs =
      map (fun i => SEND_BASE_DELAY_MS * 2 ^ (attempt + Z.of_nat i)) (seq 0 k) /\
    connects evs = S k /\ submitted evs = [].
Proof.
  induction k as [|k IH]; intros fuel attempt lastErr w Hc Ha Hk Hf Hfail Hok;
    (destruct fuel as [|fuel]; [lia|]); cbn [retry_loop];
    unfold SEND_MAX_RETRIES;
    (destruct (Z.leb_spec attempt 3) as [_|]; [|lia]);
    unfold try_catch;
    destruct (attempt_summary cmd p n w)
      as (e1 & E1 & A1 & V1 & _ & _ & Kc1 & D1 & S1 & _ & R1);
    rewrite Hc in Kc1, R1; cbn [negb orb] in Kc1, R1;
    destruct (attemptExecute cmd p n w) as [[v|e] w1]; cbn [fst snd] in *.
  - rewrite Nat.add_0_r in Hok.
    destruct R1 as (Hc1 & -> & _ & _ & _).
    exists e1. rewrite Nat.add_0_r. repeat split; auto; lia.
  - rewrite Nat.add_0_r in Hok.
    destruct R1 as (_ & R1 & _). destruct (R1 eq_refl) as [Hno _]. congruence.
  - pose proof (Hfail 0%nat ltac:(lia)) as H0. rewrite Nat.add_0_r in H0.
    destruct R1 as (_ & _ & T1 & K1 & _).
    unfold io_ok in H0. rewrite (K1 eq_refl) in H0. congruence.
  - destruct R1 as (Hc1 & _).
    destruct (Z.ltb_spec attempt 3) as [_|]; [|lia].
    unfold bind, delay, emit. cbn [fst snd].
    set (w2 := mkWorld (env w1) (attempts w1) (_connected w1) (_client w1)
                       (heap w1) (next w1)
                       (events w1 ++ [EvDelay (SEND_BASE_DELAY_MS * 2 ^ attempt)])).
    assert (Hc2 : connected w2 = false) by exact Hc1.
    assert (A2 : attempts w2 = S (attempts w)) by exact A1.
    assert (V2 : env w2 = env w) by exact V1.
    destruct (IH fuel (attempt + 1) e w2 Hc2 ltac:(lia) ltac:(lia) ltac:(lia))
      as (e2 & E2 & F2 & A3 & V3 & Kc3 & D2 & N2 & S2).
    { intros i Hi. rewrite A2, V2.
      replace (S (attempts w) + i)%nat with (attempts w + S i)%nat by lia.
      apply Hfail. lia. }
    { rewrite A2, V2.
      replace (S (attempts w) + k)%nat with (attempts w + S k)%nat by lia.
      exact Hok. }
    exists (e1 ++ EvDelay (SEND_BASE_DELAY_MS * 2 ^ attempt) :: e2).
    rewrite E2, F2, A3, V3, Kc3, A2, V2. cbn [events w2].
    rewrite E1. rewrite <- !app_assoc. cbn [app].
    rewrite delays_app, connects_app, submitted_app. cbn [delays connects submitted].
    rewrite D1, S1, Kc1, D2, N2, S2.
    replace (S (attempts w) + k)%nat with (attempts w + S k)%nat by lia.
    repeat split; try lia.
    cbn [seq map app]. rewrite Z.add_0_r. f_equal.
    rewrite <- seq_shift, map_map. apply map_ext. intros i.
    f_equal. f_equal. lia.
Qed.

(** The retry loop from a disconnected client, when the network lets no
    attempt succeed. *)
Lemma retry_exhausts cmd p n : forall k fuel attempt lastErr w,
  connected w = false -> attempt = 3 - Z.of_nat k -> (k <= 3)%nat ->
  (k < fuel)%nat ->
  (forall i, (i <= k)%nat -> io_ok n (env w (attempts w + i)) = false) ->
  let res := retry_loop (attemptExecute cmd p n) fuel attempt lastErr w in
  exists evs,
    events (snd res) = events w ++ evs /\
    fst res = Throw (attempt_error (env w (attempts w + k))) /\
    attempts (snd res) = (attempts w + S k)%nat /\
    env (snd res) = env w /\ connected (snd res) = false /\
    delays evs =
      map (fun i => SEND_BASE_DELAY_MS * 2 ^ (attempt + Z.of_nat i)) (seq 0 k) /\
    connects evs = S k /\ submitted evs = [].
Proof.
  induction k as [|k IH]; intros fuel attempt lastErr w Hc Ha Hk Hf Hfail;
    (destruct fuel as [|fuel]; [lia|]); cbn [retry_loop];
    unfold SEND_MAX_RETRIES;
    (destruct (Z.leb_spec attempt 3) as [_|]; [|lia]);
    unfold try_catch;
    destruct (attempt_summary cmd p n w)
      as (e1 & E1 & A1 & V1 & _ & _ & Kc1 & D1 & S1 & _ & R1);
    rewrite Hc in Kc1, R1; cbn [negb orb] in Kc1, R1;
    pose proof (Hfail 0%nat ltac:(lia)) as H0; rewrite Nat.add_0_r in H0;
    destruct (attemptExecute cmd p n w) as [[v|e] w1]; cbn [fst snd] in *;
    try (destruct R1 as (_ & _ & T1 & K1 & _);
         unfold io_ok in H0; rewrite (K1 eq_refl) in H0; congruence).
  - destruct R1 as (Hc1 & R1 & _). destruct (R1 eq_refl) as [_ ->].
    destruct (Z.ltb_spec attempt 3) as [|_]; [lia|].
    unfold throw. cbn [fst snd].
    exists e1. rewrite Nat.add_0_r. repeat split; auto; lia.
  - destruct R1 as (Hc1 & _).
    destruct (Z.ltb_spec attempt 3) as [_|]; [|lia].
    unfold bind, delay, emit. cbn [fst snd].
    set (w2 := mkWorld (env w1) (attempts w1) (_connected w1) (_client w1)
                       (heap w1) (next w1)
                       (events w1 ++ [EvDelay (SEND_BASE_DELAY_MS * 2 ^ attempt)])).
    assert (Hc2 : connected w2 = false) by exact Hc1.
    assert (A2 : attempts w2 = S (attempts w)) by exact A1.
    assert (V2 : env w2 = env w) by exact V1.
    destruct (IH fuel (attempt + 1) e w2 Hc2 ltac:(lia) ltac:(lia) ltac:(lia))
      as (e2 & E2 & F2 & A3 & V3 & Kc3 & D2 & N2 & S2).
    { intros i Hi. rewrite A2, V2.
      replace (S (attempts w) + i)%nat with (attempts w + S i)%nat by lia.
      apply Hfail. lia. }
    exists (e1 ++ EvDelay (SEND_BASE_DELAY_MS * 2 ^ attempt) :: e2).
    rewrite E2, F2, A3, V3, Kc3, A2, V2. cbn [events w2].
    rewrite E1. rewrite <- !app_assoc. cbn [app].
    rewrite delays_app, connects_app, submitted_app. cbn [delays connects submitted].
    rewrite D1, S1, Kc1, D2, N2, S2.
    replace (S (attempts w) + k)%nat with (attempts w + S k)%nat by lia.
    repeat split; try lia.
    cbn [seq map app]. rewrite Z.add_0_r. f_equal.
    rewrite <- seq_shift, map_map. apply map_ext. intros i.
    f_equal. f_equal. lia.
Qed.

End AttemptDetail.

Section SendDetail.

Lemma executeWithRetries_loop att w :
  executeWithRetries att w = retry_loop att 4 0 ThrownNull w.
Proof. reflexivity. Qed.

Lemma backoff_list k :
  (k <= 3)%nat ->
  map (fun i => SEND_BASE_DELAY_MS * 2 ^ (0 + Z.of_nat i)) (seq 0 k) =
  firstn k [200; 400; 800].
Proof. destruct k as [|[|[|[|k]]]]; intros H; try lia; reflexivity. Qed.

(** [send] is its [EvSubmit] followed by the retry loop. *)
Lemma send_as_loop cmd p n w :
  let w0 := snd (emit (EvSubmit cmd p n) w) in
  send cmd p n w = retry_loop (attemptExecute cmd p n) 4 0 ThrownNull w0 /\
  events w0 = events w ++ [EvSubmit cmd p n] /\
  attempts w0 = attempts w /\ env w0 = env w /\ connected w0 = connected w.
Proof. unfold send, bind, emit. cbn. repeat split. Qed.

(** A call whose first attempt goes through. *)
Lemma send_first_try cmd p n w :
  let io := env w (attempts w) in
  let reconnect := negb (connected w) || peer_closed io in
  transfer_ok n io = true ->
  (reconnect = true -> io_connect io = ConnectOk) ->
  let w' := snd (send cmd p n w) in
  fst (send cmd p n w) = Ok (response_of n io) /\
  events w' = events w ++ EvSubmit cmd p n :: success_events cmd p n reconnect /\
  attempts w' = S (attempts w) /\ env w' = env w /\ connected w' = true.
Proof.
  intros io reconnect Ht Hr.
  destruct (send_as_loop cmd p n w) as (-> & E0 & A0 & V0 & Kc0).
  set (w0 := snd (emit (EvSubmit cmd p n) w)) in *.
  cbn [retry_loop]. unfold SEND_MAX_RETRIES. cbn [Z.leb Z.compare].
  unfold try_catch.
  destruct (attempt_summary cmd p n w0)
    as (e1 & E1 & A1 & V1 & _ & _ & _ & _ & _ & _ & R1).
  rewrite A0, V0, Kc0 in R1. fold io in R1. fold reconnect in R1.
  destruct (attemptExecute cmd p n w0) as [[v|e] w1]; cbn [fst snd] in *.
  - destruct R1 as (Hc & -> & _ & _ & ->).
    rewrite E1, E0, <- app_assoc, A1, A0, V1, V0. cbn [app]. auto.
  - exfalso. destruct R1 as (_ & K1 & K2 & _).
    destruct reconnect eqn:Er.
    + destruct (K1 eq_refl) as [Hno _]. unfold io_ok in Hno.
      rewrite (Hr eq_refl) in Hno. congruence.
    + rewrite (K2 eq_refl) in Ht. discriminate.
Qed.

(** The frames a call writes, and the connections it opens. *)
Lemma retry_loop_writes cmd p n : forall fuel attempt lastErr w,
  let res := retry_loop (attemptExecute cmd p n) fuel attempt lastErr w in
  exists evs,
    events (snd res) = events w ++ evs /\
    (forall f, In f (writes evs) -> f = rawHex cmd p) /\
    (attempts w <= attempts (snd res))%nat /\
    (List.length (writes evs) <= attempts (snd res) - attempts w)%nat /\
    (connects evs <= attempts (snd res) - attempts w)%nat.
Proof.
  induction fuel as [|fuel IH]; intros attempt lastErr w; cbn [retry_loop].
  - exists []. unfold throw. cbn. rewrite app_nil_r.
    repeat split; try lia; try (intros f []).
  - destruct (attempt <=? SEND_MAX_RETRIES).
    2:{ exists []. unfold throw. cbn. rewrite app_nil_r.
        repeat split; try lia; try (intros f []). }
    unfold try_catch.
    destruct (attempt_summary cmd p n w)
      as (e1 & E1 & A1 & V1 & Kc1 & W1 & _ & _ & _ & F1 & _).
    destruct (attemptExecute cmd p n w) as [[v|e] w1]; cbn [fst snd] in *.
    + exists e1. rewrite A1. repeat split; auto; lia.
    + destruct (attempt <? SEND_MAX_RETRIES).
      2:{ exists e1. unfold throw. cbn [fst snd]. rewrite A1.
          repeat split; auto; lia. }
      unfold bind, delay, emit. cbn [fst snd].
      set (w2 := mkWorld _ _ _ _ _ _ _).
      destruct (IH (attempt + 1) e w2) as (e2 & E2 & F2 & A2 & W2 & Kc2).
      change (attempts w2) with (attempts w1) in A2, W2, Kc2.
      exists (e1 ++ EvDelay (SEND_BASE_DELAY_MS * 2 ^ attempt) :: e2).
      rewrite E2. cbn [events w2]. rewrite E1, <- !app_assoc. cbn [app].
      rewrite writes_app, connects_app. cbn [writes connects].
      rewrite length_app.
      repeat split; try lia.
      intros f Hf. apply in_app_or in Hf. destruct Hf; auto.
Qed.

(** Every frame a call writes is its own. *)
Lemma send_frames_only cmd p n w :
  forall f, In f (frames_written w (snd (send cmd p n w))) -> f = rawHex cmd p.
Proof.
  destruct (send_as_loop cmd p n w) as (Es & E0 & A0 & V0 & Kc0).
  set (w0 := snd (emit (EvSubmit cmd p n) w)) in *.
  destruct (retry_loop_writes cmd p n 4 0 ThrownNull w0)
    as (evs & E & F & _).
  rewrite <- Es in E. unfold frames_written.
  rewrite (new_events_app w _ (EvSubmit cmd p n :: evs))
    by (rewrite E, E0, <- app_assoc; reflexivity).
  exact F.
Qed.

End SendDetail.

(** X1.  From a disconnected client, when the network makes the first
    [k] attempts fail (k at most 3) and lets the next one through,
    [send] returns the response of that attempt after exactly [k + 1]
    attempts, having waited the first [k] of 200, 400 and 800 ms and
    opened one connection per attempt. *)
Theorem send_recovers cmd parameter responseLength w (k : nat) :
  connected w = false -> (k <= 3)%nat ->
  (forall i, (i < k)%nat ->
             io_ok responseLength (env w (attempts w + i)) = false) ->
  io_ok responseLength (env w (attempts w + k)) = true ->
  let w' := snd (send cmd parameter responseLength w) in
  fst (send cmd parameter responseLength w) =
    Ok (response_of responseLength (env w (attempts w + k))) /\
  attempts w' = (attempts w + S k)%nat /\
  delays (new_events w w') = firstn k [200; 400; 800] /\
  connects (new_events w w') = S k.
Proof.
  intros Hc Hk Hfail Hok.
  destruct (send_as_loop cmd parameter responseLength w)
    as (-> & E0 & A0 & V0 & Kc0).
  set (w0 := snd (emit (EvSubmit cmd parameter responseLength) w)) in *.
  destruct (retry_recovers cmd parameter responseLength k 4 0 ThrownNull w0)
    as (evs & E & F & A & V & C & D & N & S); try lia.
  - rewrite Kc0. exact Hc.
  - intros i Hi. rewrite A0, V0. apply Hfail. exact Hi.
  - rewrite A0, V0. exact Hok.
  - cbv zeta. rewrite F, A, A0, V0.
    rewrite (new_events_app w _ (EvSubmit cmd parameter responseLength :: evs))
      by (rewrite E, E0, <- app_assoc; reflexivity).
    cbn [delays connects]. rewrite D, N, backoff_list by lia. auto.
Qed.

Lemma send_recovers_witness :
  let failing := mkIO false (ConnectError (SocketError 7)) None ReadUndefined in
  let w := mkWorld (fun i => if (i <? 2)%nat then failing
                             else answering (status_bytes 1 205))
                   0 false false (heap (steady_world failing)) 0 [] in
  let w' := snd (send CMD_GET_STATUS NO_PARAMETER 17 w) in
  fst (send CMD_GET_STATUS NO_PARAMETER 17 w) =
    Ok (JS.Buffer_toString_hex (status_bytes 1 205)) /\
  attempts w' = 3%nat /\ delays (new_events w w') = [200; 400].
Proof.
  intros failing w w'.
  destruct (send_recovers CMD_GET_STATUS NO_PARAMETER 17 w 2 eq_refl
              ltac:(lia)) as (F & A & D & _).
  - intros i Hi. destruct i as [|[|i]]; [reflexivity | reflexivity | lia].
  - reflexivity.
  - fold w' in A, D. rewrite F. repeat split; assumption.
Defined.

(** X2.  From a disconnected client, when the network lets none of the
    next four attempts through, [send] throws what the fourth attempt
    threw (the connect error, 'connect timeout', the write error, the
    read error or 'send() read timeout'), after four attempts, four
    connections and waits of 200, 400 and 800 ms; it ends disconnected. *)
Theorem send_exhausted cmd parameter responseLength w :
  connected w = false ->
  (forall i, (i <= 3)%nat ->
             io_ok responseLength (env w (attempts w + i)) = false) ->
  let w' := snd (send cmd parameter responseLength w) in
  fst (send cmd parameter responseLength w) =
    Throw (attempt_error (env w (attempts w + 3))) /\
  attempts w' = (attempts w + 4)%nat /\
  delays (new_events w w') = [200; 400; 800] /\
  connects (new_events w w') = 4%nat /\
  connected w' = false.
Proof.
  intros Hc Hfail.
  destruct (send_as_loop cmd parameter responseLength w)
    as (-> & E0 & A0 & V0 & Kc0).
  set (w0 := snd (emit (EvSubmit cmd parameter responseLength) w)) in *.
  destruct (retry_exhausts cmd parameter responseLength 3 4 0 ThrownNull w0)
    as (evs & E & F & A & V & C & D & N & S); try lia.
  - rewrite Kc0. exact Hc.
  - intros i Hi. rewrite A0, V0. apply Hfail. exact Hi.
  - cbv zeta. rewrite F, A, C, A0, V0.
    rewrite (new_events_app w _ (EvSubmit cmd parameter responseLength :: evs))
      by (rewrite E, E0, <- app_assoc; reflexivity).
    cbn [delays connects]. rewrite D, N. auto.
Qed.

Lemma send_exhausted_witness :
  let w := steady_world (mkIO false ConnectTimeout None ReadUndefined) in
  fst (send CMD_TOGGLE NO_PARAMETER 17 w) = Throw (Error "connect timeout") /\
  connected (snd (send CMD_TOGGLE NO_PARAMETER 17 w)) = false.
Proof.
  intros w.
  destruct (send_exhausted CMD_TOGGLE NO_PARAMETER 17 w eq_refl)
    as (F & _ & _ & _ & C).
  - intros i _. reflexivity.
  - split; [exact F | exact C].
Defined.

(** X3.  Whatever makes an attempt fail (the connection, the write, the
    read, the read timeout), the attempt leaves the client disconnected,
    so that the attempt that follows, whatever it sends, starts by
    opening a connection. *)
Theorem failed_attempt_disconnects cmd parameter responseLength w e :
  fst (attemptExecute cmd parameter responseLength w) = Throw e ->
  let w1 := snd (attemptExecute cmd parameter responseLength w) in
  connected w1 = false /\
  forall cmd' parameter' responseLength',
    exists evs,
      new_events w1 (snd (attemptExecute cmd' parameter' responseLength' w1)) =
        EvConnect :: evs.
Proof.
  intros Hf w1.
  assert (Hc : connected w1 = false).
  { destruct (attempt_summary cmd parameter responseLength w)
      as (evs & _ & _ & _ & _ & _ & _ & _ & _ & _ & R).
    rewrite Hf in R. destruct R as (Kc & _). exact Kc. }
  split; [exact Hc|].
  intros cmd' parameter' responseLength'.
  destruct (attempt_connects_first cmd' parameter' responseLength' w1 Hc)
    as (evs & E).
  exists evs. apply new_events_app. exact E.
Qed.

Lemma failed_attempt_disconnects_witness :
  let gone := mkIO false ConnectOk None (ReadError (SocketError 104)) in
  let w := steady_world gone in
  let w1 := snd (attemptExecute CMD_GET_STATUS NO_PARAMETER 17 w) in
  fst (attemptExecute CMD_GET_STATUS NO_PARAMETER 17 w) =
    Throw (SocketError 104) /\
  connected w1 = false /\
  exists evs,
    new_events w1 (snd (attemptExecute CMD_TOGGLE NO_PARAMETER 17 w1)) =
      EvConnect :: evs.
Proof.
  intros gone w w1.
  destruct (failed_attempt_disconnects CMD_GET_STATUS NO_PARAMETER 17 w
              (SocketError 104) eq_refl) as (Kc & Kn).
  split; [reflexivity|]. split; [exact Kc|].
  exact (Kn CMD_TOGGLE NO_PARAMETER 17).
Defined.





(** X6.  The connection is kept between calls.  For a client none of
    whose reads was rejected so far (a rejected read leaves its timeout
    armed in the source, and the timeout tears the connection down when
    it fires), two calls in a row whose attempts go through, the peer
    not closing in between, open one connection and write their two
    frames over it, in order. *)
Theorem two_sends_one_connection cmd1 p1 n1 cmd2 p2 n2 w :
  no_stale_timer w = true ->
  connected w = false ->
  io_ok n1 (env w (attempts w)) = true ->
  peer_closed (env w (S (attempts w))) = false ->
  transfer_ok n2 (env w (S (attempts w))) = true ->
  let w1 := snd (send cmd1 p1 n1 w) in
  let w2 := snd (send cmd2 p2 n2 w1) in
  fst (send cmd1 p1 n1 w) = Ok (response_of n1 (env w (attempts w))) /\
  fst (send cmd2 p2 n2 w1) = Ok (response_of n2 (env w (S (attempts w)))) /\
  connects (new_events w w2) = 1%nat /\
  writes (new_events w w2) = [rawHex cmd1 p1; rawHex cmd2 p2] /\
  submitted (new_events w w2) = [(cmd1, p1, n1); (cmd2, p2, n2)].
Proof.
  intros _ Hc Hok Hpc Ht w1 w2.
  assert (Hconn : io_connect (env w (attempts w)) = ConnectOk /\
                  transfer_ok n1 (env w (attempts w)) = true).
  { unfold io_ok in Hok. destruct (io_connect (env w (attempts w)));
      try discriminate. auto. }
  destruct Hconn as [Hco Ht1].
  destruct (send_first_try cmd1 p1 n1 w Ht1 (fun _ => Hco))
    as (F1 & E1 & A1 & V1 & Kc1).
  fold w1 in E1, A1, V1, Kc1. rewrite Hc in E1. cbn [negb orb] in E1.
  assert (Hr2 : negb (connected w1) || peer_closed (env w1 (attempts w1)) = false)
    by (rewrite Kc1, V1, A1, Hpc; reflexivity).
  destruct (send_first_try cmd2 p2 n2 w1) as (F2 & E2 & A2 & V2 & Kc2).
  { rewrite V1, A1. exact Ht. }
  { rewrite Hr2. discriminate. }
  fold w2 in E2. rewrite Hr2 in E2. rewrite V1, A1 in F2.
  split; [exact F1|]. split; [exact F2|].
  rewrite (new_events_app w w2
             ((EvSubmit cmd1 p1 n1 :: success_events cmd1 p1 n1 true) ++
              EvSubmit cmd2 p2 n2 :: success_events cmd2 p2 n2 false))
    by (rewrite E2, E1, <- app_assoc; reflexivity).
  unfold success_events.
  destruct (0 <? n1), (0 <? n2); repeat split.
Qed.

Lemma two_sends_one_connection_witness :
  let w := steady_world (answering (status_bytes 1 205)) in
  let w2 := snd (send CMD_SET_COLOR "ff0000" 0
                      (snd (send CMD_GET_STATUS NO_PARAMETER 17 w))) in
  connects (new_events w w2) = 1%nat /\
  writes (new_events w w2) =
    [[56; 0; 0; 0; 16; 131]; [56; 255; 0; 0; 34; 131]].
Proof.
  intros w w2.
  destruct (two_sends_one_connection CMD_GET_STATUS NO_PARAMETER 17
              CMD_SET_COLOR "ff0000" 0 w eq_refl eq_refl eq_refl eq_refl
              eq_refl)
    as (_ & _ & C & W & _).
  fold w2 in C, W. split; [exact C | rewrite W; reflexivity].
Defined.

(** X7.  Whatever the network does, a call of [send] writes nothing but
    its own frame, at most once per attempt and so at most four times,
    and opens at most one connection per attempt. *)
Theorem send_writes_only_its_frame cmd parameter responseLength w :
  let w' := snd (send cmd parameter responseLength w) in
  let made := (attempts w' - attempts w)%nat in
  (forall f, In f (writes (new_events w w')) -> f = rawHex cmd parameter) /\
  (List.length (writes (new_events w w')) <= made)%nat /\
  (connects (new_events w w') <= made)%nat /\
  (made <= 4)%nat.
Proof.
  intros w' made.
  destruct (send_run cmd parameter responseLength w)
    as (k & _ & _ & Hk & (_ & Hatt & _) & _).
  fold w' in Hatt.
  destruct (send_as_loop cmd parameter responseLength w)
    as (Es & E0 & A0 & V0 & Kc0).
  set (w0 := snd (emit (EvSubmit cmd parameter responseLength) w)) in *.
  destruct (retry_loop_writes cmd parameter responseLength 4 0 ThrownNull w0)
    as (evs & E & F & A & W & C).
  rewrite <- Es in E, A, W, C. fold w' in E, A, W, C. rewrite A0 in A, W, C.
  rewrite (new_events_app w w' (EvSubmit cmd parameter responseLength :: evs))
    by (rewrite E, E0, <- app_assoc; reflexivity).
  cbn [writes connects]. fold made in W, C.
  repeat split; auto. unfold made. lia.
Qed.

Lemma send_writes_only_its_frame_witness :
  let w := steady_world (answering []) in
  nth 0 (writes (new_events w (snd (send CMD_SET_COLOR "ff0000" 0 w)))) [] =
  [56; 255; 0; 0; 34; 131].
Proof.
  intros w.
  destruct (send_writes_only_its_frame CMD_SET_COLOR "ff0000" 0 w) as (A & _).
  set (l := writes (new_events w (snd (send CMD_SET_COLOR "ff0000" 0 w)))) in *.
  assert (I : In (nth 0 l []) l) by (vm_compute; left; reflexivity).
  rewrite (A _ I). reflexivity.
Defined.

(* ===================================================================== *)
(** ** The frames of the setters                                          *)
(* ===================================================================== *)

Section SetterFrames.

Lemma forall_range (P : Z -> bool) (lo : nat) (len : nat) :
  forallb P (map Z.of_nat (seq lo len)) = true ->
  forall n, Z.of_nat lo <= n < Z.of_nat lo + Z.of_nat len -> P n = true.
Proof.
  intros H n Hn. rewrite forallb_forall in H. apply H.
  apply in_map_iff. exists (Z.to_nat n). split; [lia | apply in_seq; lia].
Qed.

Lemma frame_eqb_eq a : forall b, frame_eqb a b = true -> a = b.
Proof.
  induction a as [|x a IH]; intros [|y b] H; cbn in H; try discriminate;
    [reflexivity|].
  apply andb_prop in H. destruct H as [H1 H2].
  apply Z.eqb_eq in H1. subst. f_equal. apply IH. exact H2.
Qed.

Lemma intToHex_is_byte_hex b :
  is_byte b -> intToHex (Some (JS.Num b)) = byte_hex b.
Proof.
  intros Hb. apply String.eqb_eq.
  exact (forall_byte
    (fun n => String.eqb (intToHex (Some (JS.Num n))) (byte_hex n))
    ltac:(vm_compute; reflexivity) b Hb).
Qed.

Lemma byte_hex_spells b :
  is_byte b ->
  hex_bytes_upto 3 (byte_hex b) /\ JS.Buffer_from_hex (byte_hex b) = [b].
Proof.
  intros Hb. destruct (byte_digits b Hb) as [H1 H2]. split.
  - repeat split; [|cbn; lia]. unfold byte_hex. cbn [all_hex].
    rewrite (unhex_hexDigit _ H1), (unhex_hexDigit _ H2). reflexivity.
  - unfold byte_hex. cbn [JS.Buffer_from_hex].
    rewrite (unhex_hexDigit _ H1), (unhex_hexDigit _ H2).
    f_equal. unfold is_byte in Hb. rewrite (Z.div_mod b 16) at 3 by lia. ring.
Qed.

(** The frame of a command whose parameter is one byte through
    [intToHex]. *)
Lemma rawHex_of_byte cmd b :
  hex_bytes_upto 1 cmd -> String.length cmd = 2%nat -> is_byte b ->
  rawHex cmd (intToHex (Some (JS.Num b))) =
  [56; b; 0; 0] ++ JS.Buffer_from_hex cmd ++ [131].
Proof.
  intros Hc Hl Hb. rewrite (intToHex_is_byte_hex b Hb).
  destruct (byte_hex_spells b Hb) as [Hp Hd].
  rewrite (rawHex_layout cmd (byte_hex b) Hc Hl Hp), Hd. reflexivity.
Qed.

Lemma hex_cmd_ok cmd :
  all_hex cmd = true -> String.length cmd = 2%nat -> hex_bytes_upto 1 cmd.
Proof. intros H L. repeat split; [exact H | rewrite L; reflexivity | lia]. Qed.

Lemma rawHex_negative cmd n :
  n < 0 -> rawHex cmd (intToHex (Some (JS.Num n))) = [56].
Proof.
  intros Hn. destruct (intToHex_negative n Hn) as (s & ->).
  unfold rawHex, CMD_PREFIX, JS.padEnd.
  cbn [String.append]. cbn [JS.Buffer_from_hex].
  change (JS.unhex "3") with (Some 3). change (JS.unhex "8") with (Some 8).
  cbv iota. change (JS.unhex "-") with (@None Z).
  destruct ((s ++ JS.repeat_char "0" (6 - String.length (String "-" s))) ++
            cmd ++ CMD_SUFFIX)%string; reflexivity.
Qed.

(** A write-only command whose parameter is one byte: what is handed to
    the queue, what is written whatever the network does, and what is
    written when the first attempt goes through. *)
Lemma byte_send cmd opcode b w :
  all_hex cmd = true -> String.length cmd = 2%nat ->
  JS.Buffer_from_hex cmd = [opcode] -> is_byte b ->
  let io := env w (attempts w) in
  let run := send cmd (intToHex (Some (JS.Num b))) 0 in
  let w' := snd (run w) in
  submitted (new_events w w') = [(cmd, byte_hex b, 0)] /\
  (forall f, In f (frames_written w w') -> f = [56; b; 0; 0; opcode; 131]) /\
  (transfer_ok 0 io = true ->
   (negb (connected w) || peer_closed io = true -> io_connect io = ConnectOk) ->
   fst (run w) = Ok EmptyString /\
   frames_written w w' = [[56; b; 0; 0; opcode; 131]]).
Proof.
  intros Hh Hl Hop Hb io run w'.
  assert (R : rawHex cmd (intToHex (Some (JS.Num b))) = [56; b; 0; 0; opcode; 131]).
  { rewrite rawHex_of_byte;
      [rewrite Hop; reflexivity | apply hex_cmd_ok; assumption
      | assumption | assumption]. }
  split; [|split].
  - destruct (send_extends cmd (intToHex (Some (JS.Num b))) 0 w)
      as (evs & Ex & S).
    unfold w', run. rewrite (new_events_extends _ _ _ Ex), S.
    rewrite (intToHex_is_byte_hex _ Hb). reflexivity.
  - intros f Hf. unfold w', run in Hf. apply send_frames_only in Hf.
    rewrite Hf. exact R.
  - intros Ht Hc.
    destruct (send_first_try cmd (intToHex (Some (JS.Num b))) 0 w Ht Hc)
      as (F & E & _).
    split; [exact F|].
    unfold frames_written, w', run.
    rewrite (new_events_app w _ _ E). unfold success_events.
    rewrite R.
    destruct (negb (connected w) || peer_closed (env w (attempts w)));
      reflexivity.
Qed.

End SetterFrames.

(** X8.  For a value from 0 to 255, the setters that pass one number
    through [intToHex] hand the queue one write-only command whose
    parameter is the value in two hex digits, and write a frame whose
    first parameter byte is the value and whose two other parameter
    bytes are zero: brightness (opcode 0x2a), animation speed (0x03),
    animation mode (0x2c), segments (0x2e) and LEDs per segment (0x2d).
    Whatever the network does, nothing else is written; when the first
    attempt goes through, the setter returns the empty string and
    exactly that one frame is written. *)
Theorem byte_setters_frame (b : Z) (w : World) :
  is_byte b ->
  let io := env w (attempts w) in
  let goes_through :=
    transfer_ok 0 io = true /\
    (negb (connected w) || peer_closed io = true -> io_connect io = ConnectOk) in
  let sends (setter : M string) (cmd : string) (opcode : Z) :=
    let w' := snd (setter w) in
    submitted (new_events w w') = [(cmd, byte_hex b, 0)] /\
    (forall f, In f (frames_written w w') -> f = [56; b; 0; 0; opcode; 131]) /\
    (goes_through ->
     fst (setter w) = Ok EmptyString /\
     frames_written w w' = [[56; b; 0; 0; opcode; 131]]) in
  sends (setBrightness (JS.Num b)) CMD_SET_BRIGHTNESS 42 /\
  sends (setAnimationSpeed (JS.Num b)) CMD_SET_SPEED 3 /\
  sends (setAnimationMode (JS.Num b)) CMD_SET_ANIMATION_MODE 44 /\
  sends (setSegments (Some (JS.Num b))) CMD_SET_SEGMENTS 46 /\
  sends (setLedsPerSegment (Some (JS.Num b))) CMD_SET_LEDS_PER_SEGMENT 45.
Proof.
  intros Hb io goes_through sends.
  assert (K : forall cmd opcode,
            all_hex cmd = true -> String.length cmd = 2%nat ->
            JS.Buffer_from_hex cmd = [opcode] ->
            sends (send cmd (intToHex (Some (JS.Num b))) 0) cmd opcode).
  { intros cmd opcode Hh Hl Hop.
    destruct (byte_send cmd opcode b w Hh Hl Hop Hb) as (S & F & G).
    unfold sends. split; [exact S|]. split; [exact F|].
    intros [Ht Hc]. exact (G Ht Hc). }
  split; [exact (K CMD_SET_BRIGHTNESS 42 eq_refl eq_refl eq_refl)|].
  split; [exact (K CMD_SET_SPEED 3 eq_refl eq_refl eq_refl)|].
  split; [exact (K CMD_SET_ANIMATION_MODE 44 eq_refl eq_refl eq_refl)|].
  split; [exact (K CMD_SET_SEGMENTS 46 eq_refl eq_refl eq_refl)|].
  exact (K CMD_SET_LEDS_PER_SEGMENT 45 eq_refl eq_refl eq_refl).
Qed.

Lemma byte_setters_frame_witness :
  let w := steady_world (answering []) in
  frames_written w (snd (setBrightness (JS.Num 128) w)) =
    [[56; 128; 0; 0; 42; 131]] /\
  frames_written w (snd (setAnimationSpeed (JS.Num 128) w)) =
    [[56; 128; 0; 0; 3; 131]] /\
  frames_written w (snd (setAnimationMode (JS.Num 128) w)) =
    [[56; 128; 0; 0; 44; 131]] /\
  frames_written w (snd (setSegments (Some (JS.Num 128)) w)) =
    [[56; 128; 0; 0; 46; 131]] /\
  frames_written w (snd (setLedsPerSegment (Some (JS.Num 128)) w)) =
    [[56; 128; 0; 0; 45; 131]] /\
  submitted (new_events w (snd (setSegments (Some (JS.Num 128)) w))) =
    [(CMD_SET_SEGMENTS, "80"%string, 0)].
Proof.
  intros w.
  assert (G : transfer_ok 0 (env w (attempts w)) = true /\
              (negb (connected w) || peer_closed (env w (attempts w)) = true ->
               io_connect (env w (attempts w)) = ConnectOk))
    by (split; [reflexivity | intros _; reflexivity]).
  destruct (byte_setters_frame 128 w ltac:(unfold is_byte; lia))
    as ((_ & _ & G1) & (_ & _ & G2) & (_ & _ & G3) & (S4 & _ & G4) &
        (_ & _ & G5)).
  destruct (G1 G) as (_ & F1). destruct (G2 G) as (_ & F2).
  destruct (G3 G) as (_ & F3). destruct (G4 G) as (_ & F4).
  destruct (G5 G) as (_ & F5).
  split; [exact F1|]. split; [exact F2|]. split; [exact F3|].
  split; [exact F4|]. split; [exact F5|]. exact S4.
Defined.

(** X9.  A negative value, and [NaN], are not refused: [intToHex] turns
    them into a string that starts with a character that is no hex
    digit, and the frame built from it stops right after the prefix
    byte.  The frame is the single byte 0x38, whatever the opcode. *)
Theorem negative_value_truncates_frame (cmd : string) :
  (forall n, n < 0 -> rawHex cmd (intToHex (Some (JS.Num n))) = [56]) /\
  rawHex cmd (intToHex (Some JS.NaN)) = [56] /\
  (forall n w f, n < 0 ->
     In f (frames_written w (snd (setBrightness (JS.Num n) w))) -> f = [56]).
Proof.
  split; [apply rawHex_negative|]. split; [reflexivity|].
  intros n w f Hn Hf. unfold setBrightness in Hf.
  apply send_frames_only in Hf. rewrite Hf. apply rawHex_negative. exact Hn.
Qed.

Lemma negative_value_truncates_frame_witness :
  -1 < 0 /\ rawHex CMD_SET_BRIGHTNESS (intToHex (Some (JS.Num (-1)))) = [56].
Proof.
  split; [lia|].
  destruct (negative_value_truncates_frame CMD_SET_BRIGHTNESS) as (H & _).
  apply H. lia.
Defined.

(** X10.  A value from 256 to 4095 has three hex digits; they are not
    padded to whole bytes on the left, so that the frame carries the two
    high digits in its first parameter byte and the low digit in the high
    half of the second: for the LEDs-per-segment and the segments
    commands, the parameter bytes are n / 16, 16 * (n mod 16) and 0. *)
Theorem three_digit_value_is_misaligned (n : Z) :
  256 <= n <= 4095 ->
  String.length (intToHex (Some (JS.Num n))) = 3%nat /\
  rawHex CMD_SET_LEDS_PER_SEGMENT (intToHex (Some (JS.Num n))) =
    [56; n / 16; 16 * (n mod 16); 0; 45; 131] /\
  rawHex CMD_SET_SEGMENTS (intToHex (Some (JS.Num n))) =
    [56; n / 16; 16 * (n mod 16); 0; 46; 131].
Proof.
  intros Hn.
  pose proof (forall_range
    (fun n =>
       Nat.eqb (String.length (intToHex (Some (JS.Num n)))) 3 &&
       frame_eqb (rawHex CMD_SET_LEDS_PER_SEGMENT (intToHex (Some (JS.Num n))))
                 [56; n / 16; 16 * (n mod 16); 0; 45; 131] &&
       frame_eqb (rawHex CMD_SET_SEGMENTS (intToHex (Some (JS.Num n))))
                 [56; n / 16; 16 * (n mod 16); 0; 46; 131])
    256 3840 ltac:(vm_compute; reflexivity) n ltac:(lia)) as H.
  cbv beta in H.
  apply andb_prop in H. destruct H as [H H3].
  apply andb_prop in H. destruct H as [H1 H2].
  apply Nat.eqb_eq in H1. apply frame_eqb_eq in H2. apply frame_eqb_eq in H3.
  auto.
Qed.

Lemma three_digit_value_is_misaligned_witness :
  256 <= 300 <= 4095 /\
  rawHex CMD_SET_LEDS_PER_SEGMENT (intToHex (Some (JS.Num 300))) =
    [56; 18; 192; 0; 45; 131].
Proof.
  split; [lia|].
  destruct (three_digit_value_is_misaligned 300 ltac:(lia)) as (_ & H & _).
  rewrite H. reflexivity.
Defined.

(** X11.  [setPresetMode] sends, for every integer, the byte
    min(max(m, 0), 179): one command is submitted, with that byte in two
    hex digits, and every frame written has it as first parameter byte
    (opcode 0x2c).  The byte is always between 0 and 179. *)
Theorem setPresetMode_clamps (m : Z) (w : World) :
  let w' := snd (setPresetMode (JS.Num m) w) in
  0 <= clamp_preset m <= 179 /\
  (0 <= m <= 179 -> clamp_preset m = m) /\
  submitted (new_events w w') =
    [(CMD_SET_DREAM_MODE, byte_hex (clamp_preset m), 0)] /\
  (forall f, In f (frames_written w w') ->
             f = [56; clamp_preset m; 0; 0; 44; 131]).
Proof.
  intros w'.
  assert (Hc : 0 <= clamp_preset m <= 179) by (unfold clamp_preset; lia).
  assert (Hb : is_byte (clamp_preset m)) by (unfold is_byte; lia).
  assert (E : setPresetMode (JS.Num m) w =
              send CMD_SET_DREAM_MODE (intToHex (Some (JS.Num (clamp_preset m)))) 0 w)
    by reflexivity.
  split; [exact Hc|]. split; [unfold clamp_preset; lia|].
  unfold w'. rewrite E. split.
  - destruct (send_extends CMD_SET_DREAM_MODE
                (intToHex (Some (JS.Num (clamp_preset m)))) 0 w) as (evs & X & S).
    rewrite (new_events_extends _ _ _ X), S, (intToHex_is_byte_hex _ Hb).
    reflexivity.
  - intros f Hf. apply send_frames_only in Hf. rewrite Hf.
    rewrite rawHex_of_byte;
      [reflexivity | apply hex_cmd_ok; reflexivity | reflexivity | exact Hb].
Qed.

Lemma setPresetMode_clamps_witness :
  let w := steady_world (answering []) in
  submitted (new_events w (snd (setPresetMode (JS.Num 500) w))) =
    [(CMD_SET_DREAM_MODE, "b3"%string, 0)].
Proof.
  intros w.
  destruct (setPresetMode_clamps 500 w) as (_ & _ & S & _).
  rewrite S. reflexivity.
Defined.

(** X12.  [setWhiteBrightness] raises a value below 1 to 1: for every
    integer up to 255 the frame written carries max(b, 1) as first
    parameter byte (opcode 0x08), so that a zero or negative white
    brightness is sent as 1. *)
Theorem setWhiteBrightness_floor (b : Z) (w : World) :
  b <= 255 ->
  let w' := snd (setWhiteBrightness (JS.Num b) w) in
  submitted (new_events w w') =
    [(CMD_SET_WHITE_BRIGHTNESS, byte_hex (Z.max b 1), 0)] /\
  (forall f, In f (frames_written w w') -> f = [56; Z.max b 1; 0; 0; 8; 131]).
Proof.
  intros Hle w'.
  assert (Hb : is_byte (Z.max b 1)) by (unfold is_byte; lia).
  assert (E : setWhiteBrightness (JS.Num b) w =
              send CMD_SET_WHITE_BRIGHTNESS (intToHex (Some (JS.Num (Z.max b 1)))) 0 w).
  { unfold setWhiteBrightness. cbn [JS.lt].
    destruct (Z.ltb_spec b 1).
    - replace (Z.max b 1) with 1 by lia. reflexivity.
    - replace (Z.max b 1) with b by lia. reflexivity. }
  unfold w'. rewrite E. split.
  - destruct (send_extends CMD_SET_WHITE_BRIGHTNESS
                (intToHex (Some (JS.Num (Z.max b 1)))) 0 w) as (evs & X & S).
    rewrite (new_events_extends _ _ _ X), S, (intToHex_is_byte_hex _ Hb).
    reflexivity.
  - intros f Hf. apply send_frames_only in Hf. rewrite Hf.
    rewrite rawHex_of_byte;
      [reflexivity | apply hex_cmd_ok; reflexivity | reflexivity | exact Hb].
Qed.

Lemma setWhiteBrightness_floor_witness :
  let w := steady_world (answering []) in
  0 <= 255 /\
  frames_written w (snd (setWhiteBrightness (JS.Num 0) w)) = [[56; 1; 0; 0; 8; 131]].
Proof.
  intros w. split; [lia|].
  destruct (setWhiteBrightness_floor 0 w ltac:(lia)) as (_ & H).
  assert (E : frames_written w (snd (setWhiteBrightness (JS.Num 0) w)) =
              [rawHex CMD_SET_WHITE_BRIGHTNESS (intToHex (Some (JS.Num 1)))])
    by reflexivity.
  assert (I : In (rawHex CMD_SET_WHITE_BRIGHTNESS (intToHex (Some (JS.Num 1))))
                 (frames_written w (snd (setWhiteBrightness (JS.Num 0) w))))
    by (rewrite E; left; reflexivity).
  rewrite E, (H _ I). reflexivity.
Defined.

(* ===================================================================== *)
(** ** Names, and what is read back                                       *)
(* ===================================================================== *)

Section NamesAndReadBack.

Lemma indexOf_from_spec l x : forall i,
  (~ In x l -> indexOf_from l x i = -1) /\
  (In x l ->
   exists k, indexOf_from l x i = i + Z.of_nat k /\
             nth_error l k = Some x /\
             (forall j, (j < k)%nat -> nth_error l j <> Some x)).
Proof.
  induction l as [|y l IH]; intros i.
  - split; [reflexivity | intros []].
  - cbn [indexOf_from]. destruct (String.eqb_spec y x) as [->|Hne].
    + split; [intros H; exfalso; apply H; left; reflexivity|].
      intros _. exists 0%nat. split; [lia|]. split; [reflexivity|].
      intros j Hj. lia.
    + destruct (IH (i + 1)) as [IH1 IH2]. split.
      * intros H. apply IH1. intros Hin. apply H. right. exact Hin.
      * intros [Heq | Hin]; [contradiction|].
        destruct (IH2 Hin) as (k & E & N & F).
        exists (S k). split; [lia|]. split; [exact N|].
        intros [|j] Hj; cbn [nth_error];
          [intros E'; inversion E'; contradiction | apply F; lia].
Qed.

Lemma Buffer_hex_round_trip buf :
  Forall is_byte buf -> JS.Buffer_from_hex (JS.Buffer_toString_hex buf) = buf.
Proof.
  induction 1 as [|b buf Hb _ IH]; [reflexivity|].
  destruct (byte_digits b Hb) as [H1 H2].
  cbn [JS.Buffer_toString_hex JS.Buffer_from_hex].
  rewrite (unhex_hexDigit _ H1), (unhex_hexDigit _ H2), IH.
  f_equal. unfold is_byte in Hb. rewrite (Z.div_mod b 16) at 3 by lia. ring.
Qed.

Lemma Buffer_toString_hex_spells buf :
  Forall is_byte buf ->
  all_hex (JS.Buffer_toString_hex buf) = true /\
  String.length (JS.Buffer_toString_hex buf) = (2 * List.length buf)%nat.
Proof.
  induction 1 as [|b buf Hb _ [IH1 IH2]]; [split; reflexivity|].
  destruct (byte_digits b Hb) as [H1 H2].
  cbn [JS.Buffer_toString_hex all_hex String.length List.length].
  rewrite (unhex_hexDigit _ H1), (unhex_hexDigit _ H2). split; [exact IH1 | lia].
Qed.

End NamesAndReadBack.

(** X13.  [setChipType] and [setColorOrder] look the name up before
    anything else: a name that is not in the list makes the call throw
    'Invalid chip type: name' ('Invalid color order: name') with the
    world untouched, so without any command or network event; a name
    that is in the list makes it submit one command whose parameter is
    the index of the first occurrence of the name. *)
Theorem chip_and_order_names (CHIP_TYPES COLOR_ORDERS : list string)
  (name : string) (w : World) :
  (~ In name CHIP_TYPES ->
   setChipType CHIP_TYPES name w =
     (Throw (Error ("Invalid chip type: " ++ name)), w)) /\
  (In name CHIP_TYPES ->
   exists k,
     nth_error CHIP_TYPES k = Some name /\
     (forall j, (j < k)%nat -> nth_error CHIP_TYPES j <> Some name) /\
     submitted (new_events w (snd (setChipType CHIP_TYPES name w))) =
       [(CMD_SET_CHIP_TYPE, intToHex (Some (JS.Num (Z.of_nat k))), 0)]) /\
  (~ In name COLOR_ORDERS ->
   setColorOrder COLOR_ORDERS name w =
     (Throw (Error ("Invalid color order: " ++ name)), w)) /\
  (In name COLOR_ORDERS ->
   exists k,
     nth_error COLOR_ORDERS k = Some name /\
     (forall j, (j < k)%nat -> nth_error COLOR_ORDERS j <> Some name) /\
     submitted (new_events w (snd (setColorOrder COLOR_ORDERS name w))) =
       [(CMD_SET_COLOR_ORDER, intToHex (Some (JS.Num (Z.of_nat k))), 0)]).
Proof.
  unfold setChipType, setColorOrder, indexOf.
  destruct (indexOf_from_spec CHIP_TYPES name 0) as [Kc1 Kc2].
  destruct (indexOf_from_spec COLOR_ORDERS name 0) as [O1 O2].
  repeat split.
  - intros H. rewrite (Kc1 H). reflexivity.
  - intros H. destruct (Kc2 H) as (k & E & N & F). exists k.
    split; [exact N|]. split; [exact F|]. rewrite E.
    destruct (Z.eqb_spec (0 + Z.of_nat k) (-1)); [lia|].
    destruct (send_extends CMD_SET_CHIP_TYPE
                (intToHex (Some (JS.Num (0 + Z.of_nat k)))) 0 w) as (evs & X & S).
    rewrite (new_events_extends _ _ _ X), S. reflexivity.
  - intros H. rewrite (O1 H). reflexivity.
  - intros H. destruct (O2 H) as (k & E & N & F). exists k.
    split; [exact N|]. split; [exact F|]. rewrite E.
    destruct (Z.eqb_spec (0 + Z.of_nat k) (-1)); [lia|].
    destruct (send_extends CMD_SET_COLOR_ORDER
                (intToHex (Some (JS.Num (0 + Z.of_nat k)))) 0 w) as (evs & X & S).
    rewrite (new_events_extends _ _ _ X), S. reflexivity.
Qed.

Lemma chip_and_order_names_witness :
  let w := steady_world (answering []) in
  setChipType ["SM16703"; "WS2811"]%string "WS2812" w =
    (Throw (Error "Invalid chip type: WS2812"), w) /\
  submitted (new_events w (snd (setColorOrder ["RGB"; "GRB"]%string "GRB" w))) =
    [(CMD_SET_COLOR_ORDER, "01"%string, 0)].
Proof.
  intros w.
  destruct (chip_and_order_names ["SM16703"; "WS2811"]%string
              ["RGB"; "GRB"]%string "WS2812" w) as (H1 & _).
  destruct (chip_and_order_names ["SM16703"; "WS2811"]%string
              ["RGB"; "GRB"]%string "GRB" w) as (_ & _ & _ & H2).
  split.
  - apply H1. intros [E | [E | []]]; discriminate E.
  - destruct (H2 ltac:(right; left; reflexivity)) as (k & N & F & S).
    destruct k as [|[|k]].
    + discriminate N.
    + exact S.
    + exfalso. apply (F 1%nat); [lia | reflexivity].
Defined.

(** X14.  When the first attempt of the status query goes through and
    reads the bytes [buf], [getStatus] returns the status decoded from
    exactly those bytes, and its [rawResponse] loses nothing: read as
    hex it gives [buf] back. *)
Theorem getStatus_reads_the_answer (UNKNOWN_MODE : Z) (w : World) (buf : list Z) :
  let io := env w (attempts w) in
  Forall is_byte buf ->
  io_read io = ReadBuffer buf -> io_write io = None ->
  (negb (connected w) || peer_closed io = true -> io_connect io = ConnectOk) ->
  exists status w',
    getStatus UNKNOWN_MODE w = (Ok status, w') /\
    heap w' status = decodeStatus UNKNOWN_MODE (JS.Buffer_toString_hex buf) /\
    JS.Buffer_from_hex (sp108eStatus.rawResponse (heap w' status)) = buf /\
    attempts w' = S (attempts w).
Proof.
  intros io Hb Hr Hw Hc.
  assert (Ht : transfer_ok 17 io = true)
    by (unfold transfer_ok, reads_ok; rewrite Hw, Hr; reflexivity).
  destruct (send_first_try CMD_GET_STATUS NO_PARAMETER 17 w Ht Hc)
    as (F & _ & A & _).
  destruct (send CMD_GET_STATUS NO_PARAMETER 17 w) as [r w1] eqn:E.
  cbn [fst snd] in F, A. subst r.
  fold io in E. unfold response_of in E. rewrite Hr in E.
  change (0 <? 17) with true in E. cbv iota in E.
  exists (next w1),
    (snd (alloc (decodeStatus UNKNOWN_MODE (JS.Buffer_toString_hex buf)) w1)).
  rewrite (getStatus_ok _ _ _ _ E). cbn [alloc snd heap attempts].
  rewrite Nat.eqb_refl. cbn [decodeStatus sp108eStatus.rawResponse].
  rewrite (Buffer_hex_round_trip buf Hb). auto.
Qed.

Lemma getStatus_reads_the_answer_witness :
  let w := steady_world (answering (status_bytes 1 205)) in
  exists status w',
    getStatus (-1) w = (Ok status, w') /\
    JS.Buffer_from_hex (sp108eStatus.rawResponse (heap w' status)) =
      status_bytes 1 205.
Proof.
  intros w.
  destruct (getStatus_reads_the_answer (-1) w (status_bytes 1 205))
    as (status & w' & G & _ & R & _).
  - unfold status_bytes. repeat (constructor; [unfold is_byte; lia|]). constructor.
  - reflexivity.
  - reflexivity.
  - intros _. reflexivity.
  - exists status, w'. split; [exact G | exact R].
Defined.

(** X15.  The colour read from a status goes back to the device
    unchanged: the frame of the colour command built from the [color]
    field of a decoded 17-byte status carries the three colour bytes of
    that status (bytes 10 to 12), with opcode 0x22. *)
Theorem colour_round_trip (UNKNOWN_MODE : Z) (buf : list Z) :
  well_formed_status buf ->
  let s := decodeStatus UNKNOWN_MODE (JS.Buffer_toString_hex buf) in
  rawHex CMD_SET_COLOR (sp108eStatus.color s) =
    [56; nth 10 buf 0; nth 11 buf 0; nth 12 buf 0; 34; 131].
Proof.
  intros H s.
  destruct (decodeStatus_fields UNKNOWN_MODE buf H)
    as (_ & _ & _ & _ & _ & _ & _ & _ & Hcol & _).
  fold s in Hcol. cbv zeta in Hcol. rewrite Hcol.
  assert (B : Forall is_byte [nth 10 buf 0; nth 11 buf 0; nth 12 buf 0]).
  { destruct H as [Hl Hall]. rewrite Forall_forall in Hall.
    repeat constructor; apply Hall; apply nth_In; lia. }
  destruct (Buffer_toString_hex_spells _ B) as [Hh Hlen].
  rewrite rawHex_layout.
  - rewrite (Buffer_hex_round_trip _ B). reflexivity.
  - apply hex_cmd_ok; reflexivity.
  - reflexivity.
  - split; [exact Hh|]. rewrite Hlen. split; [reflexivity | cbn; lia].
Qed.

Lemma colour_round_trip_witness :
  well_formed_status (status_bytes 1 205) /\
  rawHex CMD_SET_COLOR
    (sp108eStatus.color
       (decodeStatus (-1) (JS.Buffer_toString_hex (status_bytes 1 205)))) =
  [56; 255; 103; 23; 34; 131].
Proof.
  assert (W : well_formed_status (status_bytes 1 205)).
  { split; [reflexivity|]. unfold status_bytes.
    repeat (constructor; [unfold is_byte; lia|]). constructor. }
  split; [exact W|].
  rewrite (colour_round_trip (-1) _ W). reflexivity.
Defined.

(** X16.  Decoding never looks at the first and the last byte of the
    response: two 17-byte responses that agree on bytes 1 to 15 decode
    to statuses that differ in [rawResponse] at most.  In particular
    there is no check of a prefix or of a suffix byte. *)
Theorem decode_ignores_frame_bytes (UNKNOWN_MODE : Z) (buf buf' : list Z) :
  well_formed_status buf -> well_formed_status buf' ->
  (forall i, (1 <= i <= 15)%nat -> nth i buf 0 = nth i buf' 0) ->
  let s := decodeStatus UNKNOWN_MODE (JS.Buffer_toString_hex buf) in
  let s' := decodeStatus UNKNOWN_MODE (JS.Buffer_toString_hex buf') in
  sp108eStatus.on s = sp108eStatus.on s' /\
  sp108eStatus.animationMode s = sp108eStatus.animationMode s' /\
  sp108eStatus.presetEffectMode s = sp108eStatus.presetEffectMode s' /\
  sp108eStatus.animationSpeed s = sp108eStatus.animationSpeed s' /\
  sp108eStatus.brightness s = sp108eStatus.brightness s' /\
  sp108eStatus.colorOrder s = sp108eStatus.colorOrder s' /\
  sp108eStatus.ledsPerSegment s = sp108eStatus.ledsPerSegment s' /\
  sp108eStatus.numberOfSegments s = sp108eStatus.numberOfSegments s' /\
  sp108eStatus.color s = sp108eStatus.color s' /\
  sp108eStatus.icType s = sp108eStatus.icType s' /\
  sp108eStatus.recordedPatterns s = sp108eStatus.recordedPatterns s' /\
  sp108eStatus.whiteBrightness s = sp108eStatus.whiteBrightness s'.
Proof.
  intros H H' Hsame s s'.
  destruct (decodeStatus_fields UNKNOWN_MODE buf H)
    as (A1 & A2 & A3 & A4 & A5 & A6 & A7 & A8 & A9 & A10 & A11 & A12).
  destruct (decodeStatus_fields UNKNOWN_MODE buf' H')
    as (B1 & B2 & B3 & B4 & B5 & B6 & B7 & B8 & B9 & B10 & B11 & B12).
  fold s in A1, A2, A3, A4, A5, A6, A7, A8, A9, A10, A11, A12.
  fold s' in B1, B2, B3, B4, B5, B6, B7, B8, B9, B10, B11, B12.
  cbv zeta in *.
  rewrite A1, A2, A3, A4, A5, A6, A7, A8, A9, A10, A11, A12.
  rewrite B1, B2, B3, B4, B5, B6, B7, B8, B9, B10, B11, B12.
  rewrite !(Hsame 1%nat), !(Hsame 2%nat), !(Hsame 3%nat), !(Hsame 4%nat),
    !(Hsame 5%nat), !(Hsame 6%nat), !(Hsame 7%nat), !(Hsame 8%nat),
    !(Hsame 9%nat), !(Hsame 10%nat), !(Hsame 11%nat), !(Hsame 12%nat),
    !(Hsame 13%nat), !(Hsame 14%nat), !(Hsame 15%nat) by lia.
  repeat split.
Qed.

Lemma decode_ignores_frame_bytes_witness :
  let good := status_bytes 1 50 in
  let bad := 0 :: tl (removelast good) ++ [0] in
  sp108eStatus.presetEffectMode (decodeStatus (-1) (JS.Buffer_toString_hex bad)) =
  sp108eStatus.presetEffectMode (decodeStatus (-1) (JS.Buffer_toString_hex good)).
Proof.
  intros good bad.
  assert (W : forall l, List.length l = 17%nat ->
                        forallb (fun b => (0 <=? b) && (b <? 256)) l = true ->
                        well_formed_status l).
  { intros l Hl Hf. split; [exact Hl|]. apply Forall_forall. intros b Hb.
    rewrite forallb_forall in Hf. specialize (Hf b Hb).
    apply andb_prop in Hf. destruct Hf as [H1 H2].
    apply Z.leb_le in H1. apply Z.ltb_lt in H2. split; assumption. }
  destruct (decode_ignores_frame_bytes (-1) bad good
              (W bad eq_refl eq_refl) (W good eq_refl eq_refl))
    as (_ & _ & P & _).
  - intros i Hi.
    do 16 (destruct i as [|i]; [try lia; try reflexivity|]). lia.
  - exact P.
Defined.

(* ===================================================================== *)
(** ** The accessory                                                      *)
(* ===================================================================== *)

Section AccessoryDetail.

Lemma try_catch_hap {A} (m : M A) w e :
  fst (try_catch m (fun _ => throw HapStatusError) w) = Throw e ->
  e = HapStatusError.
Proof.
  unfold try_catch, throw. destruct (m w) as [[a|e'] w']; cbn; congruence.
Qed.

Lemma client_setPresetMode_submitted m w :
  exists evs,
    extends w (snd (setPresetMode (JS.Num m) w)) evs /\
    submitted evs = [(CMD_SET_DREAM_MODE, byte_hex (clamp_preset m), 0)].
Proof.
  assert (Hb : is_byte (clamp_preset m)) by (unfold is_byte, clamp_preset; lia).
  assert (E : setPresetMode (JS.Num m) w =
              send CMD_SET_DREAM_MODE (intToHex (Some (JS.Num (clamp_preset m)))) 0 w)
    by reflexivity.
  rewrite E.
  destruct (send_extends CMD_SET_DREAM_MODE
              (intToHex (Some (JS.Num (clamp_preset m)))) 0 w) as (evs & X & S).
  exists evs. split; [exact X|]. rewrite S, (intToHex_is_byte_hex _ Hb). reflexivity.
Qed.

Lemma bind_snd_ok {A B} (m : M A) (k : A -> M B) w a w1 :
  m w = (Ok a, w1) -> bind m k w = k a w1.
Proof. intros H. unfold bind. rewrite H. reflexivity. Qed.

Lemma bind_snd_throw {A B} (m : M A) (k : A -> M B) w e w1 :
  m w = (Throw e, w1) -> bind m k w = (Throw e, w1).
Proof. intros H. unfold bind. rewrite H. reflexivity. Qed.

End AccessoryDetail.

(** X17.  [isOutOfSync] compares the millisecond-of-second fields of two
    dates, which lie between 0 and 999, with the poll interval of 1000:
    the age of the last pull never makes it answer true.  It is true
    exactly when no status or no pull date is there yet. *)
Theorem isOutOfSync_ignores_age (deviceStatus : option nat)
  (lastPull : option Z) (now : Z) :
  (forall last, lastPull = Some last -> 0 <= last <= 999) ->
  0 <= now <= 999 ->
  (Sp108ePlatformAccessory.isOutOfSync deviceStatus lastPull now = true <->
   deviceStatus = None \/ lastPull = None).
Proof.
  intros Hl Hn. unfold Sp108ePlatformAccessory.isOutOfSync,
    Sp108ePlatformAccessory.POLL_INTERVAL.
  destruct deviceStatus as [d|]; [|split; auto].
  destruct lastPull as [last|]; [|split; auto].
  specialize (Hl last eq_refl). split.
  - intros H. apply Z.ltb_lt in H. lia.
  - intros [H|H]; discriminate H.
Qed.

Lemma isOutOfSync_ignores_age_witness :
  Sp108ePlatformAccessory.isOutOfSync (Some 0%nat) (Some 0) 999 = false.
Proof.
  destruct (isOutOfSync_ignores_age (Some 0%nat) (Some 0) 999) as [H _].
  - intros last E. inversion E. lia.
  - lia.
  - destruct (Sp108ePlatformAccessory.isOutOfSync (Some 0%nat) (Some 0) 999);
      [|reflexivity].
    destruct (H eq_refl) as [E|E]; discriminate E.
Defined.

(** X18.  Hue and saturation are sent as a pair.  The first of the two
    to arrive is only remembered: nothing is sent and the world is
    untouched.  The second makes one colour call, the same in either
    order of arrival, with the brightness value of the held status;
    when that call succeeds both targets are forgotten, when it fails
    the error becomes a [HapStatusError] and both targets stay, so that
    the next hue alone is sent together with the saturation left over.
    Without a held status the second fails before anything is sent. *)
Theorem hue_and_saturation_pair (UNKNOWN_MODE ANIMATION_MODE_STATIC : Z)
  (CharacteristicValue HsvValue : Type)
  (hex_hsv_value : string -> HsvValue)
  (hsv_hex : option CharacteristicValue -> option CharacteristicValue ->
             HsvValue -> string)
  (h s h' : CharacteristicValue) (d : nat) (w : World) :
  let setHue := Sp108ePlatformAccessory.setHue UNKNOWN_MODE
                  ANIMATION_MODE_STATIC CharacteristicValue HsvValue
                  hex_hsv_value hsv_hex in
  let setSaturation := Sp108ePlatformAccessory.setSaturation UNKNOWN_MODE
                  ANIMATION_MODE_STATIC CharacteristicValue HsvValue
                  hex_hsv_value hsv_hex in
  let targets := Sp108ePlatformAccessory.mkTargets CharacteristicValue in
  let value := hex_hsv_value (sp108eStatus.color (heap w d)) in
  let sends hue sat :=
    match setColor UNKNOWN_MODE ANIMATION_MODE_STATIC
            (hsv_hex (Some hue) (Some sat) value) w with
    | (Ok _, w') => (Ok tt, targets None None, w')
    | (Throw _, w') => (Throw HapStatusError, targets (Some hue) (Some sat), w')
    end in
  setHue h (Some d) (targets None None) w = (Ok tt, targets (Some h) None, w) /\
  setSaturation s (Some d) (targets None None) w =
    (Ok tt, targets None (Some s), w) /\
  setSaturation s (Some d) (targets (Some h) None) w = sends h s /\
  setHue h (Some d) (targets None (Some s)) w = sends h s /\
  setHue h' (Some d) (targets (Some h) (Some s)) w = sends h' s /\
  setHue h None (targets None (Some s)) w =
    (Throw HapStatusError, targets (Some h) (Some s), w).
Proof.
  cbv zeta.
  unfold Sp108ePlatformAccessory.setHue, Sp108ePlatformAccessory.setSaturation,
    Sp108ePlatformAccessory.setColor.
  cbn [Sp108ePlatformAccessory.targetHue Sp108ePlatformAccessory.targetSaturation].
  repeat split;
    destruct (setColor UNKNOWN_MODE ANIMATION_MODE_STATIC _ w) as [[r|e] w'];
    reflexivity.
Qed.

(** X19.  The accessory's [setOn] asks for the status twice, once itself
    and once inside [on] or [off], and toggles only when the second
    answer differs from the wanted state.  When it succeeds the RGB
    switch holds the wanted state, and switching off also switches the
    animation and preset switches off; when anything fails the error is
    a [HapStatusError] and the three switches are as before. *)
Theorem accessory_setOn (UNKNOWN_MODE : Z) (value : bool)
  (s : Sp108ePlatformAccessory.Switches) (w : World) :
  let res := Sp108ePlatformAccessory.setOn UNKNOWN_MODE value s w in
  let r := fst (fst res) in
  let s' := snd (fst res) in
  let w' := snd res in
  (r = Ok tt /\ Sp108ePlatformAccessory.rgbOn s' = value /\
   (if value
    then Sp108ePlatformAccessory.animationOn s' =
           Sp108ePlatformAccessory.animationOn s /\
         Sp108ePlatformAccessory.presetOn s' =
           Sp108ePlatformAccessory.presetOn s
    else Sp108ePlatformAccessory.animationOn s' = Some false /\
         Sp108ePlatformAccessory.presetOn s' = Some false)
   \/ r = Throw HapStatusError /\ s' = s) /\
  submitted (new_events w w') =
    match getStatus UNKNOWN_MODE w with
    | (Throw _, _) => [status_command]
    | (Ok _, w1) =>
        match getStatus UNKNOWN_MODE w1 with
        | (Throw _, _) => [status_command; status_command]
        | (Ok status, w2) =>
            status_command :: status_command ::
            (if Bool.eqb (sp108eStatus.on (heap w2 status)) value then []
             else [toggle_command])
        end
    end.
Proof.
  cbv zeta. unfold Sp108ePlatformAccessory.setOn.
  destruct (getStatus_extends UNKNOWN_MODE w) as (e0 & Ex0 & S0).
  destruct (getStatus UNKNOWN_MODE w) as [[st0|err0] w1] eqn:G0.
  - rewrite (bind_snd_ok _ _ _ _ _ G0). cbn [snd] in Ex0.
    assert (P : exists evs,
      extends w1 (snd ((if value then on UNKNOWN_MODE else off UNKNOWN_MODE) w1)) evs /\
      submitted evs =
        match getStatus UNKNOWN_MODE w1 with
        | (Throw _, _) => [status_command]
        | (Ok status, w2) =>
            status_command ::
            (if Bool.eqb (sp108eStatus.on (heap w2 status)) value then []
             else [toggle_command])
        end).
    { destruct value.
      - destruct (on_submitted UNKNOWN_MODE w1) as (evs & X & S).
        exists evs. split; [exact X|]. rewrite S.
        destruct (getStatus UNKNOWN_MODE w1) as [[st|e] w2]; [|reflexivity].
        destruct (sp108eStatus.on (heap w2 st)); reflexivity.
      - destruct (off_submitted UNKNOWN_MODE w1) as (evs & X & S).
        exists evs. split; [exact X|]. rewrite S.
        destruct (getStatus UNKNOWN_MODE w1) as [[st|e] w2]; [|reflexivity].
        destruct (sp108eStatus.on (heap w2 st)); reflexivity. }
    destruct P as (evs & X & S).
    pose proof (extends_trans _ _ _ _ _ Ex0 X) as XX.
    destruct ((if value then on UNKNOWN_MODE else off UNKNOWN_MODE) w1)
      as [[v|e] w2] eqn:E; cbn [fst snd] in *.
    + split.
      * left. split; [reflexivity|]. destruct value; cbn; auto.
      * rewrite (new_events_extends _ _ _ XX), submitted_app, S0, S.
        destruct (getStatus UNKNOWN_MODE w1) as [[st|e] w3]; reflexivity.
    + split.
      * right. split; reflexivity.
      * rewrite (new_events_extends _ _ _ XX), submitted_app, S0, S.
        destruct (getStatus UNKNOWN_MODE w1) as [[st|e'] w3]; reflexivity.
  - rewrite (bind_snd_throw _ _ _ _ _ G0). cbn [fst snd] in *. split.
    + right. split; reflexivity.
    + rewrite (new_events_extends _ _ _ Ex0). exact S0.
Qed.

(** X20.  [setPresetModeOn] keeps the accessory's fields in order.  When
    it returns, the preset switch holds the wanted state and the held
    status is the same object; a remembered preset number that is not
    the 'unknown' value is never replaced by it, and switching off
    leaves the number alone.  When it fails, the error is a
    [HapStatusError].  Asked for the state it is already in (on with a
    known preset, off with an unknown one) it does nothing at all. *)
Theorem setPresetModeOn_fields (UNKNOWN_MODE ANIMATION_MODE_STATIC : Z)
  (value : bool) (a : Accessory) (w : World) :
  let res := setPresetModeOn UNKNOWN_MODE ANIMATION_MODE_STATIC value a w in
  (forall a', fst res = Ok a' ->
     presetOn a' = Some value /\
     deviceStatus a' = deviceStatus a /\
     (JS.strict_eq (presetEffectNumber a) (JS.Num UNKNOWN_MODE) = false ->
      JS.strict_eq (presetEffectNumber a') (JS.Num UNKNOWN_MODE) = false) /\
     (value = false -> presetEffectNumber a' = presetEffectNumber a)) /\
  (forall e, fst res = Throw e -> e = HapStatusError) /\
  (forall d, deviceStatus a = Some d -> presetOn a = Some value ->
     JS.strict_eq (sp108eStatus.presetEffectMode (heap w d))
                  (JS.Num UNKNOWN_MODE) = negb value ->
     res = (Ok a, w)).
Proof.
  cbv zeta. split; [|split].
  - intros a'. unfold setPresetModeOn, try_catch.
    destruct (deviceStatus a) as [d|] eqn:Hd; [|cbn; discriminate].
    unfold bind at 1. unfold deref at 1. cbv beta iota.
    set (unknown := JS.strict_eq (sp108eStatus.presetEffectMode (heap w d))
                                 (JS.Num UNKNOWN_MODE)).
    destruct (value && negb unknown && same_bool (presetOn a) true) eqn:G1.
    { cbn. intros E. inversion E; subst a'.
      apply andb_prop in G1. destruct G1 as [G1 G3].
      apply andb_prop in G1. destruct G1 as [G1 G2]. subst value.
      unfold same_bool in G3. destruct (presetOn a) as [[|]|]; try discriminate.
      repeat split; auto; discriminate. }
    destruct (negb value && unknown && same_bool (presetOn a) false) eqn:G2.
    { cbn. intros E. inversion E; subst a'.
      apply andb_prop in G2. destruct G2 as [G2 G4].
      apply andb_prop in G2. destruct G2 as [G2 G3].
      destruct value; [discriminate|].
      unfold same_bool in G4. destruct (presetOn a) as [[|]|]; try discriminate.
      repeat split; auto. }
    unfold bind at 1.
    destruct ((if negb (sp108eStatus.on (heap w d))
               then bind (on UNKNOWN_MODE) (fun _ => ret tt) else ret tt) w)
      as [[u|e] w1]; [|cbn; discriminate].
    destruct value.
    + cbv beta iota delta [bind deref update ret detach throw fst snd].
      intros E. inversion E; subst a'. cbn.
      repeat split; auto; try discriminate.
      intros Hn.
      destruct (JS.strict_eq (sp108eStatus.presetEffectMode (heap w1 d))
                             (JS.Num UNKNOWN_MODE)) eqn:Hu; cbn [negb]; assumption.
    + cbv beta iota delta [bind deref update ret detach throw fst snd].
      intros E. inversion E; subst a'. cbn. repeat split; auto.
  - intros e. unfold setPresetModeOn. apply try_catch_hap.
  - intros d Hd Hp Hu. unfold setPresetModeOn, try_catch. rewrite Hd.
    unfold bind at 1. unfold deref at 1. cbv beta iota.
    rewrite Hu, Hp. destruct value; reflexivity.
Qed.

Lemma setPresetModeOn_fields_witness :
  let w := steady_world (answering []) in
  let w1 := snd (alloc (decodeStatus 255
              (JS.Buffer_toString_hex (status_bytes 1 5))) w) in
  let a := mkAccessory (Some 0%nat) (Some true) (JS.Num 5) in
  setPresetModeOn 255 211 true a w1 = (Ok a, w1).
Proof.
  intros w w1 a.
  destruct (setPresetModeOn_fields 255 211 true a w1) as (_ & _ & H).
  apply (H 0%nat); reflexivity.
Defined.

(** X21.  The accessory's [setPresetMode] wraps the number it is given
    modulo 180 and falls back to the rainbow preset when the result is
    not a key of the preset table; with the device on, it submits one
    command whose byte is that number clamped to 0..179, and asks for no
    status.  Whatever goes wrong, the error is a [HapStatusError]. *)
Theorem accessory_setPresetMode_wraps (UNKNOWN_MODE PRESET_EFFECT_RAINBOW : Z)
  (in_PRESET_EFFECTS : JS.number -> bool) (v : Z) (d : nat) (w : World) :
  let run := Sp108ePlatformAccessory.setPresetMode UNKNOWN_MODE
               PRESET_EFFECT_RAINBOW in_PRESET_EFFECTS in
  let m := if in_PRESET_EFFECTS (JS.Num (Z.rem v 180)) then Z.rem v 180
           else PRESET_EFFECT_RAINBOW in
  (sp108eStatus.on (heap w d) = true ->
   submitted (new_events w (snd (run (JS.Num v) (Some d) w))) =
     [(CMD_SET_DREAM_MODE, byte_hex (clamp_preset m), 0)]) /\
  (0 <= v -> in_PRESET_EFFECTS (JS.Num (v mod 180)) = true ->
   clamp_preset m = v mod 180) /\
  (forall e deviceStatus,
     fst (run (JS.Num v) deviceStatus w) = Throw e -> e = HapStatusError) /\
  fst (run (JS.Num v) None w) = Throw HapStatusError.
Proof.
  cbv zeta. split; [|split; [|split]].
  - intros Hon. unfold Sp108ePlatformAccessory.setPresetMode, try_catch.
    cbn [js_rem]. unfold bind at 1. unfold deref at 1. cbv beta iota.
    rewrite Hon. cbn [negb]. unfold bind at 1. unfold ret at 1. cbv beta iota.
    set (m := if in_PRESET_EFFECTS (JS.Num (Z.rem v 180)) then Z.rem v 180
              else PRESET_EFFECT_RAINBOW).
    assert (E : (if negb (in_PRESET_EFFECTS (JS.Num (Z.rem v 180)))
                 then setPresetMode (JS.Num PRESET_EFFECT_RAINBOW)
                 else setPresetMode (JS.Num (Z.rem v 180))) =
                setPresetMode (JS.Num m)).
    { unfold m. destruct (in_PRESET_EFFECTS (JS.Num (Z.rem v 180))); reflexivity. }
    rewrite E.
    destruct (client_setPresetMode_submitted m w) as (evs & X & S).
    unfold bind, ret, throw.
    destruct (setPresetMode (JS.Num m) w) as [[r|e] w1]; cbn [fst snd] in *;
      rewrite (new_events_extends _ _ _ X); exact S.
  - intros Hv Hin. rewrite Z.rem_mod_nonneg by lia. rewrite Hin.
    pose proof (Z.mod_pos_bound v 180 ltac:(lia)). unfold clamp_preset. lia.
  - intros e ds. unfold Sp108ePlatformAccessory.setPresetMode. apply try_catch_hap.
  - reflexivity.
Qed.

Lemma accessory_setPresetMode_wraps_witness :
  let w := steady_world (answering []) in
  let w1 := snd (alloc (decodeStatus 255
              (JS.Buffer_toString_hex (status_bytes 1 205))) w) in
  submitted (new_events w1
    (snd (Sp108ePlatformAccessory.setPresetMode 255 0 (fun _ => true)
            (JS.Num 185) (Some 0%nat) w1))) =
  [(CMD_SET_DREAM_MODE, "05"%string, 0)].
Proof.
  intros w w1.
  destruct (accessory_setPresetMode_wraps 255 0 (fun _ => true) 185 0%nat w1)
    as (H & _).
  rewrite H; reflexivity.
Defined.

(** X22.  After the poll, [initialize] sends a setting only when the
    status disagrees with the configuration: on a device whose chip
    type, colour order, number of segments and LEDs per segment are
    already those asked for, it sends nothing and leaves the world as it
    is. *)
Theorem initialize_leaves_agreeing_device (CHIP_TYPES COLOR_ORDERS : list string)
  (chip colorOrder : string) (segments ledsPerSegment : Z) (d : nat)
  (w : World) :
  let st := heap w d in
  sp108eStatus.icType st = JS.Num (indexOf CHIP_TYPES chip) ->
  sp108eStatus.colorOrder st = JS.Num (indexOf COLOR_ORDERS colorOrder) ->
  sp108eStatus.numberOfSegments st = JS.Num segments ->
  sp108eStatus.ledsPerSegment st = JS.Num ledsPerSegment ->
  Sp108ePlatformAccessory.initialize_after_poll CHIP_TYPES COLOR_ORDERS
    chip colorOrder (Some (JS.Num segments)) (Some (JS.Num ledsPerSegment))
    (Some d) w = (Ok tt, w).
Proof.
  intros st H1 H2 H3 H4.
  unfold Sp108ePlatformAccessory.initialize_after_poll.
  cbv beta iota zeta delta [bind deref ret].
  fold st.
  rewrite H1. cbn [JS.strict_eq]. rewrite Z.eqb_refl. cbn [negb]. cbv iota beta.
  fold st.
  rewrite H2. cbn [JS.strict_eq]. rewrite Z.eqb_refl. cbn [negb]. cbv iota beta.
  fold st.
  rewrite H3. cbn [JS.strict_eq]. rewrite Z.eqb_refl. cbn [negb]. cbv iota beta.
  fold st.
  rewrite H4. cbn [JS.strict_eq]. rewrite Z.eqb_refl. reflexivity.
Qed.

Lemma initialize_leaves_agreeing_device_witness :
  let w := steady_world (answering []) in
  let w1 := snd (alloc (decodeStatus 255
              (JS.Buffer_toString_hex (status_bytes 1 205))) w) in
  Sp108ePlatformAccessory.initialize_after_poll
    ["SM16703"; "TM1804"; "UCS1903"; "WS2811"]%string
    ["RGB"; "RBG"; "GRB"]%string
    "WS2811" "GRB" (Some (JS.Num 1)) (Some (JS.Num 60)) (Some 0%nat) w1 =
  (Ok tt, w1).
Proof.
  intros w w1.
  apply (initialize_leaves_agreeing_device
           ["SM16703"; "TM1804"; "UCS1903"; "WS2811"]%string
           ["RGB"; "RBG"; "GRB"]%string "WS2811" "GRB" 1 60 0%nat w1);
    reflexivity.
Defined.

(** X23.  A chip name of the configuration that is not in the list
    stops [initialize] at its first setting: against any status decoded
    from 17 bytes the chip type counts as different, [setChipType]
    throws 'Invalid chip type: name', and [initialize], which catches
    nothing, fails with that error before anything is sent, whatever
    the colour order, the segments and the LEDs per segment are. *)
Theorem initialize_stops_at_unknown_chip (UNKNOWN_MODE : Z)
  (CHIP_TYPES COLOR_ORDERS : list string) (chip colorOrder : string)
  (segments ledsPerSegment : option JS.number) (d : nat) (buf : list Z)
  (w : World) :
  well_formed_status buf ->
  heap w d = decodeStatus UNKNOWN_MODE (JS.Buffer_toString_hex buf) ->
  ~ In chip CHIP_TYPES ->
  Sp108ePlatformAccessory.initialize_after_poll CHIP_TYPES COLOR_ORDERS
    chip colorOrder segments ledsPerSegment (Some d) w =
  (Throw (Error ("Invalid chip type: " ++ chip)), w).
Proof.
  intros Hwf Hd Hin.
  destruct (decodeStatus_fields UNKNOWN_MODE buf Hwf)
    as (_ & _ & _ & _ & _ & _ & _ & _ & _ & Hic & _).
  cbv zeta in Hic. rewrite <- Hd in Hic.
  destruct (indexOf_from_spec CHIP_TYPES chip 0) as [Hno _].
  specialize (Hno Hin).
  assert (B : 0 <= nth 13 buf 0).
  { destruct Hwf as [Hl Hall]. rewrite Forall_forall in Hall.
    apply (Hall (nth 13 buf 0)). apply nth_In. lia. }
  unfold Sp108ePlatformAccessory.initialize_after_poll.
  unfold bind at 1. unfold deref at 1. cbv beta iota zeta.
  rewrite Hic. unfold indexOf. rewrite Hno. cbn [JS.strict_eq].
  destruct (Z.eqb_spec (nth 13 buf 0) (-1)) as [E|_]; [lia|]. cbn [negb].
  unfold bind at 1. unfold bind at 1.
  unfold setChipType, indexOf. rewrite Hno. reflexivity.
Qed.

Lemma initialize_stops_at_unknown_chip_witness :
  let w := steady_world (answering []) in
  let w1 := snd (alloc (decodeStatus 255
              (JS.Buffer_toString_hex (status_bytes 1 205))) w) in
  Sp108ePlatformAccessory.initialize_after_poll
    ["SM16703"; "TM1804"]%string ["RGB"]%string
    "WS2812" "BGR" (Some (JS.Num 4)) None (Some 0%nat) w1 =
  (Throw (Error "Invalid chip type: WS2812"), w1).
Proof.
  intros w w1.
  apply (initialize_stops_at_unknown_chip 255 ["SM16703"; "TM1804"]%string
           ["RGB"]%string "WS2812" "BGR" (Some (JS.Num 4)) None 0%nat
           (status_bytes 1 205) w1).
  - split; [reflexivity|]. unfold status_bytes.
    repeat (constructor; [unfold is_byte; lia|]). constructor.
  - reflexivity.
  - intros [E | [E | []]]; discriminate E.
Defined.

(** X24.  [setAnimationModeOn] never writes the status object: every
    object of the store is after the call what it was before.  When it
    returns, the animation switch holds the wanted state and the other
    two switches are as before; a remembered animation number that is
    not the static mode is never replaced by the static mode, and
    switching off leaves the number alone.  When it fails, the error
    is a [HapStatusError]. *)
Theorem setAnimationModeOn_fields
  (UNKNOWN_MODE ANIMATION_MODE_STATIC ANIMATION_MODE_WAVE : Z)
  (in_ANIMATION_MODES : JS.number -> bool) (value : bool)
  (deviceStatus : option nat) (s : Sp108ePlatformAccessory.Switches)
  (animationNumber : JS.number) (w : World) :
  let res := Sp108ePlatformAccessory.setAnimationModeOn UNKNOWN_MODE
               ANIMATION_MODE_STATIC ANIMATION_MODE_WAVE in_ANIMATION_MODES
               value deviceStatus s animationNumber w in
  (forall r, (r < next w)%nat -> heap (snd res) r = heap w r) /\
  (forall s' n', fst res = Ok (s', n') ->
     Sp108ePlatformAccessory.animationOn s' = Some value /\
     Sp108ePlatformAccessory.rgbOn s' = Sp108ePlatformAccessory.rgbOn s /\
     Sp108ePlatformAccessory.presetOn s' = Sp108ePlatformAccessory.presetOn s /\
     (JS.strict_eq animationNumber (JS.Num ANIMATION_MODE_STATIC) = false ->
      JS.strict_eq n' (JS.Num ANIMATION_MODE_STATIC) = false) /\
     (value = false -> n' = animationNumber)) /\
  (forall e, fst res = Throw e -> e = HapStatusError).
Proof.
  cbv zeta. split; [|split].
  - intros r Hr. unfold Sp108ePlatformAccessory.setAnimationModeOn, try_catch.
    destruct deviceStatus as [d|]; [|reflexivity].
    unfold bind at 1. unfold deref at 1. cbv beta iota.
    destruct (value && _ && _); [reflexivity|].
    destruct (negb value && _ && _); [reflexivity|].
    unfold bind at 1.
    assert (P : exists evs,
      extends w (snd ((if negb (sp108eStatus.on (heap w d))
                       then bind (on UNKNOWN_MODE) (fun _ => ret tt)
                       else ret tt) w)) evs).
    { destruct (negb (sp108eStatus.on (heap w d))).
      - destruct (on_submitted UNKNOWN_MODE w) as (evs & X & _).
        exists evs. unfold bind, ret.
        destruct (on UNKNOWN_MODE w) as [[v|e] w1]; exact X.
      - exists []. apply extends_refl. }
    destruct P as (e1 & Ex1).
    destruct ((if negb (sp108eStatus.on (heap w d))
               then bind (on UNKNOWN_MODE) (fun _ => ret tt) else ret tt) w)
      as [[u|e] w1]; cbn [snd] in Ex1.
    + unfold bind at 1. unfold deref at 1. cbv beta iota zeta.
      match goal with
      | |- context [setAnimationMode ?n] =>
          destruct (send_extends CMD_SET_ANIMATION_MODE (intToHex (Some n)) 0 w1)
            as (e2 & Ex2 & _)
      end.
      destruct (send_extends CMD_SET_ANIMATION_MODE
                  (intToHex (Some (JS.Num ANIMATION_MODE_STATIC))) 0 w1)
        as (e3 & Ex3 & _).
      destruct value; cbv beta iota delta [bind detach ret fst snd].
      * destruct (extends_trans _ _ _ _ _ Ex1 Ex2) as (_ & _ & _ & Hh).
        apply Hh. exact Hr.
      * destruct (extends_trans _ _ _ _ _ Ex1 Ex3) as (_ & _ & _ & Hh).
        apply Hh. exact Hr.
    + cbn. destruct Ex1 as (_ & _ & _ & Hh). apply Hh. exact Hr.
  - intros s' n'. unfold Sp108ePlatformAccessory.setAnimationModeOn, try_catch.
    destruct deviceStatus as [d|]; [|cbn; discriminate].
    unfold bind at 1. unfold deref at 1. cbv beta iota.
    set (static := JS.strict_eq (sp108eStatus.animationMode (heap w d))
                                (JS.Num ANIMATION_MODE_STATIC)).
    destruct (value && negb static &&
              same_bool (Sp108ePlatformAccessory.animationOn s) true) eqn:G1.
    { cbn. intros E. inversion E; subst s' n'.
      apply andb_prop in G1. destruct G1 as [G1 G3].
      apply andb_prop in G1. destruct G1 as [G1 G2]. subst value.
      unfold same_bool in G3.
      destruct (Sp108ePlatformAccessory.animationOn s) as [[|]|];
        try discriminate.
      repeat split; auto; discriminate. }
    destruct (negb value && static &&
              same_bool (Sp108ePlatformAccessory.animationOn s) false) eqn:G2.
    { cbn. intros E. inversion E; subst s' n'.
      apply andb_prop in G2. destruct G2 as [G2 G4].
      apply andb_prop in G2. destruct G2 as [G2 G3].
      destruct value; [discriminate|].
      unfold same_bool in G4.
      destruct (Sp108ePlatformAccessory.animationOn s) as [[|]|];
        try discriminate.
      repeat split; auto. }
    unfold bind at 1.
    destruct ((if negb (sp108eStatus.on (heap w d))
               then bind (on UNKNOWN_MODE) (fun _ => ret tt) else ret tt) w)
      as [[u|e] w1]; [|cbn; discriminate].
    destruct value.
    + cbv beta iota zeta delta [bind deref ret detach throw fst snd].
      intros E. inversion E; subst s' n'. cbn.
      repeat split; auto; try discriminate.
      intros Hn.
      match goal with
      | |- JS.strict_eq (if negb (JS.strict_eq ?c _) then _ else _) _ = false =>
          destruct (JS.strict_eq c (JS.Num ANIMATION_MODE_STATIC)) eqn:Hc;
            cbn [negb]; assumption
      end.
    + cbv beta iota zeta delta [bind deref ret detach throw fst snd].
      intros E. inversion E; subst s' n'. cbn. repeat split; auto.
  - intros e. unfold Sp108ePlatformAccessory.setAnimationModeOn.
    apply try_catch_hap.
Qed.

Lemma setAnimationModeOn_fields_witness :
  let w := steady_world (answering (status_bytes 1 205)) in
  let w2 := snd (alloc (decodeStatus 255
              (JS.Buffer_toString_hex (status_bytes 1 205))) w) in
  let res := Sp108ePlatformAccessory.setAnimationModeOn 255 211 208
               (fun _ => true) false (Some 0%nat)
               (Sp108ePlatformAccessory.mkSwitches true (Some true) (Some false))
               (JS.Num 205) w2 in
  (0 < next w2)%nat /\ heap (snd res) 0%nat = heap w2 0%nat.
Proof.
  intros w w2 res. split; [cbn; lia|].
  destruct (setAnimationModeOn_fields 255 211 208 (fun _ => true) false
              (Some 0%nat)
              (Sp108ePlatformAccessory.mkSwitches true (Some true) (Some false))
              (JS.Num 205) w2) as (H & _).
  apply H. cbn. lia.
Defined.

(* ===================================================================== *)
(** ** Percentages                                                        *)
(* ===================================================================== *)

Section Percentages.

Lemma integral_eqb_eq a b : JSF.integral_eqb a b = true -> a = b.
Proof.
  destruct a as [x|x|], b as [y|y|]; cbn; try discriminate; intros H.
  - apply Z.eqb_eq in H. now subst.
  - apply Bool.eqb_prop in H. now subst.
  - reflexivity.
Qed.

(** On the integers from 0 to 100 the double arithmetic of
    [Math.ceil(p / 100 * 255)] gives the exact ceiling of 255 p / 100. *)
Lemma ceil_of_percentage p :
  0 <= p <= 100 ->
  JSF.Math_ceil (JSF.of_percentage (JSF.of_Z p)) = JSF.Fin ((255 * p + 99) / 100).
Proof.
  intros Hp. apply integral_eqb_eq.
  pose proof (forall_range
    (fun p => JSF.integral_eqb
                (JSF.Math_ceil (JSF.of_percentage (JSF.of_Z p)))
                (JSF.Fin ((255 * p + 99) / 100)))
    0 101 ltac:(vm_compute; reflexivity)) as H.
  specialize (H p). cbv beta in H. apply H. lia.
Qed.

Lemma percentage_byte p : 0 <= p <= 100 -> is_byte ((255 * p + 99) / 100).
Proof.
  intros Hp. unfold is_byte. split.
  - apply Z.div_pos; lia.
  - apply Z.div_lt_upper_bound; lia.
Qed.

Lemma send_byte_submitted cmd b w :
  is_byte b ->
  submitted (new_events w (snd (send cmd (intToHex (Some (JS.Num b))) 0 w))) =
    [(cmd, byte_hex b, 0)].
Proof.
  intros Hb.
  destruct (send_extends cmd (intToHex (Some (JS.Num b))) 0 w) as (evs & Ex & S).
  rewrite (new_events_extends _ _ _ Ex), S, (intToHex_is_byte_hex _ Hb).
  reflexivity.
Qed.

Lemma setWhiteBrightness_as_send b w :
  setWhiteBrightness (JS.Num b) w =
  send CMD_SET_WHITE_BRIGHTNESS (intToHex (Some (JS.Num (Z.max b 1)))) 0 w.
Proof.
  unfold setWhiteBrightness. cbn [JS.lt].
  destruct (Z.ltb_spec b 1).
  - replace (Z.max b 1) with 1 by lia. reflexivity.
  - replace (Z.max b 1) with b by lia. reflexivity.
Qed.

Lemma percentage_of_byte b :
  is_byte b ->
  let p := JSF.to_percentage (JSF.of_Z b) in
  JSF.isFinite p = true /\
  PrimFloat.leb (JSF.of_Z 0) p = true /\ PrimFloat.leb p (JSF.of_Z 100) = true /\
  PrimFloat.eqb p (JSF.of_Z 0) = (b =? 0) /\
  PrimFloat.eqb p (JSF.of_Z 100) = (b =? 255) /\
  JSF.Math_ceil (JSF.of_percentage p) = JSF.Fin (if drifts b then b + 1 else b).
Proof.
  intros Hb p.
  pose proof (forall_byte
    (fun b =>
       let p := JSF.to_percentage (JSF.of_Z b) in
       JSF.isFinite p && PrimFloat.leb (JSF.of_Z 0) p &&
       PrimFloat.leb p (JSF.of_Z 100) &&
       Bool.eqb (PrimFloat.eqb p (JSF.of_Z 0)) (b =? 0) &&
       Bool.eqb (PrimFloat.eqb p (JSF.of_Z 100)) (b =? 255) &&
       JSF.integral_eqb (JSF.Math_ceil (JSF.of_percentage p))
                        (JSF.Fin (if drifts b then b + 1 else b)))
    ltac:(vm_compute; reflexivity) b Hb) as H.
  cbv zeta in H. fold p in H.
  apply andb_prop in H. destruct H as [H H6].
  apply andb_prop in H. destruct H as [H H5].
  apply andb_prop in H. destruct H as [H H4].
  apply andb_prop in H. destruct H as [H H3].
  apply andb_prop in H. destruct H as [H1 H2].
  split; [exact H1|]. split; [exact H2|]. split; [exact H3|].
  split; [apply Bool.eqb_prop; exact H4|].
  split; [apply Bool.eqb_prop; exact H5|].
  apply integral_eqb_eq. exact H6.
Qed.

End Percentages.

(** X25.  For a whole percentage from 0 to 100 the three percentage
    setters send the byte that is the exact ceiling of 255 p / 100, the
    double arithmetic losing nothing: 0 gives 0 and 100 gives 255, and
    the white brightness, which is never sent below 1, gives 1 for 0. *)
Theorem percentage_setters_byte (p : Z) (w : World) :
  0 <= p <= 100 ->
  let b := (255 * p + 99) / 100 in
  is_byte b /\
  submitted (new_events w (snd (setBrightnessPercentage (JSF.of_Z p) w))) =
    [(CMD_SET_BRIGHTNESS, byte_hex b, 0)] /\
  submitted (new_events w (snd (setAnimationSpeedPercentage (JSF.of_Z p) w))) =
    [(CMD_SET_SPEED, byte_hex b, 0)] /\
  submitted (new_events w (snd (setWhiteBrightnessPercentage (JSF.of_Z p) w))) =
    [(CMD_SET_WHITE_BRIGHTNESS, byte_hex (Z.max b 1), 0)].
Proof.
  intros Hp b.
  pose proof (percentage_byte p Hp) as Hb. fold b in Hb.
  unfold setBrightnessPercentage, setAnimationSpeedPercentage,
    setWhiteBrightnessPercentage.
  rewrite (ceil_of_percentage p Hp). fold b.
  cbn [setBrightness_integral setAnimationSpeed_integral
       setWhiteBrightness_integral].
  split; [exact Hb|]. split; [|split].
  - unfold setBrightness.
    apply (send_byte_submitted CMD_SET_BRIGHTNESS b w Hb).
  - unfold setAnimationSpeed.
    apply (send_byte_submitted CMD_SET_SPEED b w Hb).
  - rewrite setWhiteBrightness_as_send.
    apply (send_byte_submitted CMD_SET_WHITE_BRIGHTNESS (Z.max b 1) w).
    unfold is_byte in *. lia.
Qed.

Lemma percentage_setters_byte_witness :
  let w := steady_world (answering []) in
  submitted (new_events w (snd (setBrightnessPercentage (JSF.of_Z 50) w))) =
    [(CMD_SET_BRIGHTNESS, "80"%string, 0)].
Proof.
  intros w.
  destruct (percentage_setters_byte 50 w ltac:(lia)) as (_ & H & _).
  rewrite H. reflexivity.
Defined.

(** X26.  The brightness percentage of a status decoded from 17 bytes is
    a finite number from 0 to 100, 0 only for the byte 0 and 100 only
    for the byte 255.  It does not always come back: written again with
    [setBrightnessPercentage] it gives the byte it was computed from,
    except for fifteen bytes (25, 49, 50, 98 to 101 and 196 to 203),
    for which it gives the next byte. *)
Theorem brightness_percentage_round_trip (UNKNOWN_MODE : Z) (buf : list Z)
  (w : World) :
  well_formed_status buf ->
  let st := decodeStatus UNKNOWN_MODE (JS.Buffer_toString_hex buf) in
  let b := nth 4 buf 0 in
  let p := brightnessPercentage st in
  JSF.isFinite p = true /\
  PrimFloat.leb (JSF.of_Z 0) p = true /\ PrimFloat.leb p (JSF.of_Z 100) = true /\
  PrimFloat.eqb p (JSF.of_Z 0) = (b =? 0) /\
  PrimFloat.eqb p (JSF.of_Z 100) = (b =? 255) /\
  submitted (new_events w (snd (setBrightnessPercentage p w))) =
    [(CMD_SET_BRIGHTNESS, byte_hex (if drifts b then b + 1 else b), 0)].
Proof.
  intros Hwf st b p.
  destruct (decodeStatus_fields UNKNOWN_MODE buf Hwf)
    as (_ & _ & _ & _ & Hbr & _).
  cbv zeta in Hbr. fold st in Hbr. fold b in Hbr.
  assert (Hb : is_byte b).
  { destruct Hwf as [Hl Hall]. rewrite Forall_forall in Hall.
    apply Hall. apply nth_In. lia. }
  assert (Ep : p = JSF.to_percentage (JSF.of_Z b)).
  { unfold p, brightnessPercentage. rewrite Hbr. reflexivity. }
  destruct (percentage_of_byte b Hb) as (P1 & P2 & P3 & P4 & P5 & P6).
  cbv zeta in P1, P2, P3, P4, P5, P6. rewrite <- Ep in P1, P2, P3, P4, P5, P6.
  split; [exact P1|]. split; [exact P2|]. split; [exact P3|].
  split; [exact P4|]. split; [exact P5|].
  unfold setBrightnessPercentage. rewrite P6. cbn [setBrightness_integral].
  unfold setBrightness.
  apply (send_byte_submitted CMD_SET_BRIGHTNESS (if drifts b then b + 1 else b) w).
  pose proof (forall_byte
    (fun b => let b' := if drifts b then b + 1 else b in
              (0 <=? b') && (b' <? 256))
    ltac:(vm_compute; reflexivity) b Hb) as H.
  cbv zeta in H. apply andb_prop in H. destruct H as [H1 H2].
  apply Z.leb_le in H1. apply Z.ltb_lt in H2. split; assumption.
Qed.

Lemma brightness_percentage_round_trip_witness :
  let w := steady_world (answering []) in
  let buf := [56; 1; 205; 128; 25; 2; 0; 60; 0; 1; 255; 103; 23; 3; 0; 255; 131] in
  submitted (new_events w
    (snd (setBrightnessPercentage
            (brightnessPercentage
               (decodeStatus 255 (JS.Buffer_toString_hex buf))) w))) =
  [(CMD_SET_BRIGHTNESS, "1a"%string, 0)].
Proof.
  intros w buf.
  destruct (brightness_percentage_round_trip 255 buf w) as (_ & _ & _ & _ & _ & H).
  - split; [reflexivity|]. unfold buf.
    repeat (constructor; [unfold is_byte; lia|]). constructor.
  - etransitivity; [exact H | reflexivity].
Defined.

(* ===================================================================== *)
(** ** The accessory: brightness and polling                              *)
(* ===================================================================== *)

Section Polling.

Lemma isFinite_not_NaN x : JSF.isFinite x = true -> JSF.isNaN x = false.
Proof.
  unfold JSF.isFinite, JSF.isNaN, PrimFloat.is_finite.
  destruct (PrimFloat.is_nan x); [discriminate | reflexivity].
Qed.

Lemma safe_is_finite x :
  JSF.isFinite (Sp108ePlatformAccessory.safe x) = true.
Proof.
  unfold Sp108ePlatformAccessory.safe.
  destruct (JSF.isFinite x) eqn:F; cbn [negb orb].
  - rewrite (isFinite_not_NaN x F). exact F.
  - vm_compute. reflexivity.
Qed.

Lemma safe_of_finite x :
  JSF.isFinite x = true -> Sp108ePlatformAccessory.safe x = x.
Proof.
  intros F. unfold Sp108ePlatformAccessory.safe.
  rewrite F, (isFinite_not_NaN x F). reflexivity.
Qed.

Lemma try_catch_snd {A} (m : M A) (e : error) w :
  snd (try_catch m (fun _ => throw e) w) = snd (m w).
Proof.
  unfold try_catch, throw. destruct (m w) as [[a|e'] w']; reflexivity.
Qed.

Lemma bind_ret_snd {A} (m : M A) w :
  snd (bind m (fun _ => ret tt) w) = snd (m w).
Proof.
  unfold bind, ret. destruct (m w) as [[a|e'] w']; reflexivity.
Qed.

End Polling.

(** X27.  The accessory's [setBrightness], with the held status saying
    the device is on: a value that is not finite, or whose whole part is
    below 1, switches the device off (one status query, and the toggle
    if the device answers that it is on) and sends no brightness; a
    finite value whose whole part i is from 1 to 100 loses its fraction
    and sends the one brightness command with the byte that is the
    ceiling of 255 i / 100. *)
Theorem accessory_setBrightness_cases (UNKNOWN_MODE : Z)
  (value : PrimFloat.float) (d : nat) (w : World) :
  sp108eStatus.on (heap w d) = true ->
  let w' := snd (Sp108ePlatformAccessory.setBrightness UNKNOWN_MODE value
                   (Some d) w) in
  (JSF.isFinite value = false \/ JSF.lt (JSF.Math_trunc value) 1 = true ->
   submitted (new_events w w') =
     match getStatus UNKNOWN_MODE w with
     | (Throw _, _) => [status_command]
     | (Ok status, w1) =>
         status_command ::
         (if sp108eStatus.on (heap w1 status) then [toggle_command] else [])
     end) /\
  (forall i, JSF.isFinite value = true -> JSF.Math_trunc value = JSF.Fin i ->
     1 <= i <= 100 ->
     submitted (new_events w w') =
       [(CMD_SET_BRIGHTNESS, byte_hex ((255 * i + 99) / 100), 0)]).
Proof.
  intros Hon w'. unfold w', Sp108ePlatformAccessory.setBrightness.
  rewrite try_catch_snd.
  split.
  - intros Hcase.
    unfold bind at 1. unfold deref at 1. cbv beta iota. rewrite Hon.
    cbn [negb]. unfold bind at 1. unfold ret at 1. cbv beta iota zeta.
    assert (E : (if negb (JSF.isFinite value) || JSF.isNaN value
                 then bind (off UNKNOWN_MODE) (fun _ => ret tt)
                 else if JSF.lt (JSF.Math_trunc value) 1
                      then bind (off UNKNOWN_MODE) (fun _ => ret tt)
                      else bind (setBrightnessPercentage
                                   (JSF.to_float (JSF.Math_trunc value)))
                                (fun _ => ret tt)) =
                bind (off UNKNOWN_MODE) (fun _ : option string => ret tt)).
    { destruct Hcase as [F|L].
      - rewrite F. reflexivity.
      - rewrite L. destruct (negb (JSF.isFinite value) || JSF.isNaN value);
          reflexivity. }
    rewrite E, (bind_ret_snd (off UNKNOWN_MODE) w).
    destruct (off_submitted UNKNOWN_MODE w) as (evs & Ex & S).
    rewrite (new_events_extends _ _ _ Ex). exact S.
  - intros i F T Hi.
    unfold bind at 1. unfold deref at 1. cbv beta iota. rewrite Hon.
    cbn [negb]. unfold bind at 1. unfold ret at 1. cbv beta iota zeta.
    rewrite F, (isFinite_not_NaN value F), T. cbn [negb orb JSF.lt JSF.to_float].
    destruct (Z.ltb_spec i 1) as [Hlt|_]; [lia|].
    rewrite (bind_ret_snd (setBrightnessPercentage (JSF.of_Z i)) w).
    unfold setBrightnessPercentage.
    rewrite (ceil_of_percentage i ltac:(lia)). cbn [setBrightness_integral].
    unfold setBrightness.
    apply (send_byte_submitted CMD_SET_BRIGHTNESS ((255 * i + 99) / 100) w).
    apply percentage_byte. lia.
Qed.

Lemma accessory_setBrightness_cases_witness :
  let w := snd (alloc (decodeStatus 255
              (JS.Buffer_toString_hex (status_bytes 1 205)))
              (steady_world (answering (status_bytes 1 205)))) in
  submitted (new_events w
    (snd (Sp108ePlatformAccessory.setBrightness 255
            (PrimFloat.div (JSF.of_Z 507) (JSF.of_Z 10)) (Some 0%nat) w))) =
  [(CMD_SET_BRIGHTNESS, "80"%string, 0)].
Proof.
  intros w.
  destruct (accessory_setBrightness_cases 255
              (PrimFloat.div (JSF.of_Z 507) (JSF.of_Z 10)) 0%nat w eq_refl)
    as (_ & H).
  etransitivity.
  - apply (H 50).
    + vm_compute. reflexivity.
    + vm_compute. reflexivity.
    + lia.
  - reflexivity.
Defined.

(** X28.  A poll asks the device for its status once and sends nothing
    else.  If the query fails the error is swallowed: the fields are
    what they were, the held status included, and nothing is reported.
    If it succeeds the held status is the new object, the pull date is
    the current one and the RGB switch is the power flag of the new
    status.  Either way the animation and preset switches are left
    alone, a remembered animation number that is not the static mode
    is not replaced by it, and a remembered animation or preset number
    that is not the unknown value is not replaced by it. *)
Theorem pollStatus_fields (UNKNOWN_MODE ANIMATION_MODE_STATIC : Z)
  (HsvValue : Type) (PRESET_EFFECT_RAINBOW : Z)
  (in_PRESET_EFFECTS in_ANIMATION_MODES : JS.number -> bool)
  (hex_hsv_hue hex_hsv_saturation : string -> HsvValue)
  (now : Z) (has_wService has_prService : bool)
  (a : Sp108ePlatformAccessory.Polled) (w : World) :
  let res := Sp108ePlatformAccessory.pollStatus UNKNOWN_MODE
               ANIMATION_MODE_STATIC HsvValue PRESET_EFFECT_RAINBOW
               in_PRESET_EFFECTS in_ANIMATION_MODES hex_hsv_hue
               hex_hsv_saturation now has_wService has_prService a w in
  let a' := fst (fst res) in
  let updates := snd (fst res) in
  let w' := snd res in
  let unchanged_if_not (k : Z) (old new : JS.number) :=
    JS.strict_eq old (JS.Num k) = false -> JS.strict_eq new (JS.Num k) = false in
  submitted (new_events w w') = [status_command] /\
  w' = snd (getStatus UNKNOWN_MODE w) /\
  Sp108ePlatformAccessory.animationOn (Sp108ePlatformAccessory.switches a') =
    Sp108ePlatformAccessory.animationOn (Sp108ePlatformAccessory.switches a) /\
  Sp108ePlatformAccessory.presetOn (Sp108ePlatformAccessory.switches a') =
    Sp108ePlatformAccessory.presetOn (Sp108ePlatformAccessory.switches a) /\
  unchanged_if_not ANIMATION_MODE_STATIC
    (Sp108ePlatformAccessory.animationNumber a)
    (Sp108ePlatformAccessory.animationNumber a') /\
  unchanged_if_not UNKNOWN_MODE
    (Sp108ePlatformAccessory.animationNumber a)
    (Sp108ePlatformAccessory.animationNumber a') /\
  unchanged_if_not UNKNOWN_MODE
    (Sp108ePlatformAccessory.presetEffectNumber a)
    (Sp108ePlatformAccessory.presetEffectNumber a') /\
  match fst (getStatus UNKNOWN_MODE w) with
  | Throw _ => a' = a /\ updates = []
  | Ok status =>
      Sp108ePlatformAccessory.deviceStatus a' = Some status /\
      (next w <= status < next w')%nat /\
      Sp108ePlatformAccessory.lastPull a' = Some now /\
      Sp108ePlatformAccessory.rgbOn (Sp108ePlatformAccessory.switches a') =
        sp108eStatus.on (heap w' status)
  end.
Proof.
  cbv zeta. unfold Sp108ePlatformAccessory.pollStatus.
  destruct (getStatus_extends UNKNOWN_MODE w) as (evs & Ex & S).
  destruct (getStatus UNKNOWN_MODE w) as [[status|e] w1] eqn:G;
    cbn [fst snd] in *.
  - rewrite (new_events_extends _ _ _ Ex).
    split; [exact S|]. split; [reflexivity|].
    split; [reflexivity|]. split; [reflexivity|].
    set (st := heap w1 status).
    split; [|split; [|split]].
    + intros Hn.
      destruct (negb (JS.strict_eq (sp108eStatus.animationMode st)
                                   (JS.Num ANIMATION_MODE_STATIC))) eqn:K1;
        cbn [andb]; [|exact Hn].
      destruct (negb (JS.strict_eq (sp108eStatus.animationMode st)
                                   (JS.Num UNKNOWN_MODE)));
        cbn [andb]; [|exact Hn].
      destruct (sp108eStatus.on st); [|exact Hn].
      destruct (in_ANIMATION_MODES (sp108eStatus.animationMode st));
        [|exact Hn].
      apply negb_true_iff in K1. exact K1.
    + intros Hn.
      destruct (negb (JS.strict_eq (sp108eStatus.animationMode st)
                                   (JS.Num ANIMATION_MODE_STATIC)));
        cbn [andb]; [|exact Hn].
      destruct (negb (JS.strict_eq (sp108eStatus.animationMode st)
                                   (JS.Num UNKNOWN_MODE))) eqn:K2;
        cbn [andb]; [|exact Hn].
      destruct (sp108eStatus.on st); [|exact Hn].
      destruct (in_ANIMATION_MODES (sp108eStatus.animationMode st));
        [|exact Hn].
      apply negb_true_iff in K2. exact K2.
    + intros Hn.
      destruct (negb (JS.strict_eq (sp108eStatus.presetEffectMode st)
                                   (JS.Num UNKNOWN_MODE))) eqn:K3;
        cbn [andb]; [|exact Hn].
      destruct (sp108eStatus.on st); [|exact Hn].
      destruct (in_PRESET_EFFECTS (sp108eStatus.presetEffectMode st));
        [|exact Hn].
      apply negb_true_iff in K3. exact K3.
    + destruct (getStatus_inv UNKNOWN_MODE w status w1 G)
        as (response & w0 & Hs & -> & Hnx & -> & _).
      cbn [alloc snd next]. repeat split; lia.
  - rewrite (new_events_extends _ _ _ Ex).
    repeat split; auto.
Qed.

(** X29.  Whatever the device answers, an empty or a malformed response
    included, no poll hands the platform a brightness or a speed that is
    not a finite number, or an identifier that is [NaN]. *)
Theorem pollStatus_reports_acceptable_values
  (UNKNOWN_MODE ANIMATION_MODE_STATIC : Z)
  (HsvValue : Type) (PRESET_EFFECT_RAINBOW : Z)
  (in_PRESET_EFFECTS in_ANIMATION_MODES : JS.number -> bool)
  (hex_hsv_hue hex_hsv_saturation : string -> HsvValue)
  (now : Z) (has_wService has_prService : bool)
  (a : Sp108ePlatformAccessory.Polled) (w : World) :
  let updates :=
    snd (fst (Sp108ePlatformAccessory.pollStatus UNKNOWN_MODE
                ANIMATION_MODE_STATIC HsvValue PRESET_EFFECT_RAINBOW
                in_PRESET_EFFECTS in_ANIMATION_MODES hex_hsv_hue
                hex_hsv_saturation now has_wService has_prService a w)) in
  forallb (fun u => Sp108ePlatformAccessory.acceptable (snd u)) updates = true.
Proof.
  cbv zeta. unfold Sp108ePlatformAccessory.pollStatus.
  destruct (getStatus UNKNOWN_MODE w) as [[status|e] w1]; [|reflexivity].
  cbn [fst snd].
  set (st := heap w1 status).
  assert (Z0 : JSF.isFinite (JSF.of_Z 0) = true) by (vm_compute; reflexivity).
  assert (B : JSF.isFinite
                (if sp108eStatus.on st
                 then Sp108ePlatformAccessory.safe (brightnessPercentage st)
                 else JSF.of_Z 0) = true)
    by (destruct (sp108eStatus.on st); [apply safe_is_finite | exact Z0]).
  repeat first
    [ rewrite forallb_app
    | rewrite safe_is_finite
    | rewrite B
    | progress cbn [forallb snd andb Sp108ePlatformAccessory.acceptable
                    Sp108ePlatformAccessory.safe_identifier]
    | match goal with
      | |- context [Sp108ePlatformAccessory.safe_identifier ?x _] => destruct x
      end
    | match goal with
      | |- context [forallb _ (if ?c then _ else _)] => destruct c
      end ];
  reflexivity.
Qed.

(** X30.  What a poll reports follows the bytes of a 17-byte status.
    The power is byte 1; the brightness is byte 4 as a percentage when
    the device is on and 0 when it is off; the rotation speed is byte 3
    and the white brightness byte 15 as percentages, none of them
    replaced by the fallback 0.  The animation services are reported
    active exactly when the device is on and the mode byte is above 180
    and neither the static mode nor the unknown value, the preset
    service exactly when the device is on and the mode byte is below
    180 and not the unknown value. *)
Theorem pollStatus_reports_the_status (UNKNOWN_MODE ANIMATION_MODE_STATIC : Z)
  (HsvValue : Type) (PRESET_EFFECT_RAINBOW : Z)
  (in_PRESET_EFFECTS in_ANIMATION_MODES : JS.number -> bool)
  (hex_hsv_hue hex_hsv_saturation : string -> HsvValue)
  (now : Z) (has_wService has_prService : bool)
  (a : Sp108ePlatformAccessory.Polled) (w w1 : World) (buf : list Z) :
  well_formed_status buf ->
  send CMD_GET_STATUS NO_PARAMETER 17 w = (Ok (JS.Buffer_toString_hex buf), w1) ->
  let updates :=
    snd (fst (Sp108ePlatformAccessory.pollStatus UNKNOWN_MODE
                ANIMATION_MODE_STATIC HsvValue PRESET_EFFECT_RAINBOW
                in_PRESET_EFFECTS in_ANIMATION_MODES hex_hsv_hue
                hex_hsv_saturation now has_wService has_prService a w)) in
  let b i := nth i buf 0 in
  let power := b 1%nat =? 1 in
  let animating :=
    power && (180 <? b 2%nat) && negb (b 2%nat =? ANIMATION_MODE_STATIC) &&
    negb (b 2%nat =? UNKNOWN_MODE) in
  let presetting :=
    power && (b 2%nat <? 180) && negb (b 2%nat =? UNKNOWN_MODE) in
  let percentage i := JSF.to_percentage (JSF.of_Z (b i)) in
  let active (c : bool) : Sp108ePlatformAccessory.Value HsvValue :=
    Sp108ePlatformAccessory.VActive
      (if c then Sp108ePlatformAccessory.ACTIVE
       else Sp108ePlatformAccessory.INACTIVE) in
  let reported := Sp108ePlatformAccessory.reported updates in
  reported Sp108ePlatformAccessory.rgbService Sp108ePlatformAccessory.On =
    [Sp108ePlatformAccessory.VBoolean power] /\
  reported Sp108ePlatformAccessory.rgbService Sp108ePlatformAccessory.Brightness =
    [Sp108ePlatformAccessory.VNumber
       (if power then percentage 4%nat else JSF.of_Z 0)] /\
  reported Sp108ePlatformAccessory.asService Sp108ePlatformAccessory.RotationSpeed =
    [Sp108ePlatformAccessory.VNumber (percentage 3%nat)] /\
  reported Sp108ePlatformAccessory.wService Sp108ePlatformAccessory.Brightness =
    (if has_wService
     then [Sp108ePlatformAccessory.VNumber (percentage 15%nat)] else []) /\
  reported Sp108ePlatformAccessory.asService Sp108ePlatformAccessory.Active =
    [active animating] /\
  reported Sp108ePlatformAccessory.mdService Sp108ePlatformAccessory.Active =
    [active animating] /\
  reported Sp108ePlatformAccessory.prService Sp108ePlatformAccessory.Active =
    (if has_prService then [active presetting] else []).
Proof.
  intros Hwf Hsend. cbv zeta.
  unfold Sp108ePlatformAccessory.pollStatus.
  rewrite (getStatus_ok UNKNOWN_MODE w _ w1 Hsend).
  cbn [alloc fst snd heap]. rewrite Nat.eqb_refl.
  destruct (decodeStatus_fields UNKNOWN_MODE buf Hwf)
    as (Hon & Ham & Hpm & Hsp & Hbr & _ & _ & _ & _ & _ & _ & Hwb).
  cbv zeta in Hon, Ham, Hpm, Hsp, Hbr, Hwb.
  set (st := decodeStatus UNKNOWN_MODE (JS.Buffer_toString_hex buf)) in *.
  assert (Hb : forall i, (i < 17)%nat -> is_byte (nth i buf 0)).
  { intros i Hi. destruct Hwf as [Hl Hall]. rewrite Forall_forall in Hall.
    apply Hall. apply nth_In. lia. }
  assert (P : forall i, (i < 17)%nat ->
            Sp108ePlatformAccessory.safe
              (JSF.to_percentage (JSF.of_Z (nth i buf 0))) =
            JSF.to_percentage (JSF.of_Z (nth i buf 0))).
  { intros i Hi. apply safe_of_finite.
    destruct (percentage_of_byte _ (Hb i Hi)) as (F & _). exact F. }
  unfold brightnessPercentage, whiteBrightnessPercentage,
    animationSpeedPercentage.
  rewrite Hon, Ham, Hpm, Hsp, Hbr, Hwb. cbn [JSF.of_number].
  rewrite !P by lia.
  assert (Ea :
    negb (JS.strict_eq (if 180 <? nth 2 buf 0 then JS.Num (nth 2 buf 0)
                        else JS.Num UNKNOWN_MODE)
                       (JS.Num ANIMATION_MODE_STATIC)) &&
    negb (JS.strict_eq (if 180 <? nth 2 buf 0 then JS.Num (nth 2 buf 0)
                        else JS.Num UNKNOWN_MODE)
                       (JS.Num UNKNOWN_MODE)) &&
    (nth 1 buf 0 =? 1) =
    (nth 1 buf 0 =? 1) && (180 <? nth 2 buf 0) &&
    negb (nth 2 buf 0 =? ANIMATION_MODE_STATIC) &&
    negb (nth 2 buf 0 =? UNKNOWN_MODE)).
  { destruct (180 <? nth 2 buf 0); cbn [JS.strict_eq].
    - destruct (nth 1 buf 0 =? 1), (nth 2 buf 0 =? ANIMATION_MODE_STATIC),
        (nth 2 buf 0 =? UNKNOWN_MODE); reflexivity.
    - rewrite Z.eqb_refl.
      destruct (nth 1 buf 0 =? 1), (UNKNOWN_MODE =? ANIMATION_MODE_STATIC);
        reflexivity. }
  assert (Ep :
    negb (JS.strict_eq (if nth 2 buf 0 <? 180 then JS.Num (nth 2 buf 0)
                        else JS.Num UNKNOWN_MODE)
                       (JS.Num UNKNOWN_MODE)) &&
    (nth 1 buf 0 =? 1) =
    (nth 1 buf 0 =? 1) && (nth 2 buf 0 <? 180) &&
    negb (nth 2 buf 0 =? UNKNOWN_MODE)).
  { destruct (nth 2 buf 0 <? 180); cbn [JS.strict_eq].
    - destruct (nth 1 buf 0 =? 1), (nth 2 buf 0 =? UNKNOWN_MODE); reflexivity.
    - rewrite Z.eqb_refl. destruct (nth 1 buf 0 =? 1); reflexivity. }
  rewrite !Ea, !Ep.
  unfold Sp108ePlatformAccessory.reported.
  repeat match goal with
  | |- context [if ?c then [_] else []] =>
      lazymatch c with
      | has_wService => fail
      | has_prService => fail
      | _ => destruct c
      end
  end;
  destruct has_wService, has_prService; cbn; repeat split; reflexivity.
Qed.

Lemma pollStatus_reports_the_status_witness :
  let w := steady_world (answering (status_bytes 1 205)) in
  let a := Sp108ePlatformAccessory.mkPolled None None
             (Sp108ePlatformAccessory.mkSwitches false (Some false) (Some false))
             (JS.Num 208) (JS.Num 0) in
  let updates :=
    snd (fst (Sp108ePlatformAccessory.pollStatus 255 211 unit 0
                (fun _ => true) (fun _ => true) (fun _ => tt) (fun _ => tt)
                0 false true a w)) in
  Sp108ePlatformAccessory.reported updates
    Sp108ePlatformAccessory.asService Sp108ePlatformAccessory.Active =
    [Sp108ePlatformAccessory.VActive Sp108ePlatformAccessory.ACTIVE] /\
  Sp108ePlatformAccessory.reported updates
    Sp108ePlatformAccessory.prService Sp108ePlatformAccessory.Active =
    [Sp108ePlatformAccessory.VActive Sp108ePlatformAccessory.INACTIVE].
Proof.
  intros w a updates.
  destruct (pollStatus_reports_the_status 255 211 unit 0
              (fun _ => true) (fun _ => true) (fun _ => tt) (fun _ => tt)
              0 false true a w
              (snd (send CMD_GET_STATUS NO_PARAMETER 17 w))
              (status_bytes 1 205))
    as (_ & _ & _ & _ & H1 & _ & H2).
  - split; [reflexivity|]. unfold status_bytes.
    repeat (constructor; [unfold is_byte; lia|]). constructor.
  - vm_compute. reflexivity.
  - split; [exact H1 | exact H2].
Defined.
